(** * RISC-V virtual-memory subsystem of the kernel: a shallow embedding

    Embedded sources:
    - [src/arch/riscv/kernel/vspace.c]: page-table walker, ASID registry,
      MMU invocation decoder and executor, VM fault translator;
    - [src/arch/riscv/object/kernelimage.c]: [Arch_setKernelImage].

    Machine words are 64-bit ([Z] with the wrap-around written out), kernel
    memory is word-addressed by byte address, and the two one-slot relays
    [current_lookup_fault] / [current_syscall_error] are fields of the
    kernel state. *)

From Stdlib Require Import ZArith List Bool Lia.
Import ListNotations.
Local Open Scope Z_scope.

(** ** Machine words *)

Definition wordBits : Z := 64.
Definition word (z : Z) : Z := z mod 2 ^ wordBits.
Definition BIT (n : Z) : Z := word (Z.shiftl 1 n).
Definition MASK (n : Z) : Z := word (BIT n - 1).

(** C truth values of [word_t]/[bool_t] expressions. *)
Definition b2w (b : bool) : Z := if b then 1 else 0.

(** ** Enumerations *)

Inductive exception_t : Type :=
| EXCEPTION_NONE
| EXCEPTION_FAULT
| EXCEPTION_LOOKUP_FAULT
| EXCEPTION_SYSCALL_ERROR
| EXCEPTION_PREEMPTED.

Inductive vm_rights_t : Type :=
| VMNoAccess
| VMKernelOnly
| VMReadOnly
| VMWriteOnly
| VMReadWrite.

Definition vm_rights_eqb (a b : vm_rights_t) : bool :=
  match a, b with
  | VMNoAccess, VMNoAccess | VMKernelOnly, VMKernelOnly
  | VMReadOnly, VMReadOnly | VMWriteOnly, VMWriteOnly
  | VMReadWrite, VMReadWrite => true
  | _, _ => false
  end.

(** [seL4_CapRights_t]: only the two accessors the VM code reads. *)
Record seL4_CapRights_t : Type := {
  capAllowRead : bool;
  capAllowWrite : bool
}.

(** ** Rights helpers (vspace.c, lines 48-63) *)

Definition RISCVGetWriteFromVMRights (vm_rights : vm_rights_t) : bool :=
  negb (vm_rights_eqb vm_rights VMNoAccess) && negb (vm_rights_eqb vm_rights VMReadOnly).

Definition RISCVGetUserFromVMRights (vm_rights : vm_rights_t) : bool :=
  negb (vm_rights_eqb vm_rights VMKernelOnly).

Definition RISCVGetReadFromVMRights (vm_rights : vm_rights_t) : bool :=
  negb (vm_rights_eqb vm_rights VMNoAccess) && negb (vm_rights_eqb vm_rights VMWriteOnly).

(** ** [maskVMRights] (vspace.c, lines 666-694) *)

Definition maskVMRights (vm_rights : vm_rights_t) (cap_rights_mask : seL4_CapRights_t)
  : vm_rights_t :=
  if vm_rights_eqb vm_rights VMNoAccess then VMNoAccess
  else if vm_rights_eqb vm_rights VMReadOnly && capAllowRead cap_rights_mask then VMReadOnly
  else if vm_rights_eqb vm_rights VMReadWrite
          && (capAllowRead cap_rights_mask || capAllowWrite cap_rights_mask) then
    if negb (capAllowWrite cap_rights_mask) then VMReadOnly
    else if negb (capAllowRead cap_rights_mask) then VMWriteOnly
    else VMReadWrite
  else if vm_rights_eqb vm_rights VMWriteOnly && capAllowWrite cap_rights_mask then VMWriteOnly
  else if vm_rights_eqb vm_rights VMKernelOnly then VMKernelOnly
  else VMNoAccess.

(** ** Lookup faults, syscall errors, VM faults *)

Inductive lookup_fault_t : Type :=
| lookup_fault_null
| lookup_fault_invalid_root_new
| lookup_fault_missing_capability_new (bitsLeft : Z).

Inductive seL4_Error : Type :=
| seL4_NoError
| seL4_InvalidArgument
| seL4_InvalidCapability
| seL4_IllegalOperation
| seL4_RangeError
| seL4_AlignmentError
| seL4_FailedLookup
| seL4_TruncatedMessage
| seL4_DeleteFirst
| seL4_RevokeFirst
| seL4_NotEnoughMemory.

(** The global [current_syscall_error]; a decode path assigns only some of
    its members and the others keep their previous contents. *)
Record syscall_error_t : Type := {
  se_type : seL4_Error;
  invalidArgumentNumber : Z;
  invalidCapNumber : Z;
  failedLookupWasSource : bool
}.

Definition set_se_type (t : seL4_Error) (e : syscall_error_t) : syscall_error_t :=
  {| se_type := t; invalidArgumentNumber := invalidArgumentNumber e;
     invalidCapNumber := invalidCapNumber e;
     failedLookupWasSource := failedLookupWasSource e |}.

Definition set_invalidArgumentNumber (n : Z) (e : syscall_error_t) : syscall_error_t :=
  {| se_type := se_type e; invalidArgumentNumber := n;
     invalidCapNumber := invalidCapNumber e;
     failedLookupWasSource := failedLookupWasSource e |}.

Definition set_invalidCapNumber (n : Z) (e : syscall_error_t) : syscall_error_t :=
  {| se_type := se_type e; invalidArgumentNumber := invalidArgumentNumber e;
     invalidCapNumber := n;
     failedLookupWasSource := failedLookupWasSource e |}.

Definition set_failedLookupWasSource (b : bool) (e : syscall_error_t) : syscall_error_t :=
  {| se_type := se_type e; invalidArgumentNumber := invalidArgumentNumber e;
     invalidCapNumber := invalidCapNumber e;
     failedLookupWasSource := b |}.

Inductive vm_fault_type_t : Type :=
| RISCVInstructionMisaligned
| RISCVInstructionAccessFault
| RISCVInstructionIllegal
| RISCVBreakpoint
| RISCVLoadAccessFault
| RISCVAddressMisaligned
| RISCVStoreAccessFault
| RISCVEnvCall
| RISCVInstructionPageFault
| RISCVLoadPageFault
| RISCVStorePageFault
| RISCVUnknownCause (n : Z).

Inductive seL4_Fault_t : Type :=
| seL4_Fault_NullFault
| seL4_Fault_VMFault_new (address : Z) (FSR : vm_fault_type_t) (instructionFault : bool).

Inductive register_t : Type :=
| SEPC
| NEXTPC
| msgInfoRegister
| msgRegister (n : Z)
| otherRegister (n : Z).

Definition register_eqb (a b : register_t) : bool :=
  match a, b with
  | SEPC, SEPC | NEXTPC, NEXTPC | msgInfoRegister, msgInfoRegister => true
  | msgRegister n, msgRegister m | otherRegister n, otherRegister m => n =? m
  | _, _ => false
  end.

Inductive _thread_state : Type :=
| ThreadState_Inactive
| ThreadState_Running
| ThreadState_Restart.

Inductive invocation_label : Type :=
| RISCVPageTableMap
| RISCVPageTableUnmap
| RISCVPageMap
| RISCVPageRemap
| RISCVPageUnmap
| RISCVPageGetAddress
| RISCVASIDControlMakePool
| RISCVASIDPoolAssign
| InvalidInvocation (n : Z).

Definition label_eqb (a b : invocation_label) : bool :=
  match a, b with
  | RISCVPageTableMap, RISCVPageTableMap
  | RISCVPageTableUnmap, RISCVPageTableUnmap
  | RISCVPageMap, RISCVPageMap
  | RISCVPageRemap, RISCVPageRemap
  | RISCVPageUnmap, RISCVPageUnmap
  | RISCVPageGetAddress, RISCVPageGetAddress
  | RISCVASIDControlMakePool, RISCVASIDControlMakePool
  | RISCVASIDPoolAssign, RISCVASIDPoolAssign => true
  | InvalidInvocation n, InvalidInvocation m => n =? m
  | _, _ => false
  end.

(** ** Capabilities (§6 of the specification: capability fields)

    A capability is a tagged union.  The generated accessors of one
    capability type applied to a capability of another type read or write
    raw bits; the bit layout is not part of the embedded sources, so those
    cases are delegated to the platform (see [platform] below). *)

Inductive cap_t : Type :=
| cap_null_cap
| cap_untyped_cap (capFreeIndex capIsDevice capBlockSize capPtr : Z)
| cap_frame_cap (capFMappedASID capFBasePtr capFSize : Z)
                (capFVMRights : vm_rights_t) (capFMappedAddress : Z)
| cap_page_table_cap (capPTMappedASID capPTBasePtr capPTIsMapped capPTMappedAddress : Z)
| cap_asid_control_cap
| cap_asid_pool_cap (capASIDBase capASIDPool : Z)
| cap_generic (tag : Z).

Inductive cap_tag_t : Type :=
| tag_null | tag_untyped | tag_frame | tag_page_table
| tag_asid_control | tag_asid_pool | tag_generic.

Definition cap_get_capType (c : cap_t) : cap_tag_t :=
  match c with
  | cap_null_cap => tag_null
  | cap_untyped_cap _ _ _ _ => tag_untyped
  | cap_frame_cap _ _ _ _ _ => tag_frame
  | cap_page_table_cap _ _ _ _ => tag_page_table
  | cap_asid_control_cap => tag_asid_control
  | cap_asid_pool_cap _ _ => tag_asid_pool
  | cap_generic _ => tag_generic
  end.

Definition cap_tag_eqb (a b : cap_tag_t) : bool :=
  match a, b with
  | tag_null, tag_null | tag_untyped, tag_untyped | tag_frame, tag_frame
  | tag_page_table, tag_page_table | tag_asid_control, tag_asid_control
  | tag_asid_pool, tag_asid_pool | tag_generic, tag_generic => true
  | _, _ => false
  end.

Inductive cap_field : Type :=
| F_capPTMappedASID | F_capPTBasePtr | F_capPTIsMapped | F_capPTMappedAddress
| F_capFMappedASID | F_capFMappedAddress | F_capFBasePtr | F_capFSize | F_capFVMRights
| F_capFreeIndex | F_capBlockSize | F_capIsDevice | F_capPtr
| F_capASIDBase | F_capASIDPool.

(** ** Kernel state *)

Record kstate : Type := {
  ks_mem : Z -> Z;                      (* kernel memory: one word per address *)
  riscvKSASIDTable : Z -> Z;            (* pool pointer per pool index, 0 = NULL *)
  ks_cte : Z -> cap_t;                  (* [cte_t *] |-> the slot's capability *)
  current_lookup_fault : lookup_fault_t;
  current_syscall_error : syscall_error_t;
  current_fault : seL4_Fault_t;
  ks_regs : Z -> register_t -> Z;       (* [tcb_t *] |-> user register file *)
  ksCurThread : Z;
  csr_sbadaddr : Z
}.

Definition upd (f : Z -> Z) (a v : Z) : Z -> Z :=
  fun x => if x =? a then v else f x.

Definition with_mem (m : Z -> Z) (s : kstate) : kstate :=
  {| ks_mem := m; riscvKSASIDTable := riscvKSASIDTable s; ks_cte := ks_cte s;
     current_lookup_fault := current_lookup_fault s;
     current_syscall_error := current_syscall_error s;
     current_fault := current_fault s; ks_regs := ks_regs s;
     ksCurThread := ksCurThread s; csr_sbadaddr := csr_sbadaddr s |}.

Definition with_asid_table (t : Z -> Z) (s : kstate) : kstate :=
  {| ks_mem := ks_mem s; riscvKSASIDTable := t; ks_cte := ks_cte s;
     current_lookup_fault := current_lookup_fault s;
     current_syscall_error := current_syscall_error s;
     current_fault := current_fault s; ks_regs := ks_regs s;
     ksCurThread := ksCurThread s; csr_sbadaddr := csr_sbadaddr s |}.

Definition with_cte (c : Z -> cap_t) (s : kstate) : kstate :=
  {| ks_mem := ks_mem s; riscvKSASIDTable := riscvKSASIDTable s; ks_cte := c;
     current_lookup_fault := current_lookup_fault s;
     current_syscall_error := current_syscall_error s;
     current_fault := current_fault s; ks_regs := ks_regs s;
     ksCurThread := ksCurThread s; csr_sbadaddr := csr_sbadaddr s |}.

Definition with_lookup_fault (f : lookup_fault_t) (s : kstate) : kstate :=
  {| ks_mem := ks_mem s; riscvKSASIDTable := riscvKSASIDTable s; ks_cte := ks_cte s;
     current_lookup_fault := f;
     current_syscall_error := current_syscall_error s;
     current_fault := current_fault s; ks_regs := ks_regs s;
     ksCurThread := ksCurThread s; csr_sbadaddr := csr_sbadaddr s |}.

Definition with_syscall_error (e : syscall_error_t) (s : kstate) : kstate :=
  {| ks_mem := ks_mem s; riscvKSASIDTable := riscvKSASIDTable s; ks_cte := ks_cte s;
     current_lookup_fault := current_lookup_fault s;
     current_syscall_error := e;
     current_fault := current_fault s; ks_regs := ks_regs s;
     ksCurThread := ksCurThread s; csr_sbadaddr := csr_sbadaddr s |}.

Definition with_fault (f : seL4_Fault_t) (s : kstate) : kstate :=
  {| ks_mem := ks_mem s; riscvKSASIDTable := riscvKSASIDTable s; ks_cte := ks_cte s;
     current_lookup_fault := current_lookup_fault s;
     current_syscall_error := current_syscall_error s;
     current_fault := f; ks_regs := ks_regs s;
     ksCurThread := ksCurThread s; csr_sbadaddr := csr_sbadaddr s |}.

Definition with_regs (r : Z -> register_t -> Z) (s : kstate) : kstate :=
  {| ks_mem := ks_mem s; riscvKSASIDTable := riscvKSASIDTable s; ks_cte := ks_cte s;
     current_lookup_fault := current_lookup_fault s;
     current_syscall_error := current_syscall_error s;
     current_fault := current_fault s; ks_regs := r;
     ksCurThread := ksCurThread s; csr_sbadaddr := csr_sbadaddr s |}.

(** ** The kernel monad: state, plus the two ways a C path has no result *)

Inductive result (A : Type) : Type :=
| Done (a : A) (s : kstate)
| Halt      (* [fail(...)], or [assert] violated in a debug build *)
| Undef.    (* access through an indeterminate (never assigned) pointer *)
Arguments Done {A} a s.
Arguments Halt {A}.
Arguments Undef {A}.

Definition M (A : Type) : Type := kstate -> result A.

Definition ret {A} (a : A) : M A := fun s => Done a s.

Definition bind {A B} (m : M A) (k : A -> M B) : M B :=
  fun s => match m s with
           | Done a s' => k a s'
           | Halt => Halt
           | Undef => Undef
           end.

Declare Scope kernel_scope.
Delimit Scope kernel_scope with kernel.
Notation "x <- m ;; k" := (bind m (fun x => k))
  (at level 61, m at next level, right associativity) : kernel_scope.
Notation "m ;;; k" := (bind m (fun _ => k))
  (at level 61, right associativity) : kernel_scope.
Local Open Scope kernel_scope.

Definition gets {A} (f : kstate -> A) : M A := fun s => Done (f s) s.
Definition modify (f : kstate -> kstate) : M unit := fun s => Done tt (f s).
Definition fail {A} : M A := fun _ => Halt.
Definition undefined {A} : M A := fun _ => Undef.

Definition load (p : Z) : M Z := gets (fun s => ks_mem s p).
Definition store (p v : Z) : M unit := modify (fun s => with_mem (upd (ks_mem s) p v) s).

Definition set_current_lookup_fault (f : lookup_fault_t) : M unit :=
  modify (with_lookup_fault f).
Definition set_syscall_error (f : syscall_error_t -> syscall_error_t) : M unit :=
  modify (fun s => with_syscall_error (f (current_syscall_error s)) s).

Definition getRegister (thread : Z) (r : register_t) : M Z :=
  gets (fun s => ks_regs s thread r).
Definition setRegister (thread : Z) (r : register_t) (w : Z) : M unit :=
  modify (fun s => with_regs
    (fun t r' => if (t =? thread) && register_eqb r' r then w else ks_regs s t r') s).

(** [extra_caps_t]: the array [excaprefs] of slot pointers, NULL where unset. *)
Definition excaprefs (extraCaps : list Z) (i : nat) : Z := nth i extraCaps 0.

(** ** Platform: what the embedded sources take from headers and collaborators

    None of these is defined under the embedded sources: configuration
    constants, the address translator, the generated capability accessors
    beyond the tagged cases, message access and the capability-space
    services the decoder calls. *)

Record platform : Type := {
  CONFIG_PT_LEVELS : Z;
  asidLowBits : Z;
  nASIDPools : Z;
  kernelBase : Z;
  kernel_pageTables : Z;                       (* [&kernel_pageTables[0][0]] *)
  CONFIG_DEBUG_BUILD : bool;                   (* [assert] is active *)
  ptrFromPAddr : Z -> Z;
  addrFromPPtr : Z -> Z;
  RISCV_4K_Page : Z;
  pageBitsForSize : Z -> Z;
  RISCVpageAtPTLevel : Z -> Z;
  seL4_ASIDPoolBits : Z;
  MAX_FREE_INDEX : Z -> Z;
  rightsFromWord : Z -> seL4_CapRights_t;
  vmRightsFromWord : Z -> vm_rights_t;
  riscvExecuteNever : Z -> bool;               (* of [vmAttributesFromWord w] *)
  msgInfo_one_register : Z;                    (* [wordFromMessageInfo (seL4_MessageInfo_new 0 0 0 1)] *)
  getSyscallArg : Z -> Z -> (register_t -> Z) -> (Z -> Z) -> Z;
                                               (* index, IPC buffer, the current thread's
                                                  registers, memory *)
  cap_get_raw : cap_t -> cap_field -> Z;
  cap_set_raw : cap_t -> cap_field -> Z -> cap_t;
  field_store : cap_field -> Z -> Z;           (* what the bitfield keeps of a value *)
  setThreadState : Z -> _thread_state -> kstate -> kstate;
  cteInsert : cap_t -> Z -> Z -> kstate -> kstate;
  ensureNoChildren : Z -> M exception_t;
  lookupTargetSlot : cap_t -> Z -> Z -> M (exception_t * Z);
  ensureEmptySlot : Z -> M exception_t;
  kernelStackBase : Z;
  kernelImageVPtr : Z -> Z -> Z
}.

(** Constants fixed by the 64-bit page-table format. *)
Definition seL4_PageBits : Z := 12.
Definition RISCV_4K_PageBits : Z := 12.
Definition seL4_PageTableBits : Z := 12.
Definition PT_INDEX_BITS : Z := 9.
Definition PTE_PPN_SHIFT : Z := 10.
Definition asidInvalid : Z := 0.

(** Pointer arithmetic on arrays of words ([pte_t], pool entries). *)
Definition ptr_index (base i : Z) : Z := word (base + 8 * i).

(** Modelled from the spec: the packed PTE word of §6 (the generated
    [pte_new] is not under the embedded sources): valid(1), read(1),
    write(1), execute(1), user(1), global(1), accessed(1), dirty(1),
    software(2), physical-page-number(remaining bits). *)
Definition pte_new (ppn sw dirty accessed global user execute write read valid : Z) : Z :=
  Z.lor (word (Z.shiftl ppn PTE_PPN_SHIFT))
  (Z.lor (Z.shiftl (Z.land sw 3) 8)
  (Z.lor (Z.shiftl (Z.land dirty 1) 7)
  (Z.lor (Z.shiftl (Z.land accessed 1) 6)
  (Z.lor (Z.shiftl (Z.land global 1) 5)
  (Z.lor (Z.shiftl (Z.land user 1) 4)
  (Z.lor (Z.shiftl (Z.land execute 1) 3)
  (Z.lor (Z.shiftl (Z.land write 1) 2)
  (Z.lor (Z.shiftl (Z.land read 1) 1)
         (Z.land valid 1))))))))).

Definition pte_pte_invalid_new : Z := 0.

Record findVSpaceForASID_ret_t : Type := {
  fv_status : exception_t;
  vspace_root : Z
}.

(** [lookupPTSlot_ret_t]; [None] is a member the function never assigned. *)
Record lookupPTSlot_ret_t : Type := {
  lu_status : exception_t;
  ptSlot : option Z;
  missingPTLevel : option Z
}.

Record pte_range_t : Type := {
  pr_base : Z;
  pr_length : Z
}.

Record create_mappings_pte_return_t : Type := {
  cm_status : exception_t;
  cm_pte : Z;
  pte_entries : pte_range_t
}.

Definition exception_eqb (a b : exception_t) : bool :=
  match a, b with
  | EXCEPTION_NONE, EXCEPTION_NONE | EXCEPTION_FAULT, EXCEPTION_FAULT
  | EXCEPTION_LOOKUP_FAULT, EXCEPTION_LOOKUP_FAULT
  | EXCEPTION_SYSCALL_ERROR, EXCEPTION_SYSCALL_ERROR
  | EXCEPTION_PREEMPTED, EXCEPTION_PREEMPTED => true
  | _, _ => false
  end.

(** Zeroing [n] bytes from [p] ([memzero], [clearMemory]). *)
Definition zero_range (p n : Z) (m : Z -> Z) : Z -> Z :=
  fun a => if word (a - p) <? n then 0 else m a.

Definition memzero (p n : Z) : M unit :=
  modify (fun s => with_mem (zero_range p n (ks_mem s)) s).

Definition clearMemory (p bits : Z) : M unit := memzero p (BIT bits).

(** [sfence.vma]: the translation cache is not part of the kernel state. *)
Definition sfence_vma : M unit := ret tt.

Definition set_slot_cap (slot : Z) (c : cap_t) : M unit :=
  modify (fun s => with_cte (fun x => if x =? slot then c else ks_cte s x) s).
Definition get_slot_cap (slot : Z) : M cap_t := gets (fun s => ks_cte s slot).

Section Model.

Variable P : platform.

(** ** Level arithmetic

    Modelled from the spec: the macros [RISCV_GET_PT_INDEX] and
    [RISCV_GET_LVL_PGSIZE_BITS] are not under the embedded sources; §4.1
    has the walker take fixed-width index chunks high-order bits first and
    size a level by its page granularity, which is the arithmetic
    [Arch_kiLookupPTSlot] (kernelimage.c, lines 29-36) spells out. *)

Definition RISCV_GET_LVL_PGSIZE_BITS (n : Z) : Z :=
  PT_INDEX_BITS * (CONFIG_PT_LEVELS P - n) + seL4_PageBits.

Definition RISCV_GET_LVL_PGSIZE (n : Z) : Z := BIT (RISCV_GET_LVL_PGSIZE_BITS n).

Definition RISCV_GET_PT_INDEX (addr n : Z) : Z :=
  Z.land (Z.shiftr addr (RISCV_GET_LVL_PGSIZE_BITS n)) (MASK PT_INDEX_BITS).

Definition assert (b : bool) : M unit :=
  if CONFIG_DEBUG_BUILD P && negb b then fail else ret tt.

(** ** Capability accessors *)

Definition cap_page_table_cap_get_capPTMappedASID (c : cap_t) : Z :=
  match c with
  | cap_page_table_cap a _ _ _ => a
  | _ => cap_get_raw P c F_capPTMappedASID
  end.

Definition cap_page_table_cap_get_capPTBasePtr (c : cap_t) : Z :=
  match c with
  | cap_page_table_cap _ b _ _ => b
  | _ => cap_get_raw P c F_capPTBasePtr
  end.

Definition cap_page_table_cap_get_capPTIsMapped (c : cap_t) : Z :=
  match c with
  | cap_page_table_cap _ _ m _ => m
  | _ => cap_get_raw P c F_capPTIsMapped
  end.

Definition cap_page_table_cap_get_capPTMappedAddress (c : cap_t) : Z :=
  match c with
  | cap_page_table_cap _ _ _ v => v
  | _ => cap_get_raw P c F_capPTMappedAddress
  end.

Definition cap_page_table_cap_set_capPTMappedASID (c : cap_t) (v : Z) : cap_t :=
  match c with
  | cap_page_table_cap _ b m a => cap_page_table_cap (field_store P F_capPTMappedASID v) b m a
  | _ => cap_set_raw P c F_capPTMappedASID v
  end.

Definition cap_page_table_cap_set_capPTIsMapped (c : cap_t) (v : Z) : cap_t :=
  match c with
  | cap_page_table_cap i b _ a => cap_page_table_cap i b (field_store P F_capPTIsMapped v) a
  | _ => cap_set_raw P c F_capPTIsMapped v
  end.

Definition cap_page_table_cap_set_capPTMappedAddress (c : cap_t) (v : Z) : cap_t :=
  match c with
  | cap_page_table_cap i b m _ => cap_page_table_cap i b m (field_store P F_capPTMappedAddress v)
  | _ => cap_set_raw P c F_capPTMappedAddress v
  end.

Definition cap_frame_cap_get_capFMappedASID (c : cap_t) : Z :=
  match c with
  | cap_frame_cap a _ _ _ _ => a
  | _ => cap_get_raw P c F_capFMappedASID
  end.

Definition cap_frame_cap_get_capFMappedAddress (c : cap_t) : Z :=
  match c with
  | cap_frame_cap _ _ _ _ v => v
  | _ => cap_get_raw P c F_capFMappedAddress
  end.

Definition cap_frame_cap_set_capFMappedASID (c : cap_t) (v : Z) : cap_t :=
  match c with
  | cap_frame_cap _ b sz r a => cap_frame_cap (field_store P F_capFMappedASID v) b sz r a
  | _ => cap_set_raw P c F_capFMappedASID v
  end.

Definition cap_frame_cap_set_capFMappedAddress (c : cap_t) (v : Z) : cap_t :=
  match c with
  | cap_frame_cap i b sz r _ => cap_frame_cap i b sz r (field_store P F_capFMappedAddress v)
  | _ => cap_set_raw P c F_capFMappedAddress v
  end.

Definition cap_frame_cap_get_capFBasePtr (c : cap_t) : Z :=
  match c with
  | cap_frame_cap _ b _ _ _ => b
  | _ => cap_get_raw P c F_capFBasePtr
  end.

Definition cap_frame_cap_get_capFSize (c : cap_t) : Z :=
  match c with
  | cap_frame_cap _ _ sz _ _ => sz
  | _ => cap_get_raw P c F_capFSize
  end.

Definition cap_frame_cap_get_capFVMRights (c : cap_t) : vm_rights_t :=
  match c with
  | cap_frame_cap _ _ _ r _ => r
  | _ => vmRightsFromWord P (cap_get_raw P c F_capFVMRights)
  end.

Definition cap_untyped_cap_get_capIsDevice (c : cap_t) : Z :=
  match c with
  | cap_untyped_cap _ d _ _ => d
  | _ => cap_get_raw P c F_capIsDevice
  end.

Definition cap_untyped_cap_get_capPtr (c : cap_t) : Z :=
  match c with
  | cap_untyped_cap _ _ _ p => p
  | _ => cap_get_raw P c F_capPtr
  end.

Definition cap_asid_pool_cap_get_capASIDBase (c : cap_t) : Z :=
  match c with
  | cap_asid_pool_cap b _ => b
  | _ => cap_get_raw P c F_capASIDBase
  end.

Definition cap_asid_pool_cap_get_capASIDPool (c : cap_t) : Z :=
  match c with
  | cap_asid_pool_cap _ p => p
  | _ => cap_get_raw P c F_capASIDPool
  end.

Definition cap_untyped_cap_get_capBlockSize (c : cap_t) : Z :=
  match c with
  | cap_untyped_cap _ _ bs _ => bs
  | _ => cap_get_raw P c F_capBlockSize
  end.

Definition cap_untyped_cap_set_capFreeIndex (c : cap_t) (v : Z) : cap_t :=
  match c with
  | cap_untyped_cap _ d bs p => cap_untyped_cap (field_store P F_capFreeIndex v) d bs p
  | _ => cap_set_raw P c F_capFreeIndex v
  end.

(** ** VSpace registry: [findVSpaceForASID] (vspace.c, lines 286-314) *)

Definition findVSpaceForASID (asid : Z) : M findVSpaceForASID_ret_t :=
  poolPtr <- gets (fun s => riscvKSASIDTable s (Z.shiftr asid (asidLowBits P))) ;;
  if poolPtr =? 0 then
    set_current_lookup_fault lookup_fault_invalid_root_new ;;;
    ret {| fv_status := EXCEPTION_LOOKUP_FAULT; vspace_root := 0 |}
  else
    root <- load (ptr_index poolPtr (Z.land asid (MASK (asidLowBits P)))) ;;
    if root =? 0 then
      set_current_lookup_fault
        (lookup_fault_missing_capability_new (RISCV_GET_LVL_PGSIZE_BITS 1)) ;;;
      ret {| fv_status := EXCEPTION_LOOKUP_FAULT; vspace_root := 0 |}
    else
      ret {| fv_status := EXCEPTION_NONE; vspace_root := root |}.

(** [isVTableRoot] (lines 316-330): the registry is consulted with the raw
    mapped-ASID bits before the capability type is looked at. *)
Definition isVTableRoot (cap : cap_t) : M bool :=
  r <- findVSpaceForASID (cap_page_table_cap_get_capPTMappedASID cap) ;;
  ret (cap_tag_eqb (cap_get_capType cap) tag_page_table
       && exception_eqb (fv_status r) EXCEPTION_NONE
       && (cap_page_table_cap_get_capPTBasePtr cap =? vspace_root r)).

(** [isValidNativeRoot] (lines 333-337). *)
Definition isValidNativeRoot (cap : cap_t) : M bool :=
  b <- isVTableRoot cap ;;
  ret (b && negb (cap_page_table_cap_get_capPTIsMapped cap =? 0)).

(** ** Page-table walker *)

(** [isValidHWPageTable] (lines 382-386), on the entry's word. *)
Definition isValidHWPageTable (w : Z) : bool := Z.land w 15 =? 1.

(** [getPPtrFromHWPTE] (lines 388-393). *)
Definition getPPtrFromHWPTE (pte : Z) : M Z :=
  w <- load pte ;;
  assert (isValidHWPageTable w) ;;;
  ret (ptrFromPAddr P (word (Z.shiftl (Z.shiftr w PTE_PPN_SHIFT) seL4_PageTableBits))).

(** The [for (i = 2; i <= ptLevel; i++)] loop of [lookupPTSlot]; [n] counts
    the iterations that remain. *)
Fixpoint lookupPTSlot_loop (n : nat) (i : Z) (vptr : Z) (slot : Z) : M lookupPTSlot_ret_t :=
  match n with
  | O => ret {| lu_status := EXCEPTION_NONE; ptSlot := Some slot; missingPTLevel := None |}
  | S n' =>
      w <- load slot ;;
      if w =? 0 then
        set_current_lookup_fault
          (lookup_fault_missing_capability_new (RISCV_GET_LVL_PGSIZE_BITS (i - 1))) ;;;
        ret {| lu_status := EXCEPTION_LOOKUP_FAULT; ptSlot := Some slot;
               missingPTLevel := Some i |}
      else
        pt <- getPPtrFromHWPTE slot ;;
        lookupPTSlot_loop n' (i + 1) vptr (ptr_index pt (RISCV_GET_PT_INDEX vptr i))
  end.

(** [lookupPTSlot] (lines 433-464). *)
Definition lookupPTSlot (lvl1pt vptr ptLevel : Z) : M lookupPTSlot_ret_t :=
  assert (ptLevel <=? CONFIG_PT_LEVELS P) ;;;
  if lvl1pt =? 0 then
    ret {| lu_status := EXCEPTION_LOOKUP_FAULT; ptSlot := None; missingPTLevel := None |}
  else
    lookupPTSlot_loop (Z.to_nat (ptLevel - 1)) 2 vptr
                      (ptr_index lvl1pt (RISCV_GET_PT_INDEX vptr 1)).

(** The [for (i = 2; i <= CONFIG_PT_LEVELS; i++)] loop of
    [lookupPageTableLevelSlot]. *)
Fixpoint lookupPageTableLevelSlot_loop (n : nat) (i : Z) (vptr target_pt slot : Z)
  : M lookupPTSlot_ret_t :=
  match n with
  | O => ret {| lu_status := EXCEPTION_LOOKUP_FAULT; ptSlot := Some slot;
                missingPTLevel := None |}
  | S n' =>
      w <- load slot ;;
      if negb (isValidHWPageTable w) then
        ret {| lu_status := EXCEPTION_LOOKUP_FAULT; ptSlot := Some slot;
               missingPTLevel := None |}
      else
        pt <- getPPtrFromHWPTE slot ;;
        if pt =? target_pt then
          ret {| lu_status := EXCEPTION_NONE;
                 ptSlot := Some (ptr_index pt (RISCV_GET_PT_INDEX vptr (i - 1)));
                 missingPTLevel := None |}
        else
          lookupPageTableLevelSlot_loop n' (i + 1) vptr target_pt
            (ptr_index pt (RISCV_GET_PT_INDEX vptr i))
  end.

(** [lookupPageTableLevelSlot] (lines 395-431). *)
Definition lookupPageTableLevelSlot (asid vptr target_pt : Z) : M lookupPTSlot_ret_t :=
  find_ret <- findVSpaceForASID asid ;;
  if negb (exception_eqb (fv_status find_ret) EXCEPTION_NONE) then
    ret {| lu_status := EXCEPTION_LOOKUP_FAULT; ptSlot := None; missingPTLevel := None |}
  else
    lookupPageTableLevelSlot_loop (Z.to_nat (CONFIG_PT_LEVELS P - 1)) 2 vptr target_pt
      (ptr_index (vspace_root find_ret) (RISCV_GET_PT_INDEX vptr 1)).

(** ** VM fault translator: [handleVMFault] (lines 466-491) *)

Definition set_current_fault (f : seL4_Fault_t) : M unit := modify (with_fault f).

Definition handleVMFault (thread : Z) (vm_faultType : vm_fault_type_t) : M exception_t :=
  addr <- gets csr_sbadaddr ;;
  match vm_faultType with
  | RISCVLoadPageFault | RISCVLoadAccessFault =>
      set_current_fault (seL4_Fault_VMFault_new addr RISCVLoadAccessFault false) ;;;
      ret EXCEPTION_FAULT
  | RISCVStorePageFault | RISCVStoreAccessFault =>
      set_current_fault (seL4_Fault_VMFault_new addr RISCVStoreAccessFault false) ;;;
      ret EXCEPTION_FAULT
  | RISCVInstructionPageFault | RISCVInstructionAccessFault =>
      pc <- getRegister thread SEPC ;;
      setRegister thread NEXTPC pc ;;;
      set_current_fault (seL4_Fault_VMFault_new addr RISCVInstructionAccessFault true) ;;;
      ret EXCEPTION_FAULT
  | _ => fail
  end.

(** ** Executor *)

(** [copyGlobalMappings] (lines 339-348): [n] iterations starting at [i]. *)
Fixpoint copyGlobalMappings_loop (n : nat) (i : Z) (newLvl1pt : Z) : M unit :=
  match n with
  | O => ret tt
  | S n' =>
      w <- load (ptr_index (kernel_pageTables P) i) ;;
      store (ptr_index newLvl1pt i) w ;;;
      copyGlobalMappings_loop n' (i + 1) newLvl1pt
  end.

Definition copyGlobalMappings (newLvl1pt : Z) : M unit :=
  let first := RISCV_GET_PT_INDEX (kernelBase P) 1 in
  copyGlobalMappings_loop (Z.to_nat (BIT PT_INDEX_BITS - first)) first newLvl1pt.

(** [performASIDControlInvocation] (lines 504-523). *)
Definition performASIDControlInvocation (frame slot parent asid_base : Z) : M exception_t :=
  pc <- get_slot_cap parent ;;
  set_slot_cap parent
    (cap_untyped_cap_set_capFreeIndex pc
       (MAX_FREE_INDEX P (cap_untyped_cap_get_capBlockSize pc))) ;;;
  memzero frame (word (Z.shiftl 1 (pageBitsForSize P (RISCV_4K_Page P)))) ;;;
  modify (cteInsert P (cap_asid_pool_cap asid_base frame) parent slot) ;;;
  assert (Z.land asid_base (MASK (asidLowBits P)) =? 0) ;;;
  modify (fun s => with_asid_table
            (upd (riscvKSASIDTable s) (Z.shiftr asid_base (asidLowBits P)) frame) s) ;;;
  ret EXCEPTION_NONE.

(** [performASIDPoolInvocation] (lines 525-538). *)
Definition performASIDPoolInvocation (asid poolPtr vspaceCapSlot : Z) : M exception_t :=
  cap0 <- get_slot_cap vspaceCapSlot ;;
  let regionBase := cap_page_table_cap_get_capPTBasePtr cap0 in
  let cap := cap_page_table_cap_set_capPTMappedASID cap0 asid in
  let cap := cap_page_table_cap_set_capPTIsMapped cap 1 in
  set_slot_cap vspaceCapSlot cap ;;;
  copyGlobalMappings regionBase ;;;
  store (ptr_index poolPtr (Z.land asid (MASK (asidLowBits P)))) regionBase ;;;
  ret EXCEPTION_NONE.

(** [unmapPageTable] (lines 558-578).  The store is guarded by
    [pt_ret.status != EXCEPTION_NONE]. *)
Definition unmapPageTable (asid vaddr pt : Z) : M unit :=
  pt_ret <- lookupPageTableLevelSlot asid vaddr pt ;;
  if negb (exception_eqb (lu_status pt_ret) EXCEPTION_NONE) then
    match ptSlot pt_ret with
    | Some p => store p (pte_new 0 0 0 0 0 0 0 0 0 0) ;;; sfence_vma
    | None => undefined
    end
  else ret tt.

(** [unmapPage] (lines 587-607). *)
Definition unmapPage (page_size asid vptr pptr : Z) : M unit :=
  find_ret <- findVSpaceForASID asid ;;
  if negb (exception_eqb (fv_status find_ret) EXCEPTION_NONE) then ret tt
  else
    lu_ret <- lookupPTSlot (vspace_root find_ret) vptr (RISCVpageAtPTLevel P page_size) ;;
    if negb (exception_eqb (lu_status lu_ret) EXCEPTION_NONE) then ret tt
    else
      match ptSlot lu_ret with
      | Some p => store p pte_pte_invalid_new ;;; sfence_vma
      | None => undefined
      end.

(** [makeUserPTE] (lines 698-713). *)
Definition makeUserPTE (paddr : Z) (executable : bool) (vm_rights : vm_rights_t) : Z :=
  pte_new (Z.shiftr paddr RISCV_4K_PageBits) 0 1 1 0
          (b2w (RISCVGetUserFromVMRights vm_rights))
          (b2w executable)
          (b2w (RISCVGetWriteFromVMRights vm_rights))
          (b2w (RISCVGetReadFromVMRights vm_rights))
          1.

(** [checkVPAlignment] (lines 715-719). *)
Definition checkVPAlignment (sz w : Z) : bool :=
  Z.land w (MASK (pageBitsForSize P sz)) =? 0.

(** [performPageTableInvocationMap] (lines 1303-1311). *)
Definition performPageTableInvocationMap (cap : cap_t) (ctSlot pte ptSlot : Z)
  : M exception_t :=
  set_slot_cap ctSlot cap ;;;
  store ptSlot pte ;;;
  ret EXCEPTION_NONE.

(** [performPageTableInvocationUnmap] (lines 1313-1328). *)
Definition performPageTableInvocationUnmap (cap : cap_t) (ctSlot : Z) : M exception_t :=
  (if negb (cap_page_table_cap_get_capPTIsMapped cap =? 0) then
     let pt := cap_page_table_cap_get_capPTBasePtr cap in
     unmapPageTable (cap_page_table_cap_get_capPTMappedASID cap)
                    (cap_page_table_cap_get_capPTMappedAddress cap) pt ;;;
     clearMemory pt RISCV_4K_PageBits
   else ret tt) ;;;
  c <- get_slot_cap ctSlot ;;
  set_slot_cap ctSlot (cap_page_table_cap_set_capPTIsMapped c 0) ;;;
  ret EXCEPTION_NONE.

(** [performPageGetAddress] (lines 1330-1344). *)
Definition performPageGetAddress (vbase_ptr : Z) : M exception_t :=
  let capFBasePtr := addrFromPPtr P vbase_ptr in
  cur <- gets ksCurThread ;;
  setRegister cur (msgRegister 0) capFBasePtr ;;;
  setRegister cur msgInfoRegister (msgInfo_one_register P) ;;;
  ret EXCEPTION_NONE.

(** [updatePTE] (lines 1346-1356). *)
Fixpoint updatePTE_loop (n : nat) (i : Z) (pte base : Z) : M unit :=
  match n with
  | O => ret tt
  | S n' => store (ptr_index base i) pte ;;; updatePTE_loop n' (i + 1) pte base
  end.

Definition updatePTE (pte : Z) (entries : pte_range_t) : M exception_t :=
  updatePTE_loop (Z.to_nat (pr_length entries)) 0 pte (pr_base entries) ;;;
  sfence_vma ;;;
  ret EXCEPTION_NONE.

(** [performPageInvocationMapPTE] (lines 1358-1363). *)
Definition performPageInvocationMapPTE (cap : cap_t) (ctSlot pte : Z) (entries : pte_range_t)
  : M exception_t :=
  set_slot_cap ctSlot cap ;;;
  updatePTE pte entries.

(** [performPageInvocationRemapPTE] (lines 1365-1369). *)
Definition performPageInvocationRemapPTE (pte : Z) (entries : pte_range_t) : M exception_t :=
  updatePTE pte entries.

(** [performPageInvocationUnmap] (lines 1371-1385). *)
Definition performPageInvocationUnmap (cap : cap_t) (ctSlot : Z) : M exception_t :=
  (if negb (cap_frame_cap_get_capFMappedASID cap =? asidInvalid) then
     unmapPage (cap_frame_cap_get_capFSize cap)
               (cap_frame_cap_get_capFMappedASID cap)
               (cap_frame_cap_get_capFMappedAddress cap)
               (cap_frame_cap_get_capFBasePtr cap)
   else ret tt) ;;;
  c <- get_slot_cap ctSlot ;;
  set_slot_cap ctSlot (cap_frame_cap_set_capFMappedAddress c 0) ;;;
  c <- get_slot_cap ctSlot ;;
  set_slot_cap ctSlot (cap_frame_cap_set_capFMappedASID c asidInvalid) ;;;
  ret EXCEPTION_NONE.

(** ** Decoder *)

(** The recurring tail [current_syscall_error.<members> = ...; return
    EXCEPTION_SYSCALL_ERROR;] with the member assignments as [f]. *)
Definition syscall_error (f : syscall_error_t -> syscall_error_t) : M exception_t :=
  set_syscall_error f ;;; ret EXCEPTION_SYSCALL_ERROR.

(** [type = seL4_InvalidCapability; invalidCapNumber = n]. *)
Definition invalid_cap_error (n : Z) : M exception_t :=
  syscall_error (fun e => set_invalidCapNumber n (set_se_type seL4_InvalidCapability e)).

(** [type = seL4_FailedLookup; failedLookupWasSource = false]. *)
Definition failed_lookup_error : M exception_t :=
  syscall_error (fun e => set_failedLookupWasSource false (set_se_type seL4_FailedLookup e)).

(** [getSyscallArg(i, buffer)] in the state [s]. *)
Definition syscallArg (i buffer : Z) (s : kstate) : Z :=
  getSyscallArg P i buffer (ks_regs s (ksCurThread s)) (ks_mem s).

(** [setThreadState(NODE_STATE(ksCurThread), ThreadState_Restart)]. *)
Definition restart_current_thread : M unit :=
  cur <- gets ksCurThread ;;
  modify (setThreadState P cur ThreadState_Restart).

(** [decodeRISCVPageTableInvocation] (lines 721-851). *)
Definition decodeRISCVPageTableInvocation (label : invocation_label) (length : Z)
    (cte : Z) (cap : cap_t) (extraCaps : list Z) (buffer : Z) : M exception_t :=
  isRoot <- isVTableRoot cap ;;
  if isRoot then syscall_error (set_se_type seL4_IllegalOperation)
  else if label_eqb label RISCVPageTableUnmap then
    restart_current_thread ;;;
    performPageTableInvocationUnmap cap cte
  else if negb (label_eqb label RISCVPageTableMap) then
    syscall_error (set_se_type seL4_IllegalOperation)
  else if (length <? 2) || (excaprefs extraCaps 0 =? 0) then
    syscall_error (set_se_type seL4_TruncatedMessage)
  else
    vaddr <- gets (syscallArg 0 buffer) ;;
    lvl1ptCap <- get_slot_cap (excaprefs extraCaps 0) ;;
    validRoot <- isValidNativeRoot lvl1ptCap ;;
    if negb validRoot then invalid_cap_error 1
    else if negb (cap_tag_eqb (cap_get_capType lvl1ptCap) tag_page_table) then
      invalid_cap_error 1
    else
      isRoot1 <- isVTableRoot lvl1ptCap ;;
      if negb isRoot1 then invalid_cap_error 1
      else
        let lvl1pt := cap_page_table_cap_get_capPTBasePtr lvl1ptCap in
        let asid := cap_page_table_cap_get_capPTMappedASID lvl1ptCap in
        if kernelBase P <=? vaddr then
          syscall_error (fun e => set_invalidArgumentNumber 0 (set_se_type seL4_InvalidArgument e))
        else
          find_ret <- findVSpaceForASID asid ;;
          if negb (exception_eqb (fv_status find_ret) EXCEPTION_NONE) then failed_lookup_error
          else if negb (vspace_root find_ret =? lvl1pt) then invalid_cap_error 1
          else
            lu_ret <- lookupPTSlot lvl1pt vaddr (CONFIG_PT_LEVELS P) ;;
            match ptSlot lu_ret with
            | None => undefined
            | Some ptSlot =>
                w <- load ptSlot ;;
                if negb (w =? 0) then syscall_error (set_se_type seL4_DeleteFirst)
                else
                  let paddr := addrFromPPtr P (cap_page_table_cap_get_capPTBasePtr cap) in
                  let pte := pte_new (Z.shiftr paddr RISCV_4K_PageBits) 0 1 1 0 0 0 0 0 1 in
                  let cap := cap_page_table_cap_set_capPTIsMapped cap 1 in
                  let cap := cap_page_table_cap_set_capPTMappedASID cap asid in
                  let cap := cap_page_table_cap_set_capPTMappedAddress cap vaddr in
                  restart_current_thread ;;;
                  performPageTableInvocationMap cap cte pte ptSlot
            end.

(** [createSafeMappingEntries_PTE] (lines 862-892). *)
Definition createSafeMappingEntries_PTE (base vaddr frameSize : Z) (vmRights : vm_rights_t)
    (attr : Z) (lvl1pt : Z) : M create_mappings_pte_return_t :=
  let executable := if riscvExecuteNever P attr then false else true in
  let pte := makeUserPTE base executable vmRights in
  lu_ret <- lookupPTSlot lvl1pt vaddr (RISCVpageAtPTLevel P frameSize) ;;
  if negb (exception_eqb (lu_status lu_ret) EXCEPTION_NONE) then
    set_syscall_error (fun e => set_failedLookupWasSource false (set_se_type seL4_FailedLookup e)) ;;;
    ret {| cm_status := EXCEPTION_SYSCALL_ERROR; cm_pte := pte;
           pte_entries := {| pr_base := 0; pr_length := 1 |} |}
  else
    match ptSlot lu_ret with
    | None => undefined
    | Some p =>
        ret {| cm_status := EXCEPTION_NONE; cm_pte := pte;
               pte_entries := {| pr_base := p; pr_length := 1 |} |}
    end.

(** The C test [unlikely(e) != asidInvalid]: [unlikely] is
    [__builtin_expect(!!(e), 0)], so the comparison is on the truth value. *)
Definition unlikely (e : Z) : Z := b2w (negb (e =? 0)).

(** [decodeRISCVFrameInvocation] (lines 894-1143).  The [assert] of the
    [RISCVPageGetAddress] case is on the constant [n_msgRegisters] and is
    left out. *)
Definition decodeRISCVFrameInvocation (label : invocation_label) (length : Z)
    (cte : Z) (cap : cap_t) (extraCaps : list Z) (buffer : Z) : M exception_t :=
  match label with
  | RISCVPageMap =>
      if (length <? 3) || (excaprefs extraCaps 0 =? 0) then
        syscall_error (set_se_type seL4_TruncatedMessage)
      else
        vaddr <- gets (syscallArg 0 buffer) ;;
        w_rightsMask <- gets (syscallArg 1 buffer) ;;
        attr <- gets (syscallArg 2 buffer) ;;
        lvl1ptCap <- get_slot_cap (excaprefs extraCaps 0) ;;
        let frameSize := cap_frame_cap_get_capFSize cap in
        let capVMRights := cap_frame_cap_get_capFVMRights cap in
        if negb (unlikely (cap_frame_cap_get_capFMappedASID cap) =? asidInvalid)
           && negb (cap_frame_cap_get_capFMappedAddress cap =? vaddr) then
          invalid_cap_error 0
        else if negb (cap_tag_eqb (cap_get_capType lvl1ptCap) tag_page_table) then
          invalid_cap_error 1
        else
          isRoot <- isVTableRoot lvl1ptCap ;;
          if negb isRoot then invalid_cap_error 1
          else
            let lvl1pt := cap_page_table_cap_get_capPTBasePtr lvl1ptCap in
            lu_ret <- lookupPTSlot lvl1pt vaddr (RISCVpageAtPTLevel P frameSize) ;;
            if negb (exception_eqb (lu_status lu_ret) EXCEPTION_NONE) then failed_lookup_error
            else
              let asid := cap_page_table_cap_get_capPTMappedASID lvl1ptCap in
              find_ret <- findVSpaceForASID asid ;;
              if negb (exception_eqb (fv_status find_ret) EXCEPTION_NONE) then
                failed_lookup_error
              else if negb (vspace_root find_ret =? lvl1pt) then invalid_cap_error 1
              else
                let vtop := word (vaddr + BIT (pageBitsForSize P frameSize) - 1) in
                if kernelBase P <=? vtop then
                  syscall_error
                    (fun e => set_invalidArgumentNumber 0 (set_se_type seL4_InvalidArgument e))
                else
                  let vmRights := maskVMRights capVMRights (rightsFromWord P w_rightsMask) in
                  if negb (checkVPAlignment frameSize vaddr) then
                    syscall_error (set_se_type seL4_AlignmentError)
                  else
                    let frame_paddr := addrFromPPtr P (cap_frame_cap_get_capFBasePtr cap) in
                    let cap := cap_frame_cap_set_capFMappedASID cap asid in
                    let cap := cap_frame_cap_set_capFMappedAddress cap vaddr in
                    map_ret <- createSafeMappingEntries_PTE frame_paddr vaddr frameSize
                                 vmRights attr lvl1pt ;;
                    if negb (exception_eqb (cm_status map_ret) EXCEPTION_NONE) then
                      ret (cm_status map_ret)
                    else
                      restart_current_thread ;;;
                      performPageInvocationMapPTE cap cte (cm_pte map_ret)
                                                  (pte_entries map_ret)
  | RISCVPageRemap =>
      if (length <? 2) || (excaprefs extraCaps 0 =? 0) then
        syscall_error (set_se_type seL4_TruncatedMessage)
      else
        w_rightsMask <- gets (syscallArg 0 buffer) ;;
        attr <- gets (syscallArg 1 buffer) ;;
        lvl1ptCap <- get_slot_cap (excaprefs extraCaps 0) ;;
        let frameSize := cap_frame_cap_get_capFSize cap in
        let capVMRights := cap_frame_cap_get_capFVMRights cap in
        if negb (cap_tag_eqb (cap_get_capType lvl1ptCap) tag_page_table) then
          invalid_cap_error 1
        else
          isRoot <- isVTableRoot lvl1ptCap ;;
          if negb isRoot then invalid_cap_error 1
          else if unlikely (cap_frame_cap_get_capFMappedASID cap) =? asidInvalid then
            invalid_cap_error 0
          else
            let vaddr := cap_frame_cap_get_capFMappedAddress cap in
            let asid := cap_page_table_cap_get_capPTMappedASID lvl1ptCap in
            let lvl1pt := cap_page_table_cap_get_capPTBasePtr lvl1ptCap in
            find_ret <- findVSpaceForASID asid ;;
            if negb (exception_eqb (fv_status find_ret) EXCEPTION_NONE) then
              failed_lookup_error
            else if negb (vspace_root find_ret =? lvl1pt) then invalid_cap_error 1
            else
              lu_ret <- lookupPTSlot lvl1pt vaddr (RISCVpageAtPTLevel P frameSize) ;;
              if negb (exception_eqb (lu_status lu_ret) EXCEPTION_NONE) then
                failed_lookup_error
              else
                let vmRights := maskVMRights capVMRights (rightsFromWord P w_rightsMask) in
                let frame_paddr := addrFromPPtr P (cap_frame_cap_get_capFBasePtr cap) in
                map_ret <- createSafeMappingEntries_PTE frame_paddr vaddr frameSize
                             vmRights attr lvl1pt ;;
                if negb (exception_eqb (cm_status map_ret) EXCEPTION_NONE) then
                  ret (cm_status map_ret)
                else
                  restart_current_thread ;;;
                  performPageInvocationRemapPTE (cm_pte map_ret) (pte_entries map_ret)
  | RISCVPageUnmap =>
      restart_current_thread ;;;
      performPageInvocationUnmap cap cte
  | RISCVPageGetAddress =>
      restart_current_thread ;;;
      performPageGetAddress (cap_frame_cap_get_capFBasePtr cap)
  | _ => syscall_error (set_se_type seL4_IllegalOperation)
  end.

(** The scan [for (i = 0; i < nASIDPools && riscvKSASIDTable[i]; i++);]
    (line 1198); [n] bounds the iterations that remain. *)
Fixpoint findFreePool_loop (n : nat) (i : Z) (table : Z -> Z) : Z :=
  match n with
  | O => i
  | S n' =>
      if (i <? nASIDPools P) && negb (table i =? 0)
      then findFreePool_loop n' (i + 1) table
      else i
  end.

Definition findFreePool (table : Z -> Z) : Z :=
  findFreePool_loop (Z.to_nat (nASIDPools P)) 0 table.

(** The scan [for (i = 0; i < BIT(asidLowBits) && (asid + i == 0 ||
    pool->array[i]); i++);] (line 1285). *)
Fixpoint findFreeASID_loop (n : nat) (i : Z) (asid pool : Z) (m : Z -> Z) : Z :=
  match n with
  | O => i
  | S n' =>
      if (i <? BIT (asidLowBits P))
         && ((word (asid + i) =? 0) || negb (m (ptr_index pool i) =? 0))
      then findFreeASID_loop n' (i + 1) asid pool m
      else i
  end.

Definition findFreeASID (asid pool : Z) (m : Z -> Z) : Z :=
  findFreeASID_loop (Z.to_nat (BIT (asidLowBits P))) 0 asid pool m.

(** [decodeRISCVMMUInvocation] (lines 1153-1301). *)
Definition decodeRISCVMMUInvocation (label : invocation_label) (length : Z) (cptr : Z)
    (cte : Z) (cap : cap_t) (extraCaps : list Z) (buffer : Z) : M exception_t :=
  match cap_get_capType cap with
  | tag_page_table =>
      decodeRISCVPageTableInvocation label length cte cap extraCaps buffer
  | tag_frame =>
      decodeRISCVFrameInvocation label length cte cap extraCaps buffer
  | tag_asid_control =>
      if negb (label_eqb label RISCVASIDControlMakePool) then
        syscall_error (set_se_type seL4_IllegalOperation)
      else if (length <? 2) || (excaprefs extraCaps 0 =? 0) || (excaprefs extraCaps 1 =? 0) then
        syscall_error (set_se_type seL4_TruncatedMessage)
      else
        index <- gets (syscallArg 0 buffer) ;;
        depth <- gets (syscallArg 1 buffer) ;;
        let parentSlot := excaprefs extraCaps 0 in
        untyped <- get_slot_cap parentSlot ;;
        root <- get_slot_cap (excaprefs extraCaps 1) ;;
        i <- gets (fun s => findFreePool (riscvKSASIDTable s)) ;;
        if i =? nASIDPools P then syscall_error (set_se_type seL4_DeleteFirst)
        else
          let asid_base := word (Z.shiftl i (asidLowBits P)) in
          if negb (cap_tag_eqb (cap_get_capType untyped) tag_untyped)
             || negb (cap_untyped_cap_get_capBlockSize untyped =? seL4_ASIDPoolBits P)
             || negb (cap_untyped_cap_get_capIsDevice untyped =? 0) then
            invalid_cap_error 1
          else
            status <- ensureNoChildren P parentSlot ;;
            if negb (exception_eqb status EXCEPTION_NONE) then ret status
            else
              let frame := cap_untyped_cap_get_capPtr untyped in
              lu_ret <- lookupTargetSlot P root index depth ;;
              if negb (exception_eqb (fst lu_ret) EXCEPTION_NONE) then ret (fst lu_ret)
              else
                let destSlot := snd lu_ret in
                status <- ensureEmptySlot P destSlot ;;
                if negb (exception_eqb status EXCEPTION_NONE) then ret status
                else
                  restart_current_thread ;;;
                  performASIDControlInvocation frame destSlot parentSlot asid_base
  | tag_asid_pool =>
      if negb (label_eqb label RISCVASIDPoolAssign) then
        syscall_error (set_se_type seL4_IllegalOperation)
      else if excaprefs extraCaps 0 =? 0 then
        syscall_error (set_se_type seL4_TruncatedMessage)
      else
        let vspaceCapSlot := excaprefs extraCaps 0 in
        vspaceCap <- get_slot_cap vspaceCapSlot ;;
        if negb (cap_page_table_cap_get_capPTMappedASID vspaceCap =? asidInvalid) then
          invalid_cap_error 1
        else
          pool <- gets (fun s => riscvKSASIDTable s
                     (Z.shiftr (cap_asid_pool_cap_get_capASIDBase cap) (asidLowBits P))) ;;
          if pool =? 0 then
            set_syscall_error
              (fun e => set_failedLookupWasSource false (set_se_type seL4_FailedLookup e)) ;;;
            set_current_lookup_fault lookup_fault_invalid_root_new ;;;
            ret EXCEPTION_SYSCALL_ERROR
          else if negb (pool =? cap_asid_pool_cap_get_capASIDPool cap) then
            invalid_cap_error 0
          else
            let asid := cap_asid_pool_cap_get_capASIDBase cap in
            i <- gets (fun s => findFreeASID asid pool (ks_mem s)) ;;
            if i =? BIT (asidLowBits P) then syscall_error (set_se_type seL4_DeleteFirst)
            else
              let asid := word (asid + i) in
              restart_current_thread ;;;
              performASIDPoolInvocation asid pool vspaceCapSlot
  | _ => fail
  end.

End Model.

(** ** Kernel image manager: [Arch_setKernelImage] (kernelimage.c, lines 146-220)

    The routine is a fixed sequence of hardware-visible steps; the machine
    state carries a chronological trace of them.  Console output is not
    modelled. *)

Record kernel_image_t : Type := {
  kiRoot : Z;
  kiASID : Z;
  kiStackInitted : bool
}.

Inductive hw_event : Type :=
| EvCopyWord (src dst : Z)          (* [ld t1, (stack_p)] then [sd t1, (image_p)] *)
| EvFence                           (* [fence] *)
| EvSetVSpaceRoot (root asid : Z)   (* [setVSpaceRoot]: write of the translation-root register *)
| EvSetStackInitted.                (* [image->kiStackInitted = true] *)

Record ki_machine : Type := {
  km_mem : Z -> Z;                  (* memory through the root active before the switch *)
  km_sp : Z;                        (* the stack pointer register *)
  km_satp : option (Z * Z);         (* last root and ASID written to the root register *)
  km_image : kernel_image_t;        (* [*image] *)
  km_trace : list hw_event
}.

Definition isSetVSpaceRoot (e : hw_event) : bool :=
  match e with EvSetVSpaceRoot _ _ => true | _ => false end.
Definition isSetStackInitted (e : hw_event) : bool :=
  match e with EvSetStackInitted => true | _ => false end.

(** Some event satisfying [p] occurs strictly before some event satisfying [q]. *)
Fixpoint event_before (p q : hw_event -> bool) (tr : list hw_event) : bool :=
  match tr with
  | [] => false
  | e :: tr' => (p e && existsb q tr') || event_before p q tr'
  end.

Section KernelImage.

Variable P : platform.

(** The inline assembly loop (lines 184-204):
    [1: beq stack_p, sp, 1f; stack_p -= 8; image_p -= 8; *image_p = *stack_p; j 1b].
    It leaves the loop only when [stack_p] meets [sp]; [fuel] bounds the
    iterations and [None] is a run that has not left the loop. *)
Fixpoint copy_stack (fuel : nat) (stack_p image_p sp : Z) (m : Z -> Z) (tr : list hw_event)
  : option ((Z -> Z) * list hw_event) :=
  match fuel with
  | O => if stack_p =? sp then Some (m, tr) else None
  | S fuel' =>
      if stack_p =? sp then Some (m, tr)
      else
        let stack_p := word (stack_p - 8) in
        let image_p := word (image_p - 8) in
        copy_stack fuel' stack_p image_p sp (upd m image_p (m stack_p))
                   (tr ++ [EvCopyWord stack_p image_p])
  end.

Definition setVSpaceRoot (root asid : Z) (st : ki_machine) : ki_machine :=
  {| km_mem := km_mem st; km_sp := km_sp st; km_satp := Some (root, asid);
     km_image := km_image st;
     km_trace := km_trace st ++ [EvSetVSpaceRoot root asid] |}.

Definition Arch_setKernelImage (fuel : nat) (st : ki_machine) : option ki_machine :=
  let image := km_image st in
  let stack_p := kernelStackBase P in
  let image_p := word (kernelImageVPtr P (kiRoot image) (word (stack_p - 1)) + 1) in
  if kiStackInitted image then
    Some (setVSpaceRoot (addrFromPPtr P (kiRoot image)) (kiASID image) st)
  else
    match copy_stack fuel stack_p image_p (km_sp st) (km_mem st) (km_trace st) with
    | None => None
    | Some (m, tr) =>
        let st1 := {| km_mem := m; km_sp := km_sp st; km_satp := km_satp st;
                      km_image := image; km_trace := tr ++ [EvFence] |} in
        let st2 := setVSpaceRoot (addrFromPPtr P (kiRoot image)) (kiASID image) st1 in
        Some {| km_mem := km_mem st2; km_sp := km_sp st2; km_satp := km_satp st2;
                km_image := {| kiRoot := kiRoot image; kiASID := kiASID image;
                               kiStackInitted := true |};
                km_trace := km_trace st2 ++ [EvSetStackInitted] |}
    end.

End KernelImage.

(** The copy events of [n] iterations from the bases [stack_p], [image_p]:
    for [k = 1 .. n] in this order, the word [8 * k] bytes below the stack
    base goes to the word [8 * k] bytes below the image base. *)
Definition copy_events (n : nat) (stack_p image_p : Z) : list hw_event :=
  map (fun k => EvCopyWord (word (stack_p - 8 * Z.of_nat k))
                           (word (image_p - 8 * Z.of_nat k)))
      (seq 1 n).

(** The memory after the iterations [j + 1 .. j + n] of the copy. *)
Fixpoint copied_stack (n j : nat) (stack_p image_p : Z) (m : Z -> Z) : Z -> Z :=
  match n with
  | O => m
  | S n' =>
      copied_stack n' (S j) stack_p image_p
        (upd m (word (image_p - 8 * Z.of_nat (S j)))
               (m (word (stack_p - 8 * Z.of_nat (S j)))))
  end.

(** ** Specification-side views of the state *)

(** Two states that differ at most in the two one-slot relays
    [current_lookup_fault] and [current_syscall_error]. *)
Definition relay_only (s s' : kstate) : Prop :=
  exists lf se, s' = with_syscall_error se (with_lookup_fault lf s).

(** A computation all of whose finished runs change the relays only. *)
Definition readonly {A : Type} (m : M A) : Prop :=
  forall s a s', m s = Done a s' -> relay_only s s'.

(** A computation whose finished runs that report anything but
    [EXCEPTION_NONE] change the relays only. *)
Definition failure_readonly (m : M exception_t) : Prop :=
  forall s r s', m s = Done r s' -> r <> EXCEPTION_NONE -> relay_only s s'.

(** A computation that can only finish with [EXCEPTION_NONE]. *)
Definition infallible (m : M exception_t) : Prop :=
  forall s r s', m s = Done r s' -> r = EXCEPTION_NONE.

(** The capability-space services the ASID-control decoder consults only
    inspect the state. *)
Definition services_readonly (P : platform) : Prop :=
  (forall slot, readonly (ensureNoChildren P slot)) /\
  (forall root index depth, readonly (lookupTargetSlot P root index depth)) /\
  (forall slot, readonly (ensureEmptySlot P slot)).

Section Views.

Variable P : platform.

Definition asid_pool_of (s : kstate) (asid : Z) : Z :=
  riscvKSASIDTable s (Z.shiftr asid (asidLowBits P)).

Definition asid_entry_of (s : kstate) (asid : Z) : Z :=
  ks_mem s (ptr_index (asid_pool_of s asid) (Z.land asid (MASK (asidLowBits P)))).

(** The root bound to [asid], if the registry has one. *)
Definition asid_root (s : kstate) (asid : Z) : option Z :=
  if asid_pool_of s asid =? 0 then None
  else if asid_entry_of s asid =? 0 then None
  else Some (asid_entry_of s asid).

(** [cap] is a page-table capability naming the root its ASID is bound to. *)
Definition vtable_root_b (s : kstate) (cap : cap_t) : bool :=
  match cap with
  | cap_page_table_cap asid base _ _ =>
      match asid_root s asid with
      | Some root => base =? root
      | None => false
      end
  | _ => false
  end.

(** Every entry of the table at [pt] is the all-zero word. *)
Definition empty_table (s : kstate) (pt : Z) : Prop :=
  forall i, 0 <= i < 2 ^ PT_INDEX_BITS -> ks_mem s (ptr_index pt i) = 0.

End Views.

(** ** A concrete platform: Sv39 (three levels), 7+9-bit ASIDs *)

Definition BASE_OFFSET : Z := 0xFFFFFFFF00000000.

Definition sv39 : platform := {|
  CONFIG_PT_LEVELS := 3;
  asidLowBits := 9;
  nASIDPools := 128;
  kernelBase := 0xFFFFFFFF80000000;
  kernel_pageTables := 0xFFFFFFFF80100000;
  CONFIG_DEBUG_BUILD := true;
  ptrFromPAddr := fun p => word (p + BASE_OFFSET);
  addrFromPPtr := fun v => word (v - BASE_OFFSET);
  RISCV_4K_Page := 0;
  pageBitsForSize := fun sz => if sz =? 0 then 12 else if sz =? 1 then 21 else 30;
  RISCVpageAtPTLevel := fun sz => if sz =? 0 then 3 else if sz =? 1 then 2 else 1;
  seL4_ASIDPoolBits := 12;
  MAX_FREE_INDEX := fun bits => Z.shiftl 1 (bits - 4);
  rightsFromWord := fun w => {| capAllowRead := Z.testbit w 1; capAllowWrite := Z.testbit w 0 |};
  vmRightsFromWord := fun _ => VMNoAccess;
  riscvExecuteNever := fun w => Z.testbit w 0;
  msgInfo_one_register := 1;
  getSyscallArg := fun i _ regs _ => regs (msgRegister i);
  cap_get_raw := fun _ _ => 0;
  cap_set_raw := fun c _ _ => c;
  field_store := fun _ v => v;
  setThreadState := fun _ _ s => s;
  cteInsert := fun c _ dest s => with_cte (fun x => if x =? dest then c else ks_cte s x) s;
  ensureNoChildren := fun _ => ret EXCEPTION_NONE;
  lookupTargetSlot := fun _ index _ => ret (EXCEPTION_NONE, index);
  ensureEmptySlot := fun _ => ret EXCEPTION_NONE;
  kernelStackBase := 0xFFFFFFFF80200000;
  kernelImageVPtr := fun _ v => word (v - 0x100000)
|}.

Definition no_error : syscall_error_t :=
  {| se_type := seL4_NoError; invalidArgumentNumber := 0; invalidCapNumber := 0;
     failedLookupWasSource := false |}.

(** A state with no ASID pool, zeroed memory and empty slots. *)
Definition blank_state : kstate :=
  {| ks_mem := fun _ => 0; riscvKSASIDTable := fun _ => 0; ks_cte := fun _ => cap_null_cap;
     current_lookup_fault := lookup_fault_null;
     current_syscall_error := no_error;
     current_fault := seL4_Fault_NullFault;
     ks_regs := fun _ _ => 0; ksCurThread := 1; csr_sbadaddr := 0 |}.

(** Thread 1 trapped at [0x1000] on an access to [0x2000]. *)
Definition trapped_state : kstate :=
  with_regs (fun t r => if (t =? 1) && register_eqb r SEPC then 0x1000 else 0)
    {| ks_mem := fun _ => 0; riscvKSASIDTable := fun _ => 0; ks_cte := fun _ => cap_null_cap;
       current_lookup_fault := lookup_fault_null;
       current_syscall_error := no_error;
       current_fault := seL4_Fault_NullFault;
       ks_regs := fun _ _ => 0; ksCurThread := 1; csr_sbadaddr := 0x2000 |}.

(** The trap causes [handleVMFault] has a case for. *)
Definition recognized_cause (c : vm_fault_type_t) : bool :=
  match c with
  | RISCVLoadPageFault | RISCVLoadAccessFault
  | RISCVStorePageFault | RISCVStoreAccessFault
  | RISCVInstructionPageFault | RISCVInstructionAccessFault => true
  | _ => false
  end.

Definition is_load_cause (c : vm_fault_type_t) : bool :=
  match c with RISCVLoadPageFault | RISCVLoadAccessFault => true | _ => false end.
Definition is_store_cause (c : vm_fault_type_t) : bool :=
  match c with RISCVStorePageFault | RISCVStoreAccessFault => true | _ => false end.
Definition is_instruction_cause (c : vm_fault_type_t) : bool :=
  match c with RISCVInstructionPageFault | RISCVInstructionAccessFault => true | _ => false end.

(** The two results a walk that started from a non-null root can have. *)
Definition walk_ok (p : Z) : lookupPTSlot_ret_t :=
  {| lu_status := EXCEPTION_NONE; ptSlot := Some p; missingPTLevel := None |}.

Definition walk_missing (p j : Z) : lookupPTSlot_ret_t :=
  {| lu_status := EXCEPTION_LOOKUP_FAULT; ptSlot := Some p; missingPTLevel := Some j |}.

(** The first switch to an image with root [0xFFFFFFFF80300000] and ASID 2,
    with two live words on the stack. *)
Definition first_switch : ki_machine :=
  {| km_mem := fun a => a;
     km_sp := 0xFFFFFFFF80200000 - 16;
     km_satp := None;
     km_image := {| kiRoot := 0xFFFFFFFF80300000; kiASID := 2; kiStackInitted := false |};
     km_trace := [] |}.

(** ** A small populated system on [sv39]

    ASID 1 (pool 0 at [it_pool]) is bound to the root [it_root]; a
    second-level table [it_pt] is mapped at [it_vaddr] (root index 1).
    Slot 100 holds the capability to [it_pt], slot 200 the root's, slot 300
    an unmapped 2 MiB frame capability and slot 400 a 4 KiB one already
    mapped at [0x40001000]. *)

Definition it_pool : Z := 0xFFFFFFFF80500000.
Definition it_root : Z := 0xFFFFFFFF80400000.
Definition it_pt : Z := 0xFFFFFFFF80401000.
Definition it_frame : Z := 0xFFFFFFFF80402000.
Definition it_vaddr : Z := 0x40000000.

Definition it_pt_pte : Z :=
  pte_new (Z.shiftr (addrFromPPtr sv39 it_pt) RISCV_4K_PageBits) 0 1 1 0 0 0 0 0 1.

Definition it_pt_cap : cap_t := cap_page_table_cap 1 it_pt 1 it_vaddr.
Definition it_root_cap : cap_t := cap_page_table_cap 1 it_root 1 it_root.
Definition it_mapped_frame_cap : cap_t := cap_frame_cap 1 it_frame 0 VMReadWrite 0x40001000.
Definition it_mega_frame_cap : cap_t := cap_frame_cap asidInvalid it_frame 1 VMReadWrite 0.

Definition mapped_pt_state : kstate :=
  {| ks_mem := fun a => if a =? it_pool + 8 then it_root
                        else if a =? it_root + 8 then it_pt_pte
                        else 0;
     riscvKSASIDTable := fun i => if i =? 0 then it_pool else 0;
     ks_cte := fun c => if c =? 100 then it_pt_cap
                        else if c =? 200 then it_root_cap
                        else if c =? 300 then it_mega_frame_cap
                        else if c =? 400 then it_mapped_frame_cap
                        else cap_null_cap;
     current_lookup_fault := lookup_fault_null;
     current_syscall_error := no_error;
     current_fault := seL4_Fault_NullFault;
     ks_regs := fun _ _ => 0; ksCurThread := 1; csr_sbadaddr := 0 |}.

(** The same system with the current thread's first message register set. *)
Definition with_arg0 (v : Z) (s : kstate) : kstate :=
  with_regs (fun t r => if (t =? ksCurThread s) && register_eqb r (msgRegister 0)
                        then v else ks_regs s t r) s.

(** A system whose only ASID pool is pool 1 (ASIDs 512..1023), at
    [it_pool2], with every entry free; slot 500 holds the capability to a
    fresh, unbound root at [it_root2]. *)
Definition it_pool2 : Z := 0xFFFFFFFF80600000.
Definition it_root2 : Z := 0xFFFFFFFF80700000.

Definition second_pool_state : kstate :=
  {| ks_mem := fun _ => 0;
     riscvKSASIDTable := fun i => if i =? 1 then it_pool2 else 0;
     ks_cte := fun c => if c =? 500 then cap_page_table_cap asidInvalid it_root2 0 0
                        else cap_null_cap;
     current_lookup_fault := lookup_fault_null;
     current_syscall_error := no_error;
     current_fault := seL4_Fault_NullFault;
     ks_regs := fun _ _ => 0; ksCurThread := 1; csr_sbadaddr := 0 |}.

(** A system in which every ASID pool slot is taken (by [it_pool]). *)
Definition pools_exhausted_state : kstate :=
  {| ks_mem := fun _ => 0;
     riscvKSASIDTable := fun _ => it_pool;
     ks_cte := fun c => if c =? 500 then cap_page_table_cap asidInvalid it_root2 0 0
                        else cap_null_cap;
     current_lookup_fault := lookup_fault_null;
     current_syscall_error := no_error;
     current_fault := seL4_Fault_NullFault;
     ks_regs := fun _ _ => 0; ksCurThread := 1; csr_sbadaddr := 0 |}.

(** Entry [j] of the pool at [pool], based at [asid], cannot be handed out:
    it stands for ASID 0 or it is bound. *)
Definition asid_entry_taken (asid pool : Z) (m : Z -> Z) (j : Z) : Prop :=
  word (asid + j) = 0 \/ m (ptr_index pool j) <> 0.

(** A fresh, unmapped second-level table for the populated system. *)
Definition it_pt2 : Z := 0xFFFFFFFF80403000.
Definition it_pt2_cap : cap_t := cap_page_table_cap asidInvalid it_pt2 0 0.

(** * Further parts of the subsystem *)

(** Thread control blocks are laid out by headers outside the embedded
    sources: where a thread keeps its IPC-buffer address, and the slots of
    its buffer and VSpace-root capabilities. *)
Record tcb_layout : Type := {
  tcbIPCBuffer_ptr : Z -> Z;      (* [&thread->tcbIPCBuffer] *)
  tcbBuffer_slot : Z -> Z;        (* [TCB_PTR_CTE_PTR(thread, tcbBuffer)] *)
  tcbVTable_slot : Z -> Z         (* [TCB_PTR_CTE_PTR(thread, tcbVTable)] *)
}.

Section Model2.

Variable P : platform.
Variable L : tcb_layout.

(** [pageBase] (vspace.c, lines 1147-1151). *)
Definition pageBase (vaddr size : Z) : Z :=
  Z.land vaddr (word (Z.lnot (MASK (pageBitsForSize P size)))).

(** [isValidVTableRoot] (lines 637-641). *)
Definition isValidVTableRoot (cap : cap_t) : bool :=
  cap_tag_eqb (cap_get_capType cap) tag_page_table.

(** [checkValidIPCBuffer] (lines 643-664). *)
Definition checkValidIPCBuffer (vptr : Z) (cap : cap_t) : M exception_t :=
  if negb (cap_tag_eqb (cap_get_capType cap) tag_frame) then
    syscall_error (set_se_type seL4_IllegalOperation)
  else if negb (Z.land vptr (MASK 9) =? 0) then
    syscall_error (set_se_type seL4_AlignmentError)
  else ret EXCEPTION_NONE.

(** [lookupIPCBuffer] (lines 350-378); the result is the buffer pointer,
    0 for [NULL]. *)
Definition lookupIPCBuffer (isReceiver : bool) (thread : Z) : M Z :=
  w_bufferPtr <- load (tcbIPCBuffer_ptr L thread) ;;
  bufferCap <- get_slot_cap (tcbBuffer_slot L thread) ;;
  if negb (cap_tag_eqb (cap_get_capType bufferCap) tag_frame)
     && negb (cap_tag_eqb (cap_get_capType bufferCap) tag_frame) then ret 0
  else
    let vm_rights := cap_frame_cap_get_capFVMRights P bufferCap in
    if vm_rights_eqb vm_rights VMReadWrite
       || (negb isReceiver && vm_rights_eqb vm_rights VMReadOnly) then
      let basePtr := cap_frame_cap_get_capFBasePtr P bufferCap in
      let pageBits := pageBitsForSize P (cap_frame_cap_get_capFSize P bufferCap) in
      ret (word (basePtr + Z.land w_bufferPtr (MASK pageBits)))
    else ret 0.

(** [setVMRoot] (lines 609-634).  The translation-root register is not
    part of the kernel state: the result is the pair (root, ASID) handed to
    [setVSpaceRoot]. *)
Definition setVMRoot (tcb : Z) : M (Z * Z) :=
  threadRoot <- get_slot_cap (tcbVTable_slot L tcb) ;;
  if negb (cap_tag_eqb (cap_get_capType threadRoot) tag_page_table) then
    ret (addrFromPPtr P (kernel_pageTables P), 0)
  else
    let lvl1pt := cap_page_table_cap_get_capPTBasePtr P threadRoot in
    let asid := cap_page_table_cap_get_capPTMappedASID P threadRoot in
    find_ret <- findVSpaceForASID P asid ;;
    if negb (exception_eqb (fv_status find_ret) EXCEPTION_NONE)
       || negb (vspace_root find_ret =? lvl1pt) then
      ret (addrFromPPtr P (kernel_pageTables P), asid)
    else
      ret (addrFromPPtr P lvl1pt, asid).

(** [deleteASIDPool] (lines 493-502); the result is the root-register
    write of [setVMRoot], if the pool was removed. *)
Definition deleteASIDPool (asid_base pool : Z) : M (option (Z * Z)) :=
  assert P (Z.land asid_base (MASK (asidLowBits P)) =? 0) ;;;
  entry <- gets (fun s => riscvKSASIDTable s (Z.shiftr asid_base (asidLowBits P))) ;;
  if entry =? pool then
    modify (fun s => with_asid_table
              (upd (riscvKSASIDTable s) (Z.shiftr asid_base (asidLowBits P)) 0) s) ;;;
    cur <- gets ksCurThread ;;
    w <- setVMRoot cur ;;
    ret (Some w)
  else ret None.

(** [hwASIDFlush] (lines 540-544): [sfence.vma x0, asid]. *)
Definition hwASIDFlush (asid : Z) : M unit := ret tt.

(** [deleteASID] (lines 546-556); the result is as for [deleteASIDPool]. *)
Definition deleteASID (asid vspace : Z) : M (option (Z * Z)) :=
  poolPtr <- gets (fun s => riscvKSASIDTable s (Z.shiftr asid (asidLowBits P))) ;;
  if poolPtr =? 0 then ret None
  else
    entry <- load (ptr_index poolPtr (Z.land asid (MASK (asidLowBits P)))) ;;
    if entry =? vspace then
      hwASIDFlush asid ;;;
      store (ptr_index poolPtr (Z.land asid (MASK (asidLowBits P)))) 0 ;;;
      cur <- gets ksCurThread ;;
      w <- setVMRoot cur ;;
      ret (Some w)
    else ret None.

End Model2.

(** ** Further specification-side views *)

Section Views2.

Variable P : platform.

(** The table an entry word points to, as [getPPtrFromHWPTE] computes it. *)
Definition pte_target (w : Z) : Z :=
  ptrFromPAddr P (word (Z.shiftl (Z.shiftr w PTE_PPN_SHIFT) seL4_PageTableBits)).

(** The slots whose entries a walk of [n] steps reads, in order. *)
Fixpoint walk_path (n : nat) (i vptr slot : Z) (m : Z -> Z) : list Z :=
  match n with
  | O => []
  | S n' =>
      slot :: (if m slot =? 0 then []
               else walk_path n' (i + 1) vptr
                      (ptr_index (pte_target (m slot)) (RISCV_GET_PT_INDEX P vptr i)) m)
  end.

(** The slots [lookupPTSlot lvl1pt vptr ptLevel] reads. *)
Definition lookup_path (lvl1pt vptr ptLevel : Z) (m : Z -> Z) : list Z :=
  walk_path (Z.to_nat (ptLevel - 1)) 2 vptr
            (ptr_index lvl1pt (RISCV_GET_PT_INDEX P vptr 1)) m.

(** The entry [PageTableMap] builds for the table at [pt]. *)
Definition table_pte (pt : Z) : Z :=
  pte_new (Z.shiftr (addrFromPPtr P pt) RISCV_4K_PageBits) 0 1 1 0 0 0 0 0 1.

(** [pt] is a page-aligned table whose physical address the address
    translator maps back to it. *)
Definition translatable_table (pt : Z) : Prop :=
  0 <= addrFromPPtr P pt < 2 ^ wordBits
  /\ addrFromPPtr P pt mod 2 ^ seL4_PageTableBits = 0
  /\ ptrFromPAddr P (addrFromPPtr P pt) = pt.

(** The thread-state collaborator touches neither memory, capability
    slots, the ASID table nor the identity of the current thread. *)
Definition thread_state_only : Prop :=
  forall t ts s,
    ks_mem (setThreadState P t ts s) = ks_mem s
    /\ ks_cte (setThreadState P t ts s) = ks_cte s
    /\ riscvKSASIDTable (setThreadState P t ts s) = riscvKSASIDTable s
    /\ ksCurThread (setThreadState P t ts s) = ksCurThread s.

(** The capability-insertion collaborator touches neither memory nor the
    ASID table. *)
Definition cteInsert_caps_only : Prop :=
  forall c src dest s,
    ks_mem (cteInsert P c src dest s) = ks_mem s
    /\ riscvKSASIDTable (cteInsert P c src dest s) = riscvKSASIDTable s.

End Views2.

(** Thread control blocks of the populated system: thread [t] keeps its
    buffer address at [0xFFFFFFFF80800200 + 1024 t], its VSpace root in slot
    [1001 + 10 t] and its buffer capability in slot [1004 + 10 t]. *)
Definition sv39_tcb : tcb_layout :=
  {| tcbIPCBuffer_ptr := fun t => 0xFFFFFFFF80800200 + 1024 * t;
     tcbBuffer_slot := fun t => 1004 + 10 * t;
     tcbVTable_slot := fun t => 1001 + 10 * t |}.

(** The populated system with thread 1 running on the root of ASID 1 and
    using the mapped frame as its IPC buffer at [0x40001200]. *)
Definition threaded_state : kstate :=
  with_cte (fun c => if c =? 1011 then it_root_cap
                     else if c =? 1014 then it_mapped_frame_cap
                     else ks_cte mapped_pt_state c)
    (with_mem (upd (ks_mem mapped_pt_state) (0xFFFFFFFF80800200 + 1024) 0x40001200)
       mapped_pt_state).

(** The populated system with a third-level table [it_pt3] under entry 0
    of [it_pt]. *)
Definition it_pt3 : Z := 0xFFFFFFFF80404000.

Definition three_level_state : kstate :=
  with_mem (upd (ks_mem mapped_pt_state) (ptr_index it_pt 0) (table_pte sv39 it_pt3))
    mapped_pt_state.

(** A system whose kernel table maps the kernel window in its top-level
    entries 510 and 511 (1 GiB leaves at physical [0x80000000] and
    [0xC0000000]). *)
Definition window_state : kstate :=
  with_mem (fun a => if a =? ptr_index (kernel_pageTables sv39) 510 then 0x200000CF
                     else if a =? ptr_index (kernel_pageTables sv39) 511 then 0x300000CF
                     else 0)
    second_pool_state.

(** The one-pool system with an untyped page at [it_fresh_pool] in slot
    700, of the size of an ASID pool. *)
Definition it_fresh_pool : Z := 0xFFFFFFFF80900000.

Definition untyped_state : kstate :=
  with_cte (fun c => if c =? 700 then cap_untyped_cap 0 0 12 it_fresh_pool
                     else ks_cte second_pool_state c)
    second_pool_state.

(** * Boot-time construction of the initial thread's address space *)

(** Taken from headers outside the embedded sources: the object pointer of
    a capability, the physical address of a kernel pointer and the ASID of
    the initial thread. *)
Record boot_layout : Type := {
  pptr_of_cap : cap_t -> Z;
  pptr_to_paddr : Z -> Z;
  IT_ASID : Z
}.

Section Boot.

Variable P : platform.
Variable B : boot_layout.

(** [map_it_pt_cap] (vspace.c, lines 122-153).  The status of the lookup
    is not looked at; [ptLevel] is a [uint32_t]. *)
Definition map_it_pt_cap (vspace_cap pt_cap : cap_t) (ptLevel : Z) : M unit :=
  let vptr := cap_page_table_cap_get_capPTMappedAddress P pt_cap in
  let lvl1pt := pptr_of_cap B vspace_cap in
  let pt := pptr_of_cap B pt_cap in
  pt_ret <- lookupPTSlot P lvl1pt vptr ((ptLevel - 1) mod 2 ^ 32) ;;
  match ptSlot pt_ret with
  | Some targetSlot =>
      store targetSlot
        (pte_new (Z.shiftr (addrFromPPtr P pt) RISCV_4K_PageBits) 0 1 1 0 0 0 0 0 1) ;;;
      sfence_vma
  | None => undefined
  end.

(** [map_it_frame_cap] (lines 155-180). *)
Definition map_it_frame_cap (vspace_cap frame_cap : cap_t) : M unit :=
  let lvl1pt := pptr_of_cap B vspace_cap in
  let frame_pptr := pptr_of_cap B frame_cap in
  let frame_vptr := cap_frame_cap_get_capFMappedAddress P frame_cap in
  lu_ret <- lookupPTSlot P lvl1pt frame_vptr (RISCVpageAtPTLevel P (RISCV_4K_Page P)) ;;
  match ptSlot lu_ret with
  | Some targetSlot =>
      store targetSlot
        (pte_new (Z.shiftr (pptr_to_paddr B frame_pptr) RISCV_4K_PageBits)
                 0 1 1 0 1 1 1 1 1) ;;;
      sfence_vma
  | None => undefined
  end.

(** [create_it_pt_cap] (lines 198-211). *)
Definition create_it_pt_cap (vspace_cap : cap_t) (pptr vptr asid ptLevel : Z) : M cap_t :=
  let cap := cap_page_table_cap asid pptr 1 vptr in
  map_it_pt_cap vspace_cap cap ptLevel ;;;
  ret cap.

(** [write_it_asid_pool] (lines 276-282). *)
Definition write_it_asid_pool (it_ap_cap it_lvl1pt_cap : cap_t) : M unit :=
  let ap := pptr_of_cap B it_ap_cap in
  store (ptr_index ap (IT_ASID B)) (pptr_of_cap B it_lvl1pt_cap) ;;;
  modify (fun s => with_asid_table
            (upd (riscvKSASIDTable s) (Z.shiftr (IT_ASID B) (asidLowBits P)) ap) s).

End Boot.

(** The boot layout of the populated system: object pointers are the
    capabilities' base pointers and the initial thread has ASID 1. *)
Definition sv39_boot : boot_layout :=
  {| pptr_of_cap := fun c =>
       match c with
       | cap_page_table_cap _ b _ _ => b
       | cap_frame_cap _ b _ _ _ => b
       | cap_asid_pool_cap _ p => p
       | cap_untyped_cap _ _ _ p => p
       | _ => 0
       end;
     pptr_to_paddr := addrFromPPtr sv39;
     IT_ASID := 1 |}.

(** [first_switch] with a stack pointer that is not word-aligned. *)
Definition misaligned_switch : ki_machine :=
  {| km_mem := km_mem first_switch;
     km_sp := km_sp first_switch + 4;
     km_satp := None;
     km_image := km_image first_switch;
     km_trace := [] |}.

(** * Properties *)

(** ** Rights masking *)

(** C10: [maskVMRights] never escalates access.  For every rights value and
    every mask, the result allows a read only if the input did and a write
    only if the input did; [VMNoAccess] and [VMKernelOnly] are fixed points
    for every mask. *)
Theorem maskVMRights_no_escalation :
  forall (vm_rights : vm_rights_t) (mask : seL4_CapRights_t),
    implb (RISCVGetReadFromVMRights (maskVMRights vm_rights mask))
          (RISCVGetReadFromVMRights vm_rights) = true
    /\ implb (RISCVGetWriteFromVMRights (maskVMRights vm_rights mask))
             (RISCVGetWriteFromVMRights vm_rights) = true
    /\ maskVMRights VMNoAccess mask = VMNoAccess
    /\ maskVMRights VMKernelOnly mask = VMKernelOnly.
Proof.
  intros r [rd wr].
  destruct r, rd, wr; repeat split; reflexivity.
Qed.

(** ** Reasoning about the kernel monad *)

Lemma bind_Done_inv {A B} (m : M A) (k : A -> M B) s r s' :
  bind m k s = Done r s' ->
  exists a s1, m s = Done a s1 /\ k a s1 = Done r s'.
Proof.
  unfold bind. destruct (m s) as [a s1| |]; try discriminate.
  intros H. exists a, s1. split; [reflexivity | exact H].
Qed.

(** Exposes the state-passing form of the monad operations. *)
Ltac munfold :=
  unfold bind, load, store, set_current_lookup_fault, set_syscall_error,
    set_current_fault, getRegister, setRegister, get_slot_cap, set_slot_cap,
    modify, gets, ret, fail, undefined;
  cbv beta iota.

Lemma bind_Done {A B} (m : M A) (k : A -> M B) s a s1 :
  m s = Done a s1 -> bind m k s = k a s1.
Proof. unfold bind. intros ->. reflexivity. Qed.

Lemma relay_only_refl s : relay_only s s.
Proof.
  exists (current_lookup_fault s), (current_syscall_error s).
  destruct s; reflexivity.
Qed.

Lemma relay_only_trans s1 s2 s3 :
  relay_only s1 s2 -> relay_only s2 s3 -> relay_only s1 s3.
Proof.
  intros (lf & se & ->) (lf' & se' & ->).
  exists lf', se'. destruct s1; reflexivity.
Qed.

Lemma relay_only_lookup_fault f s : relay_only s (with_lookup_fault f s).
Proof.
  exists f, (current_syscall_error s). destruct s; reflexivity.
Qed.

Lemma relay_only_syscall_error e s : relay_only s (with_syscall_error e s).
Proof.
  exists (current_lookup_fault s), e. destruct s; reflexivity.
Qed.

Lemma relay_only_mem s s' : relay_only s s' -> ks_mem s' = ks_mem s.
Proof. intros (lf & se & ->). reflexivity. Qed.

Lemma relay_only_cte s s' : relay_only s s' -> ks_cte s' = ks_cte s.
Proof. intros (lf & se & ->). reflexivity. Qed.

Lemma relay_only_table s s' : relay_only s s' -> riscvKSASIDTable s' = riscvKSASIDTable s.
Proof. intros (lf & se & ->). reflexivity. Qed.

Lemma relay_only_regs s s' : relay_only s s' -> ks_regs s' = ks_regs s.
Proof. intros (lf & se & ->). reflexivity. Qed.

Lemma relay_only_cur s s' : relay_only s s' -> ksCurThread s' = ksCurThread s.
Proof. intros (lf & se & ->). reflexivity. Qed.

Create HintDb kernel_ro.

Lemma readonly_ret {A} (a : A) : readonly (ret a).
Proof. intros s a' s' H. inversion H; subst. apply relay_only_refl. Qed.

Lemma readonly_gets {A} (f : kstate -> A) : readonly (gets f).
Proof. intros s a' s' H. inversion H; subst. apply relay_only_refl. Qed.

Lemma readonly_fail {A} : readonly (@fail A).
Proof. intros s a s' H. discriminate. Qed.

Lemma readonly_undefined {A} : readonly (@undefined A).
Proof. intros s a s' H. discriminate. Qed.

Lemma readonly_bind {A B} (m : M A) (k : A -> M B) :
  readonly m -> (forall a, readonly (k a)) -> readonly (bind m k).
Proof.
  intros Hm Hk s r s' H.
  apply bind_Done_inv in H. destruct H as (a & s1 & H1 & H2).
  eapply relay_only_trans; [eapply Hm | eapply Hk]; eassumption.
Qed.

Lemma readonly_set_current_lookup_fault f : readonly (set_current_lookup_fault f).
Proof. intros s a s' H. inversion H; subst. apply relay_only_lookup_fault. Qed.

Lemma readonly_set_syscall_error f : readonly (set_syscall_error f).
Proof. intros s a s' H. inversion H; subst. apply relay_only_syscall_error. Qed.

Lemma readonly_load p : readonly (load p).
Proof. apply readonly_gets. Qed.

Lemma readonly_get_slot_cap p : readonly (get_slot_cap p).
Proof. apply readonly_gets. Qed.

Lemma readonly_assert P b : readonly (assert P b).
Proof.
  unfold assert. destruct (CONFIG_DEBUG_BUILD P && negb b).
  - apply readonly_fail.
  - apply readonly_ret.
Qed.

Lemma readonly_if {A} (b : bool) (m1 m2 : M A) :
  readonly m1 -> readonly m2 -> readonly (if b then m1 else m2).
Proof. destruct b; auto. Qed.

#[local] Hint Resolve readonly_ret readonly_gets readonly_fail readonly_undefined
  readonly_set_current_lookup_fault readonly_set_syscall_error readonly_load
  readonly_get_slot_cap readonly_assert : kernel_ro.

(** Solves [readonly] goals by following the shape of the computation. *)
Ltac ro_step :=
  match goal with
  | |- readonly (bind _ _) => apply readonly_bind; [ | intros ? ]
  | |- readonly (if _ then _ else _) => apply readonly_if
  | |- readonly (match ?x with _ => _ end) => destruct x
  | |- readonly _ => solve [ auto with kernel_ro ]
  end.
Ltac ro := repeat ro_step.

Lemma readonly_findVSpaceForASID P asid : readonly (findVSpaceForASID P asid).
Proof. unfold findVSpaceForASID. ro. Qed.
#[local] Hint Resolve readonly_findVSpaceForASID : kernel_ro.

Lemma readonly_isVTableRoot P cap : readonly (isVTableRoot P cap).
Proof. unfold isVTableRoot. ro. Qed.
#[local] Hint Resolve readonly_isVTableRoot : kernel_ro.

Lemma readonly_isValidNativeRoot P cap : readonly (isValidNativeRoot P cap).
Proof. unfold isValidNativeRoot. ro. Qed.
#[local] Hint Resolve readonly_isValidNativeRoot : kernel_ro.

Lemma readonly_getPPtrFromHWPTE P pte : readonly (getPPtrFromHWPTE P pte).
Proof. unfold getPPtrFromHWPTE. ro. Qed.
#[local] Hint Resolve readonly_getPPtrFromHWPTE : kernel_ro.

Lemma readonly_lookupPTSlot_loop P n : forall i vptr slot,
  readonly (lookupPTSlot_loop P n i vptr slot).
Proof.
  induction n as [|n IH]; intros i vptr slot; simpl.
  - ro.
  - ro.
Qed.
#[local] Hint Resolve readonly_lookupPTSlot_loop : kernel_ro.

Lemma readonly_lookupPTSlot P lvl1pt vptr ptLevel :
  readonly (lookupPTSlot P lvl1pt vptr ptLevel).
Proof. unfold lookupPTSlot. ro. Qed.
#[local] Hint Resolve readonly_lookupPTSlot : kernel_ro.

Lemma readonly_createSafeMappingEntries_PTE P base vaddr sz r attr lvl1pt :
  readonly (createSafeMappingEntries_PTE P base vaddr sz r attr lvl1pt).
Proof. unfold createSafeMappingEntries_PTE. ro. Qed.
#[local] Hint Resolve readonly_createSafeMappingEntries_PTE : kernel_ro.

(** ** Word arithmetic *)

Lemma MASK_ones n : 0 <= n < wordBits -> MASK n = Z.ones n.
Proof.
  intros Hn. unfold MASK, BIT, word, wordBits in *.
  rewrite Z.shiftl_1_l, Z.ones_equiv, <- Z.sub_1_r.
  assert (0 < 2 ^ n) by (apply Z.pow_pos_nonneg; lia).
  assert (2 ^ n < 2 ^ 64) by (apply Z.pow_lt_mono_r; lia).
  rewrite (Z.mod_small (2 ^ n)) by lia.
  apply Z.mod_small. lia.
Qed.

Lemma PT_INDEX_range P vptr n :
  0 <= RISCV_GET_PT_INDEX P vptr n < 2 ^ PT_INDEX_BITS.
Proof.
  unfold RISCV_GET_PT_INDEX.
  rewrite MASK_ones by (unfold PT_INDEX_BITS, wordBits; lia).
  rewrite Z.land_ones by (unfold PT_INDEX_BITS; lia).
  apply Z.mod_pos_bound. reflexivity.
Qed.

(** ** VSpace registry *)

(** C7: resolving an ASID.  The ASID splits into a pool index (high bits)
    and a slot index (low bits).  A null table entry at the pool index gives
    an invalid-root lookup fault; otherwise a null pool entry at the slot
    index gives a missing-capability fault sized to the level-1 granularity;
    otherwise the stored root comes back with no error and no relay is
    touched. *)
Theorem findVSpaceForASID_resolve (P : platform) :
  forall (asid : Z) (s : kstate),
    let poolIndex := Z.shiftr asid (asidLowBits P) in
    let slotIndex := Z.land asid (MASK (asidLowBits P)) in
    let pool := riscvKSASIDTable s poolIndex in
    let entry := ks_mem s (ptr_index pool slotIndex) in
    (pool = 0 ->
       findVSpaceForASID P asid s =
       Done {| fv_status := EXCEPTION_LOOKUP_FAULT; vspace_root := 0 |}
            (with_lookup_fault lookup_fault_invalid_root_new s))
    /\ (pool <> 0 -> entry = 0 ->
          findVSpaceForASID P asid s =
          Done {| fv_status := EXCEPTION_LOOKUP_FAULT; vspace_root := 0 |}
               (with_lookup_fault
                  (lookup_fault_missing_capability_new (RISCV_GET_LVL_PGSIZE_BITS P 1)) s))
    /\ (pool <> 0 -> entry <> 0 ->
          findVSpaceForASID P asid s =
          Done {| fv_status := EXCEPTION_NONE; vspace_root := entry |} s)
    /\ (0 <= asidLowBits P < wordBits ->
          asid = poolIndex * 2 ^ asidLowBits P + slotIndex
          /\ 0 <= slotIndex < 2 ^ asidLowBits P).
Proof.
  intros asid s. cbv zeta.
  unfold findVSpaceForASID. munfold.
  split; [|split; [|split]].
  - intros ->. reflexivity.
  - intros Hp He. apply Z.eqb_neq in Hp. rewrite Hp. cbv beta iota. rewrite He. reflexivity.
  - intros Hp He. apply Z.eqb_neq in Hp, He. rewrite Hp. cbv beta iota. rewrite He. reflexivity.
  - intros Hb. rewrite MASK_ones by assumption.
    rewrite Z.land_ones, Z.shiftr_div_pow2 by lia.
    assert (0 < 2 ^ asidLowBits P) by (apply Z.pow_pos_nonneg; lia).
    split.
    + rewrite Z.mul_comm. apply Z.div_mod. lia.
    + apply Z.mod_pos_bound. assumption.
Qed.

(** Witness for C7: in the populated system ASID 1 resolves to [it_root],
    ASID 2 (same pool, free entry) is a missing capability sized to level 1
    and ASID 512 (no pool) is an invalid root. *)
Lemma findVSpaceForASID_resolve_witness :
  findVSpaceForASID sv39 1 mapped_pt_state
  = Done {| fv_status := EXCEPTION_NONE; vspace_root := it_root |} mapped_pt_state
  /\ findVSpaceForASID sv39 2 mapped_pt_state
     = Done {| fv_status := EXCEPTION_LOOKUP_FAULT; vspace_root := 0 |}
         (with_lookup_fault (lookup_fault_missing_capability_new 30) mapped_pt_state)
  /\ findVSpaceForASID sv39 512 mapped_pt_state
     = Done {| fv_status := EXCEPTION_LOOKUP_FAULT; vspace_root := 0 |}
         (with_lookup_fault lookup_fault_invalid_root_new mapped_pt_state).
Proof.
  destruct (findVSpaceForASID_resolve sv39 1 mapped_pt_state) as (_ & _ & H1 & _).
  destruct (findVSpaceForASID_resolve sv39 2 mapped_pt_state) as (_ & H2 & _ & _).
  destruct (findVSpaceForASID_resolve sv39 512 mapped_pt_state) as (H3 & _ & _ & _).
  split; [|split].
  - apply H1; vm_compute; discriminate.
  - apply H2; [vm_compute; discriminate | vm_compute; reflexivity].
  - apply H3. vm_compute. reflexivity.
Defined.

(** The registry against its view: a run of [findVSpaceForASID] always
    finishes, changes the lookup-fault relay at most, and succeeds exactly
    when [asid_root] has a root. *)
Lemma findVSpaceForASID_run (P : platform) asid s :
  exists r s',
    findVSpaceForASID P asid s = Done r s'
    /\ relay_only s s'
    /\ match asid_root P s asid with
       | Some root => r = {| fv_status := EXCEPTION_NONE; vspace_root := root |} /\ s' = s
       | None => r = {| fv_status := EXCEPTION_LOOKUP_FAULT; vspace_root := 0 |}
       end.
Proof.
  unfold findVSpaceForASID, asid_root, asid_entry_of, asid_pool_of. munfold.
  destruct (riscvKSASIDTable s (Z.shiftr asid (asidLowBits P)) =? 0).
  - eexists _, _. split; [reflexivity|]. split; [apply relay_only_lookup_fault | reflexivity].
  - destruct (ks_mem s _ =? 0).
    + eexists _, _. split; [reflexivity|]. split; [apply relay_only_lookup_fault | reflexivity].
    + eexists _, _. split; [reflexivity|]. split; [apply relay_only_refl | split; reflexivity].
Qed.

Lemma asid_root_relay (P : platform) s s' asid :
  relay_only s s' -> asid_root P s' asid = asid_root P s asid.
Proof.
  intros (lf & se & ->). reflexivity.
Qed.

Lemma vtable_root_b_relay (P : platform) s s' cap :
  relay_only s s' -> vtable_root_b P s' cap = vtable_root_b P s cap.
Proof.
  intros (lf & se & ->). reflexivity.
Qed.

(** [isVTableRoot] against its view. *)
Lemma isVTableRoot_run (P : platform) cap s :
  exists s', isVTableRoot P cap s = Done (vtable_root_b P s cap) s' /\ relay_only s s'.
Proof.
  unfold isVTableRoot.
  destruct (findVSpaceForASID_run P (cap_page_table_cap_get_capPTMappedASID P cap) s)
    as (r & s' & E & R & V).
  exists s'. split; [|exact R].
  rewrite (bind_Done _ _ _ _ _ E). unfold ret. f_equal.
  destruct cap; try reflexivity.
  simpl in *. unfold vtable_root_b.
  destruct (asid_root P s capPTMappedASID) as [root|].
  - destruct V as [-> _]. reflexivity.
  - rewrite V. simpl. reflexivity.
Qed.

(** ** VM fault translator *)

(** C4, as the code has it: every recognized trap cause yields exactly one
    of the load-, store- or instruction-access faults carrying the faulting
    address; load and store faults leave every register alone; for an
    instruction fault the thread's [NEXTPC] is first set to its own [SEPC]
    (the address of the faulting instruction, not an address past it) and
    then the fault is recorded; any other cause halts the kernel. *)
Theorem handleVMFault_translation :
  forall (thread : Z) (cause : vm_fault_type_t) (s : kstate),
    let addr := csr_sbadaddr s in
    (is_load_cause cause = true ->
       handleVMFault thread cause s =
       Done EXCEPTION_FAULT
            (with_fault (seL4_Fault_VMFault_new addr RISCVLoadAccessFault false) s))
    /\ (is_store_cause cause = true ->
          handleVMFault thread cause s =
          Done EXCEPTION_FAULT
               (with_fault (seL4_Fault_VMFault_new addr RISCVStoreAccessFault false) s))
    /\ (is_instruction_cause cause = true ->
          handleVMFault thread cause s =
          Done EXCEPTION_FAULT
               (with_fault (seL4_Fault_VMFault_new addr RISCVInstructionAccessFault true)
                  (with_regs (fun t r => if (t =? thread) && register_eqb r NEXTPC
                                         then ks_regs s thread SEPC
                                         else ks_regs s t r) s)))
    /\ (recognized_cause cause = false -> handleVMFault thread cause s = Halt).
Proof.
  intros thread cause s addr.
  repeat split; intros H; destruct cause; try discriminate H; reflexivity.
Qed.

(** C4 as stated fails: after an instruction page fault of thread 1, whose
    faulting instruction sits at [SEPC = 0x1000], the next-instruction
    register equals [0x1000]; it has not moved past the instruction. *)
Lemma handleVMFault_nextpc_not_advanced :
  exists s',
    handleVMFault 1 RISCVInstructionPageFault trapped_state = Done EXCEPTION_FAULT s'
    /\ ks_regs trapped_state 1 SEPC = 0x1000
    /\ ks_regs s' 1 NEXTPC = 0x1000
    /\ ~ (ks_regs trapped_state 1 SEPC < ks_regs s' 1 NEXTPC).
Proof.
  eexists. split; [reflexivity|].
  split; [reflexivity|]. split; [reflexivity|].
  vm_compute. intros H; discriminate H.
Qed.

(** Witness for C4: the three kinds of fault and a cause the translator has
    no case for, on [trapped_state]. *)
Lemma handleVMFault_translation_witness :
  handleVMFault 1 RISCVLoadPageFault trapped_state
  = Done EXCEPTION_FAULT
      (with_fault (seL4_Fault_VMFault_new 0x2000 RISCVLoadAccessFault false) trapped_state)
  /\ handleVMFault 1 RISCVEnvCall trapped_state = Halt.
Proof.
  destruct (handleVMFault_translation 1 RISCVLoadPageFault trapped_state) as (H1 & _).
  destruct (handleVMFault_translation 1 RISCVEnvCall trapped_state) as (_ & _ & _ & H4).
  split; [apply H1; reflexivity | apply H4; reflexivity].
Defined.

(** ** Page-table walker *)

Lemma assert_true P b s : b = true -> assert P b s = Done tt s.
Proof. intros ->. unfold assert. rewrite andb_false_r. reflexivity. Qed.

Lemma assert_Done P b s u s' : assert P b s = Done u s' -> s' = s.
Proof.
  unfold assert. destruct (CONFIG_DEBUG_BUILD P && negb b); [discriminate|].
  intros H; inversion H; reflexivity.
Qed.

Lemma assert_weaken P b1 b2 s u s' :
  assert P b1 s = Done u s' -> (b1 = true -> b2 = true) -> assert P b2 s = Done tt s.
Proof.
  unfold assert. destruct (CONFIG_DEBUG_BUILD P); simpl.
  - destruct b1; [|discriminate]. intros _ H. rewrite H by reflexivity. reflexivity.
  - reflexivity.
Qed.

Lemma getPPtrFromHWPTE_Done P pte s pt s' :
  getPPtrFromHWPTE P pte s = Done pt s' ->
  s' = s /\
  pt = ptrFromPAddr P (word (Z.shiftl (Z.shiftr (ks_mem s pte) PTE_PPN_SHIFT)
                                      seL4_PageTableBits)).
Proof.
  unfold getPPtrFromHWPTE. munfold.
  destruct (assert P (isValidHWPageTable (ks_mem s pte)) s) as [u s1| |] eqn:E;
    try discriminate.
  apply assert_Done in E. subst s1.
  intros H; inversion H; subst. split; reflexivity.
Qed.

(** What a finished run of the walker loop returns: either the slot reached
    after all [n] steps, with the state untouched, or a fault at the first
    all-zero entry, met at level [j - 1], with the fault relay sized to that
    level; in the second case the walk cut short after [j - i] steps ends
    on the same slot without a fault. *)
Lemma lookupPTSlot_loop_spec (P : platform) n :
  forall i vptr slot s r s',
    lookupPTSlot_loop P n i vptr slot s = Done r s' ->
    (exists p, r = walk_ok p /\ s' = s)
    \/ (exists p j,
          r = walk_missing p j
          /\ i <= j < i + Z.of_nat n
          /\ ks_mem s p = 0
          /\ s' = with_lookup_fault
                    (lookup_fault_missing_capability_new
                       (RISCV_GET_LVL_PGSIZE_BITS P (j - 1))) s
          /\ lookupPTSlot_loop P (Z.to_nat (j - i)) i vptr slot s = Done (walk_ok p) s).
Proof.
  induction n as [|n IH]; intros i vptr slot s r s' H.
  - simpl in H. inversion H; subst. left. exists slot. split; reflexivity.
  - simpl in H. revert H. munfold.
    destruct (ks_mem s slot =? 0) eqn:Ez.
    + intros H. inversion H; subst. right. exists slot, i.
      apply Z.eqb_eq in Ez.
      split; [reflexivity|]. split; [lia|]. split; [exact Ez|]. split; [reflexivity|].
      rewrite Z.sub_diag. reflexivity.
    + destruct (getPPtrFromHWPTE P slot s) as [pt s1| |] eqn:Eg; try discriminate.
      destruct (getPPtrFromHWPTE_Done _ _ _ _ _ Eg) as [-> Hpt].
      intros H. apply IH in H.
      destruct H as [(p & -> & ->) | (p & j & -> & Hj & Hz & -> & Hw)].
      * left. exists p. split; reflexivity.
      * right. exists p, j.
        split; [reflexivity|]. split; [lia|]. split; [exact Hz|]. split; [reflexivity|].
        replace (Z.to_nat (j - i)) with (S (Z.to_nat (j - (i + 1)))) by lia.
        simpl. munfold. rewrite Ez, Eg. exact Hw.
Qed.

(** The same for [lookupPTSlot] on a non-null root. *)
Lemma lookupPTSlot_spec (P : platform) lvl1pt vptr ptLevel s r s' :
  lvl1pt <> 0 ->
  lookupPTSlot P lvl1pt vptr ptLevel s = Done r s' ->
  (exists p, r = walk_ok p /\ s' = s)
  \/ (exists p j,
        r = walk_missing p j
        /\ 2 <= j <= ptLevel
        /\ ks_mem s p = 0
        /\ s' = with_lookup_fault
                  (lookup_fault_missing_capability_new
                     (RISCV_GET_LVL_PGSIZE_BITS P (j - 1))) s
        /\ lookupPTSlot P lvl1pt vptr (j - 1) s = Done (walk_ok p) s).
Proof.
  intros Hroot. unfold lookupPTSlot.
  apply Z.eqb_neq in Hroot. rewrite Hroot.
  intros H. apply bind_Done_inv in H. destruct H as ([] & s1 & Ha & H).
  pose proof (assert_Done _ _ _ _ _ Ha) as ->.
  apply lookupPTSlot_loop_spec in H.
  destruct H as [(p & -> & ->) | (p & j & -> & Hj & Hz & -> & Hw)].
  - left. exists p. split; reflexivity.
  - right. exists p, j.
    split; [reflexivity|]. split; [lia|]. split; [exact Hz|]. split; [reflexivity|].
    assert (Ha' : assert P (j - 1 <=? CONFIG_PT_LEVELS P) s = Done tt s).
    { eapply assert_weaken; [exact Ha|]. intros Hle.
      apply Z.leb_le in Hle. apply Z.leb_le. lia. }
    rewrite (bind_Done _ _ _ _ _ Ha').
    replace (Z.to_nat (j - 1 - 1)) with (Z.to_nat (j - 2)) by lia.
    exact Hw.
Qed.

(** A walk that ends on an all-zero entry makes every deeper walk stop
    there, with the fault sized to the level of that entry. *)
Lemma lookupPTSlot_loop_missing (P : platform) n :
  forall i vptr slot s p m,
    lookupPTSlot_loop P n i vptr slot s = Done (walk_ok p) s ->
    ks_mem s p = 0 ->
    lookupPTSlot_loop P (n + S m) i vptr slot s
    = Done (walk_missing p (i + Z.of_nat n))
        (with_lookup_fault
           (lookup_fault_missing_capability_new
              (RISCV_GET_LVL_PGSIZE_BITS P (i + Z.of_nat n - 1))) s).
Proof.
  induction n as [|n IH]; intros i vptr slot s p m H Hz.
  - cbn [lookupPTSlot_loop] in H. unfold ret, walk_ok in H. inversion H; subst p.
    cbn [Nat.add lookupPTSlot_loop]. munfold. rewrite Hz. cbn [Z.eqb].
    change (Z.of_nat 0) with 0. rewrite Z.add_0_r. reflexivity.
  - revert H. cbn [Nat.add lookupPTSlot_loop]. munfold.
    destruct (ks_mem s slot =? 0) eqn:Ez.
    + unfold walk_ok. intros H. inversion H.
    + destruct (getPPtrFromHWPTE P slot s) as [pt s1| |] eqn:Eg; try discriminate.
      destruct (getPPtrFromHWPTE_Done _ _ _ _ _ Eg) as [-> Hpt].
      intros H. rewrite (IH _ _ _ _ _ m H Hz).
      replace (i + 1 + Z.of_nat n) with (i + Z.of_nat (S n)) by lia. reflexivity.
Qed.

(** C2, as the code has it: walking a non-null, all-zero root to any level
    from 2 up to the configured depth stops at the root's own entry and
    reports a missing-capability fault sized to the granularity of level 1,
    the level the walk was at (with [missingPTLevel = 2]), whatever the
    target level; a walk to level 1 returns the root's slot with no fault.
    In any table hierarchy, the walk reports a fault only on an all-zero
    entry: the entry of the slot [p] on which the walk to some level
    [j - 1] below the target ends, [j - 1] being the level the walk had
    reached; the fault is then sized to the granularity of level [j - 1]
    and [missingPTLevel] is [j].  Conversely, whenever the walk to a level
    [j - 1] below the target ends on a slot holding an all-zero entry, the
    walk to the target reports exactly that fault. *)
Theorem lookupPTSlot_empty_root (P : platform) :
  forall (lvl1pt vptr ptLevel : Z) (s : kstate),
    lvl1pt <> 0 ->
    empty_table s lvl1pt ->
    ptLevel <= CONFIG_PT_LEVELS P ->
    let slot := ptr_index lvl1pt (RISCV_GET_PT_INDEX P vptr 1) in
    (2 <= ptLevel ->
       lookupPTSlot P lvl1pt vptr ptLevel s =
       Done (walk_missing slot 2)
            (with_lookup_fault
               (lookup_fault_missing_capability_new (RISCV_GET_LVL_PGSIZE_BITS P 1)) s))
    /\ (ptLevel <= 1 -> lookupPTSlot P lvl1pt vptr ptLevel s = Done (walk_ok slot) s)
    /\ (forall s0 r s',
          lookupPTSlot P lvl1pt vptr ptLevel s0 = Done r s' ->
          lu_status r = EXCEPTION_LOOKUP_FAULT ->
          exists p j,
            r = walk_missing p j
            /\ 2 <= j <= ptLevel
            /\ lookupPTSlot P lvl1pt vptr (j - 1) s0 = Done (walk_ok p) s0
            /\ ks_mem s0 p = 0
            /\ s' = with_lookup_fault
                      (lookup_fault_missing_capability_new
                         (RISCV_GET_LVL_PGSIZE_BITS P (j - 1))) s0)
    /\ (forall s0 p j,
          2 <= j <= ptLevel ->
          lookupPTSlot P lvl1pt vptr (j - 1) s0 = Done (walk_ok p) s0 ->
          ks_mem s0 p = 0 ->
          lookupPTSlot P lvl1pt vptr ptLevel s0
          = Done (walk_missing p j)
              (with_lookup_fault
                 (lookup_fault_missing_capability_new
                    (RISCV_GET_LVL_PGSIZE_BITS P (j - 1))) s0)).
Proof.
  intros lvl1pt vptr ptLevel s Hroot Hempty Hlvl slot.
  assert (Ha : forall t, assert P (ptLevel <=? CONFIG_PT_LEVELS P) t = Done tt t).
  { intros t. apply assert_true. apply Z.leb_le. exact Hlvl. }
  pose proof Hroot as Hroot'. apply Z.eqb_neq in Hroot'.
  split; [|split; [|split]].
  - intros H2. unfold lookupPTSlot.
    rewrite (bind_Done _ _ _ _ _ (Ha s)), Hroot'.
    replace (Z.to_nat (ptLevel - 1)) with (S (Z.to_nat (ptLevel - 2))) by lia.
    simpl. munfold.
    rewrite (Hempty _ (PT_INDEX_range P vptr 1)). reflexivity.
  - intros H1. unfold lookupPTSlot.
    rewrite (bind_Done _ _ _ _ _ (Ha s)), Hroot'.
    replace (Z.to_nat (ptLevel - 1)) with O by lia.
    reflexivity.
  - intros s0 r s' H Hst.
    destruct (lookupPTSlot_spec _ _ _ _ _ _ _ Hroot H)
      as [(p & -> & ->) | (p & j & -> & Hj & Hz & -> & Hw)].
    + discriminate Hst.
    + exists p, j. split; [reflexivity|]. split; [exact Hj|].
      split; [exact Hw|]. split; [exact Hz | reflexivity].
  - intros s0 p j Hj Hw Hz.
    unfold lookupPTSlot in Hw.
    apply bind_Done_inv in Hw. destruct Hw as ([] & s1 & Hb & Hw).
    pose proof (assert_Done _ _ _ _ _ Hb) as ->.
    rewrite Hroot' in Hw.
    unfold lookupPTSlot.
    rewrite (bind_Done _ _ _ _ _ (Ha s0)), Hroot'.
    replace (Z.to_nat (ptLevel - 1))
      with (Z.to_nat (j - 1 - 1) + S (Z.to_nat (ptLevel - j)))%nat by lia.
    rewrite (lookupPTSlot_loop_missing P _ _ _ _ _ _ (Z.to_nat (ptLevel - j)) Hw Hz).
    replace (2 + Z.of_nat (Z.to_nat (j - 1 - 1))) with j by lia.
    reflexivity.
Qed.

(** C2 as stated fails: on the three-level platform, a walk of an all-zero
    root at [0x1000] to level 3 reports the fault with the 30 bits of
    level 1, not the 12 bits of level 3; and a walk to level 1 reports no
    fault at all. *)
Lemma lookupPTSlot_empty_root_not_target_sized :
  empty_table blank_state 0x1000
  /\ RISCV_GET_LVL_PGSIZE_BITS sv39 3 = 12
  /\ (exists r s',
        lookupPTSlot sv39 0x1000 0 3 blank_state = Done r s'
        /\ lu_status r = EXCEPTION_LOOKUP_FAULT
        /\ current_lookup_fault s' = lookup_fault_missing_capability_new 30
        /\ current_lookup_fault s' <>
           lookup_fault_missing_capability_new (RISCV_GET_LVL_PGSIZE_BITS sv39 3))
  /\ (exists r s',
        lookupPTSlot sv39 0x1000 0 1 blank_state = Done r s'
        /\ lu_status r = EXCEPTION_NONE
        /\ current_lookup_fault s' = lookup_fault_null).
Proof.
  split; [intros i _; reflexivity|].
  split; [reflexivity|].
  split.
  - eexists _, _. split; [vm_compute; reflexivity|].
    split; [reflexivity|]. split; [reflexivity|].
    vm_compute. intros H; discriminate H.
  - eexists _, _. split; [vm_compute; reflexivity|].
    split; reflexivity.
Qed.

(** Witness for C2: the three-level platform, an all-zero root at [0x1000],
    target level 3. *)
Lemma lookupPTSlot_empty_root_witness :
  lookupPTSlot sv39 0x1000 0 3 blank_state =
  Done (walk_missing (ptr_index 0x1000 (RISCV_GET_PT_INDEX sv39 0 1)) 2)
       (with_lookup_fault
          (lookup_fault_missing_capability_new (RISCV_GET_LVL_PGSIZE_BITS sv39 1))
          blank_state).
Proof.
  refine (proj1 (lookupPTSlot_empty_root sv39 0x1000 0 3 blank_state _ _ _) _).
  - discriminate.
  - intros i _. reflexivity.
  - simpl. lia.
  - lia.
Defined.

(** ** Kernel image switch *)

Lemma word_sub_step a k :
  word (word (a - 8 * Z.of_nat k) - 8) = word (a - 8 * Z.of_nat (S k)).
Proof.
  unfold word. rewrite Zminus_mod_idemp_l. f_equal. lia.
Qed.

Lemma copy_stack_S fuel stack_p image_p sp m tr :
  copy_stack (S fuel) stack_p image_p sp m tr =
  if stack_p =? sp then Some (m, tr)
  else copy_stack fuel (word (stack_p - 8)) (word (image_p - 8)) sp
         (upd m (word (image_p - 8)) (m (word (stack_p - 8))))
         (tr ++ [EvCopyWord (word (stack_p - 8)) (word (image_p - 8))]).
Proof. reflexivity. Qed.

(** The copy loop leaves after exactly [n] iterations when the stack
    pointer lies [n] words below the current source pointer. *)
Lemma copy_stack_run n :
  forall (j fuel : nat) (stack_p image_p sp : Z) (m : Z -> Z) (tr : list hw_event),
    (n <= fuel)%nat ->
    0 <= sp ->
    stack_p < 2 ^ wordBits ->
    stack_p - 8 * Z.of_nat j = sp + 8 * Z.of_nat n ->
    copy_stack fuel (word (stack_p - 8 * Z.of_nat j)) (word (image_p - 8 * Z.of_nat j)) sp m tr
    = Some (copied_stack n j stack_p image_p m,
            tr ++ map (fun k => EvCopyWord (word (stack_p - 8 * Z.of_nat k))
                                           (word (image_p - 8 * Z.of_nat k)))
                      (seq (S j) n)).
Proof.
  induction n as [|n IH]; intros j fuel stack_p image_p sp m tr Hf Hsp Hmax Hn.
  - assert (E : word (stack_p - 8 * Z.of_nat j) = sp).
    { unfold word. rewrite Z.mod_small; lia. }
    rewrite E. simpl. rewrite app_nil_r.
    destruct fuel; simpl; rewrite Z.eqb_refl; reflexivity.
  - destruct fuel as [|fuel]; [lia|].
    assert (E : word (stack_p - 8 * Z.of_nat j) = stack_p - 8 * Z.of_nat j).
    { unfold word. rewrite Z.mod_small; lia. }
    rewrite copy_stack_S.
    assert (Hne : (word (stack_p - 8 * Z.of_nat j) =? sp) = false).
    { rewrite E. apply Z.eqb_neq. lia. }
    rewrite Hne. rewrite !word_sub_step.
    rewrite IH by lia.
    cbn [copied_stack seq map]. rewrite <- app_assoc. reflexivity.
Qed.

(** With source and destination regions apart, the copy puts under the
    image base exactly the words under the stack base and changes nothing
    else. *)
Lemma copied_stack_contents n :
  forall (j : nat) (stack_p image_p : Z) (m : Z -> Z),
    8 * Z.of_nat (j + n) <= stack_p < 2 ^ wordBits ->
    8 * Z.of_nat (j + n) <= image_p < 2 ^ wordBits ->
    (image_p <= stack_p - 8 * Z.of_nat (j + n) \/ stack_p <= image_p - 8 * Z.of_nat (j + n)) ->
    (forall k, Z.of_nat j < k <= Z.of_nat (j + n) ->
               copied_stack n j stack_p image_p m (image_p - 8 * k) = m (stack_p - 8 * k))
    /\ (forall a, (forall k, Z.of_nat j < k <= Z.of_nat (j + n) -> a <> image_p - 8 * k) ->
                  copied_stack n j stack_p image_p m a = m a).
Proof.
  induction n as [|n IH]; intros j stack_p image_p m Hs Hi Hd.
  - split; [intros k Hk; lia | intros a _; reflexivity].
  - cbn [copied_stack].
    assert (Ws : word (stack_p - 8 * Z.of_nat (S j)) = stack_p - 8 * Z.of_nat (S j))
      by (unfold word; rewrite Z.mod_small; lia).
    assert (Wi : word (image_p - 8 * Z.of_nat (S j)) = image_p - 8 * Z.of_nat (S j))
      by (unfold word; rewrite Z.mod_small; lia).
    rewrite Ws, Wi.
    destruct (IH (S j) stack_p image_p
                 (upd m (image_p - 8 * Z.of_nat (S j)) (m (stack_p - 8 * Z.of_nat (S j)))))
      as [IH1 IH2]; try lia.
    split.
    + intros k Hk.
      destruct (Z.eq_dec k (Z.of_nat (S j))) as [->|Hne].
      * rewrite IH2 by (intros k' Hk'; lia).
        unfold upd. rewrite Z.eqb_refl. reflexivity.
      * rewrite IH1 by lia. unfold upd.
        destruct (stack_p - 8 * k =? image_p - 8 * Z.of_nat (S j)) eqn:E; [|reflexivity].
        apply Z.eqb_eq in E. lia.
    + intros a Ha. rewrite IH2 by (intros k Hk; apply Ha; lia).
      unfold upd.
      destruct (a =? image_p - 8 * Z.of_nat (S j)) eqn:E; [|reflexivity].
      apply Z.eqb_eq in E. exfalso. apply (Ha (Z.of_nat (S j))); [lia | exact E].
Qed.

(** C3, as the code has it.  Switching to an image whose stack-initialized
    flag is set performs only the root-register write.  Switching to one
    whose flag is clear, with [n] live words between the stack pointer and
    the stack base, first copies those words from under the shared stack
    base to under the image's private base, highest address first, while
    the old root is active; then issues the barrier; then installs the new
    root; and only after that sets the flag.  With the two regions apart,
    the private region ends up holding the live stack words. *)
Theorem Arch_setKernelImage_sequence (P : platform) :
  forall (st : ki_machine) (n fuel : nat),
    let image := km_image st in
    let stack_p := kernelStackBase P in
    let image_p := word (kernelImageVPtr P (kiRoot image) (word (stack_p - 1)) + 1) in
    let root := addrFromPPtr P (kiRoot image) in
    0 <= km_sp st ->
    stack_p = km_sp st + 8 * Z.of_nat n ->
    stack_p < 2 ^ wordBits ->
    (n <= fuel)%nat ->
    (kiStackInitted image = true ->
       Arch_setKernelImage P fuel st =
       Some {| km_mem := km_mem st; km_sp := km_sp st;
               km_satp := Some (root, kiASID image);
               km_image := image;
               km_trace := km_trace st ++ [EvSetVSpaceRoot root (kiASID image)] |})
    /\ (kiStackInitted image = false ->
          exists st',
            Arch_setKernelImage P fuel st = Some st'
            /\ km_trace st' =
               km_trace st ++ copy_events n stack_p image_p
                 ++ [EvFence; EvSetVSpaceRoot root (kiASID image); EvSetStackInitted]
            /\ km_satp st' = Some (root, kiASID image)
            /\ km_image st' = {| kiRoot := kiRoot image; kiASID := kiASID image;
                                 kiStackInitted := true |}
            /\ (8 * Z.of_nat n <= image_p ->
                (image_p <= km_sp st \/ stack_p <= image_p - 8 * Z.of_nat n) ->
                forall k, 1 <= k <= Z.of_nat n ->
                          km_mem st' (image_p - 8 * k) = km_mem st (stack_p - 8 * k))).
Proof.
  intros st n fuel image stack_p image_p root Hsp Hn Hmax Hfuel.
  unfold Arch_setKernelImage. fold image. fold stack_p. fold image_p. fold root.
  split.
  - intros ->. reflexivity.
  - intros ->.
    pose proof (copy_stack_run n 0 fuel stack_p image_p (km_sp st) (km_mem st) (km_trace st)
                  Hfuel Hsp Hmax) as Hrun.
    assert (Ws : word (stack_p - 8 * Z.of_nat 0) = stack_p).
    { unfold word. rewrite Z.sub_0_r. apply Z.mod_small. lia. }
    assert (Wi : word (image_p - 8 * Z.of_nat 0) = image_p).
    { unfold image_p, word. rewrite Z.sub_0_r. apply Z.mod_mod. discriminate. }
    rewrite Ws, Wi in Hrun. rewrite Hrun by lia.
    eexists. split; [reflexivity|].
    cbn [km_trace km_satp km_image km_mem setVSpaceRoot].
    split.
    { unfold copy_events. rewrite <- !app_assoc. reflexivity. }
    split; [reflexivity|]. split; [reflexivity|].
    intros Hi Hd k Hk.
    assert (Hib : image_p < 2 ^ wordBits)
      by (unfold image_p, word; apply Z.mod_pos_bound; reflexivity).
    assert (Hc := copied_stack_contents n 0 stack_p image_p (km_mem st)).
    rewrite Nat.add_0_l in Hc.
    clearbody image_p stack_p.
    destruct Hc as [Hc _]; [lia | lia | lia |].
    apply Hc. lia.
Qed.

(** C3 as stated fails: on the first switch to an image the flag is not set
    before the root is installed.  With two live stack words the steps are
    copy, copy, barrier, root-register write, flag. *)
Lemma Arch_setKernelImage_flag_after_root :
  exists st',
    Arch_setKernelImage sv39 2 first_switch = Some st'
    /\ km_trace st' =
       [EvCopyWord 0xFFFFFFFF801FFFF8 0xFFFFFFFF800FFFF8;
        EvCopyWord 0xFFFFFFFF801FFFF0 0xFFFFFFFF800FFFF0;
        EvFence;
        EvSetVSpaceRoot 0x80300000 2;
        EvSetStackInitted]
    /\ event_before isSetStackInitted isSetVSpaceRoot (km_trace st') = false
    /\ event_before isSetVSpaceRoot isSetStackInitted (km_trace st') = true.
Proof.
  eexists. split; [vm_compute; reflexivity|].
  repeat split; vm_compute; reflexivity.
Qed.

(** Witness for C3: the first switch of [first_switch], two live words. *)
Lemma Arch_setKernelImage_sequence_witness :
  exists st',
    Arch_setKernelImage sv39 2 first_switch = Some st'
    /\ km_trace st' =
       km_trace first_switch
       ++ copy_events 2 0xFFFFFFFF80200000 0xFFFFFFFF80100000
       ++ [EvFence; EvSetVSpaceRoot 0x80300000 2; EvSetStackInitted].
Proof.
  destruct (Arch_setKernelImage_sequence sv39 first_switch 2 2) as [_ H].
  - vm_compute. discriminate.
  - reflexivity.
  - reflexivity.
  - lia.
  - destruct (H eq_refl) as (st' & E & T & _).
    exists st'. split; [exact E | exact T].
Defined.

(** ** Decode failures leave the state alone *)

Lemma failure_readonly_of_readonly (m : M exception_t) :
  readonly m -> failure_readonly m.
Proof. intros H s r s' E _. eapply H; eassumption. Qed.

Lemma failure_readonly_of_infallible (m : M exception_t) :
  infallible m -> failure_readonly m.
Proof. intros H s r s' E N. exfalso. apply N. eapply H; eassumption. Qed.

Lemma failure_readonly_bind {A} (m : M A) (k : A -> M exception_t) :
  readonly m -> (forall a, failure_readonly (k a)) -> failure_readonly (bind m k).
Proof.
  intros Hm Hk s r s' E N.
  apply bind_Done_inv in E. destruct E as (a & s1 & E1 & E2).
  eapply relay_only_trans; [eapply Hm | eapply Hk]; eassumption.
Qed.

Lemma failure_readonly_if (b : bool) (m1 m2 : M exception_t) :
  failure_readonly m1 -> failure_readonly m2 -> failure_readonly (if b then m1 else m2).
Proof. destruct b; auto. Qed.

Lemma infallible_ret_none : infallible (ret EXCEPTION_NONE).
Proof. intros s r s' E. inversion E; reflexivity. Qed.

Lemma infallible_bind {A} (m : M A) (k : A -> M exception_t) :
  (forall a, infallible (k a)) -> infallible (bind m k).
Proof.
  intros Hk s r s' E.
  apply bind_Done_inv in E. destruct E as (a & s1 & _ & E2).
  eapply Hk; eassumption.
Qed.

(** Solves [infallible] goals: every executor path ends in
    [return EXCEPTION_NONE]. *)
Ltac inf_step :=
  match goal with
  | |- infallible (ret EXCEPTION_NONE) => apply infallible_ret_none
  | |- infallible (bind _ _) => apply infallible_bind; intros ?
  | |- infallible (let _ := _ in _) => cbv zeta
  | |- infallible ?m => let h := head_of m in unfold h
  end
with head_of t :=
  match t with
  | ?f _ => head_of f
  | _ => t
  end.
Ltac inf := repeat inf_step.

Lemma infallible_performPageTableInvocationMap cap ctSlot pte ptSlot :
  infallible (performPageTableInvocationMap cap ctSlot pte ptSlot).
Proof. unfold performPageTableInvocationMap. inf. Qed.

Lemma infallible_performPageTableInvocationUnmap P cap ctSlot :
  infallible (performPageTableInvocationUnmap P cap ctSlot).
Proof. unfold performPageTableInvocationUnmap. inf. Qed.

Lemma infallible_updatePTE pte entries : infallible (updatePTE pte entries).
Proof. unfold updatePTE. inf. Qed.

Lemma infallible_performPageInvocationMapPTE cap ctSlot pte entries :
  infallible (performPageInvocationMapPTE cap ctSlot pte entries).
Proof.
  unfold performPageInvocationMapPTE. apply infallible_bind. intros _.
  apply infallible_updatePTE.
Qed.

Lemma infallible_performPageInvocationUnmap P cap ctSlot :
  infallible (performPageInvocationUnmap P cap ctSlot).
Proof. unfold performPageInvocationUnmap. inf. Qed.

Lemma infallible_performPageGetAddress P vbase :
  infallible (performPageGetAddress P vbase).
Proof. unfold performPageGetAddress. inf. Qed.

Lemma infallible_performASIDControlInvocation P frame slot parent asid_base :
  infallible (performASIDControlInvocation P frame slot parent asid_base).
Proof. unfold performASIDControlInvocation. inf. Qed.

Lemma infallible_performASIDPoolInvocation P asid poolPtr vspaceCapSlot :
  infallible (performASIDPoolInvocation P asid poolPtr vspaceCapSlot).
Proof. unfold performASIDPoolInvocation. inf. Qed.

Create HintDb kernel_inf.
#[local] Hint Resolve infallible_performPageTableInvocationMap
  infallible_performPageTableInvocationUnmap infallible_updatePTE
  infallible_performPageInvocationMapPTE infallible_performPageInvocationUnmap
  infallible_performPageGetAddress infallible_performASIDControlInvocation
  infallible_performASIDPoolInvocation : kernel_inf.

Lemma readonly_syscall_error f : readonly (syscall_error f).
Proof. unfold syscall_error. ro. Qed.

Lemma readonly_invalid_cap_error n : readonly (invalid_cap_error n).
Proof. unfold invalid_cap_error. apply readonly_syscall_error. Qed.

Lemma readonly_failed_lookup_error : readonly failed_lookup_error.
Proof. unfold failed_lookup_error. apply readonly_syscall_error. Qed.

#[local] Hint Resolve readonly_syscall_error readonly_invalid_cap_error
  readonly_failed_lookup_error : kernel_ro.

(** Follows the decoder: checks are read-only, and once the thread is
    restarted only an executor, which cannot fail, remains. *)
Ltac fro_step :=
  match goal with
  | |- failure_readonly (let _ := _ in _) => cbv zeta
  | |- failure_readonly (bind (restart_current_thread _) _) =>
      apply failure_readonly_of_infallible; apply infallible_bind; intros ?;
      solve [ auto with kernel_inf ]
  | |- failure_readonly (bind _ _) =>
      apply failure_readonly_bind; [ solve [ ro ] | intros ? ]
  | |- failure_readonly (if _ then _ else _) => apply failure_readonly_if
  | |- failure_readonly (match ?x with _ => _ end) => destruct x
  | |- failure_readonly _ => apply failure_readonly_of_readonly; solve [ ro ]
  end.
Ltac fro := repeat fro_step.

Lemma failure_readonly_decodeRISCVPageTableInvocation P label length cte cap extraCaps buffer :
  failure_readonly (decodeRISCVPageTableInvocation P label length cte cap extraCaps buffer).
Proof. unfold decodeRISCVPageTableInvocation. fro. Qed.

Lemma failure_readonly_decodeRISCVFrameInvocation P label length cte cap extraCaps buffer :
  failure_readonly (decodeRISCVFrameInvocation P label length cte cap extraCaps buffer).
Proof. unfold decodeRISCVFrameInvocation. fro. Qed.

Lemma failure_readonly_decodeRISCVMMUInvocation P label length cptr cte cap extraCaps buffer :
  services_readonly P ->
  failure_readonly (decodeRISCVMMUInvocation P label length cptr cte cap extraCaps buffer).
Proof.
  intros (Hchildren & Htarget & Hempty).
  unfold decodeRISCVMMUInvocation.
  destruct (cap_get_capType cap).
  - apply failure_readonly_of_readonly. ro.
  - apply failure_readonly_of_readonly. ro.
  - apply failure_readonly_decodeRISCVFrameInvocation.
  - apply failure_readonly_decodeRISCVPageTableInvocation.
  - fro.
  - fro.
  - apply failure_readonly_of_readonly. ro.
Qed.

(** C5: whenever the decode phase of an MMU invocation (page-table, frame,
    ASID-control or ASID-pool) reports an error, no page-table entry, pool
    entry, ASID-table entry, capability slot or register has been modified:
    the final state differs from the initial one in the two error relays at
    most.  The capability-space services consulted by the ASID-control
    decoder are taken to be inspections. *)
Theorem decode_failure_preserves_state (P : platform) :
  services_readonly P ->
  forall (label : invocation_label) (length cptr cte : Z) (cap : cap_t)
         (extraCaps : list Z) (buffer : Z) (s s' : kstate) (r : exception_t),
    decodeRISCVMMUInvocation P label length cptr cte cap extraCaps buffer s = Done r s' ->
    r <> EXCEPTION_NONE ->
    ks_mem s' = ks_mem s
    /\ ks_cte s' = ks_cte s
    /\ riscvKSASIDTable s' = riscvKSASIDTable s
    /\ ks_regs s' = ks_regs s
    /\ relay_only s s'.
Proof.
  intros Hsvc label length cptr cte cap extraCaps buffer s s' r E N.
  assert (R : relay_only s s').
  { eapply failure_readonly_decodeRISCVMMUInvocation; eassumption. }
  split; [apply relay_only_mem; exact R|].
  split; [apply relay_only_cte; exact R|].
  split; [apply relay_only_table; exact R|].
  split; [apply relay_only_regs; exact R | exact R].
Qed.

Lemma services_readonly_sv39 : services_readonly sv39.
Proof.
  split; [|split]; intros; simpl; apply readonly_ret.
Qed.

(** Witness for C5: a [RISCVPageTableMap] in the populated system whose
    target address lies in the kernel window is refused with
    [seL4_InvalidArgument]; nothing but the relays has changed. *)
Lemma decode_failure_preserves_state_witness :
  exists s',
    decodeRISCVMMUInvocation sv39 RISCVPageTableMap 2 0 700 it_pt2_cap [200] 0
      (with_arg0 0xFFFFFFFF80000000 mapped_pt_state)
    = Done EXCEPTION_SYSCALL_ERROR s'
    /\ se_type (current_syscall_error s') = seL4_InvalidArgument
    /\ ks_mem s' = ks_mem (with_arg0 0xFFFFFFFF80000000 mapped_pt_state)
    /\ ks_cte s' = ks_cte (with_arg0 0xFFFFFFFF80000000 mapped_pt_state).
Proof.
  eexists. split; [vm_compute; reflexivity|].
  split; [reflexivity|].
  match goal with
  | |- ks_mem ?s' = _ /\ _ =>
      destruct (decode_failure_preserves_state sv39 services_readonly_sv39
                  RISCVPageTableMap 2 0 700 it_pt2_cap [200] 0
                  (with_arg0 0xFFFFFFFF80000000 mapped_pt_state) s' EXCEPTION_SYSCALL_ERROR)
        as (Hm & Hc & _)
  end.
  - vm_compute. reflexivity.
  - discriminate.
  - split; [exact Hm | exact Hc].
Defined.

(** ** Frame map: a mapped frame is not mapped elsewhere *)

Lemma updatePTE_loop_cte n : forall i pte base s u s',
  updatePTE_loop n i pte base s = Done u s' -> ks_cte s' = ks_cte s.
Proof.
  induction n as [|n IH]; intros i pte base s u s' H.
  - inversion H; reflexivity.
  - simpl in H. apply bind_Done_inv in H. destruct H as ([] & s1 & E & H).
    inversion E; subst. apply IH in H. rewrite H. reflexivity.
Qed.

Lemma updatePTE_cte pte entries s r s' :
  updatePTE pte entries s = Done r s' -> ks_cte s' = ks_cte s.
Proof.
  unfold updatePTE. intros H.
  apply bind_Done_inv in H. destruct H as ([] & s1 & E & H).
  apply updatePTE_loop_cte in E.
  inversion H; subst. exact E.
Qed.

Lemma syscallArg_relay P i buffer s s' :
  relay_only s s' -> syscallArg P i buffer s' = syscallArg P i buffer s.
Proof. intros (lf & se & ->). reflexivity. Qed.

(** A successful [RISCVPageMap] leaves in the invoked slot the frame
    capability stamped with the root's ASID and the requested address. *)
Lemma pageMap_success_marks_cap (P : platform) :
  forall length cte asid0 base sz rights addr0 extraCaps buffer s s1,
    decodeRISCVFrameInvocation P RISCVPageMap length cte
      (cap_frame_cap asid0 base sz rights addr0) extraCaps buffer s
    = Done EXCEPTION_NONE s1 ->
    ks_cte s1 cte =
    cap_frame_cap
      (field_store P F_capFMappedASID
         (cap_page_table_cap_get_capPTMappedASID P (ks_cte s (excaprefs extraCaps 0))))
      base sz rights
      (field_store P F_capFMappedAddress (syscallArg P 0 buffer s)).
Proof.
  intros length cte asid0 base sz rights addr0 extraCaps buffer s s1 H.
  unfold decodeRISCVFrameInvocation in H.
  destruct ((length <? 3) || (excaprefs extraCaps 0 =? 0)); [discriminate H|].
  revert H. munfold. cbv zeta.
  destruct (negb (unlikely _ =? asidInvalid) && negb (_ =? _)); [discriminate|].
  destruct (negb (cap_tag_eqb _ tag_page_table)); [discriminate|].
  destruct (isVTableRoot P _ s) as [isRoot sa| |] eqn:Ea; try discriminate.
  destruct (negb isRoot); [discriminate|].
  destruct (lookupPTSlot P _ _ _ sa) as [lu sb| |] eqn:Eb; try discriminate.
  destruct (negb (exception_eqb (lu_status lu) EXCEPTION_NONE)); [discriminate|].
  destruct (findVSpaceForASID P _ sb) as [fr sc| |] eqn:Ec; try discriminate.
  destruct (negb (exception_eqb (fv_status fr) EXCEPTION_NONE)); [discriminate|].
  destruct (negb (vspace_root fr =? _)); [discriminate|].
  destruct (kernelBase P <=? _); [discriminate|].
  destruct (negb (checkVPAlignment P _ _)); [discriminate|].
  destruct (createSafeMappingEntries_PTE P _ _ _ _ _ _ sc) as [mr sd| |] eqn:Ed;
    try discriminate.
  destruct (negb (exception_eqb (cm_status mr) EXCEPTION_NONE)) eqn:Est.
  { intros H. inversion H as [[Hst Hs]]. rewrite Hst in Est. discriminate Est. }
  unfold restart_current_thread, performPageInvocationMapPTE. munfold.
  destruct (updatePTE _ _ _) as [r se| |] eqn:Ee; try discriminate.
  intros H. inversion H; subst.
  apply updatePTE_cte in Ee. rewrite Ee. simpl.
  rewrite Z.eqb_refl. reflexivity.
Qed.

(** C6: a [RISCVPageMap] on a frame capability that is already mapped (its
    mapped-ASID field is not [asidInvalid]), carrying the three message
    words and the root capability and naming a virtual address other than
    the capability's mapped address, fails in decode with
    [seL4_InvalidCapability] (capability 0) and touches nothing but the
    error relay.  In particular, once a [RISCVPageMap] of a frame capability
    has succeeded under a root with a valid ASID, mapping the capability
    now in that slot at a different address fails that way. *)
Theorem pageMap_mapped_elsewhere_rejected (P : platform) :
  (forall (length cptr cte mappedASID base sz : Z) (rights : vm_rights_t)
          (mappedAddr : Z) (extraCaps : list Z) (buffer : Z) (s : kstate),
      3 <= length ->
      excaprefs extraCaps 0 <> 0 ->
      mappedASID <> asidInvalid ->
      mappedAddr <> syscallArg P 0 buffer s ->
      decodeRISCVMMUInvocation P RISCVPageMap length cptr cte
        (cap_frame_cap mappedASID base sz rights mappedAddr) extraCaps buffer s
      = Done EXCEPTION_SYSCALL_ERROR
          (with_syscall_error
             (set_invalidCapNumber 0
                (set_se_type seL4_InvalidCapability (current_syscall_error s))) s))
  /\ (forall (length cptr cte asid0 base sz : Z) (rights : vm_rights_t) (addr0 : Z)
             (extraCaps : list Z) (buffer : Z) (s s1 s2 : kstate)
             (length2 cptr2 : Z) (extraCaps2 : list Z) (buffer2 : Z),
         decodeRISCVMMUInvocation P RISCVPageMap length cptr cte
           (cap_frame_cap asid0 base sz rights addr0) extraCaps buffer s
         = Done EXCEPTION_NONE s1 ->
         field_store P F_capFMappedASID
           (cap_page_table_cap_get_capPTMappedASID P (ks_cte s (excaprefs extraCaps 0)))
         <> asidInvalid ->
         (* no unmap in between: the slot still holds what the map left *)
         ks_cte s2 cte = ks_cte s1 cte ->
         3 <= length2 ->
         excaprefs extraCaps2 0 <> 0 ->
         syscallArg P 0 buffer2 s2
         <> field_store P F_capFMappedAddress (syscallArg P 0 buffer s) ->
         decodeRISCVMMUInvocation P RISCVPageMap length2 cptr2 cte
           (ks_cte s2 cte) extraCaps2 buffer2 s2
         = Done EXCEPTION_SYSCALL_ERROR
             (with_syscall_error
                (set_invalidCapNumber 0
                   (set_se_type seL4_InvalidCapability (current_syscall_error s2))) s2)).
Proof.
  assert (Hfirst :
    forall (length cptr cte mappedASID base sz : Z) (rights : vm_rights_t)
           (mappedAddr : Z) (extraCaps : list Z) (buffer : Z) (s : kstate),
      3 <= length ->
      excaprefs extraCaps 0 <> 0 ->
      mappedASID <> asidInvalid ->
      mappedAddr <> syscallArg P 0 buffer s ->
      decodeRISCVMMUInvocation P RISCVPageMap length cptr cte
        (cap_frame_cap mappedASID base sz rights mappedAddr) extraCaps buffer s
      = Done EXCEPTION_SYSCALL_ERROR
          (with_syscall_error
             (set_invalidCapNumber 0
                (set_se_type seL4_InvalidCapability (current_syscall_error s))) s)).
  { intros length cptr cte mappedASID base sz rights mappedAddr extraCaps buffer s
           Hlen Hcap Hasid Haddr.
    unfold decodeRISCVMMUInvocation. cbn [cap_get_capType].
    unfold decodeRISCVFrameInvocation.
    apply Z.ltb_ge in Hlen. apply Z.eqb_neq in Hcap. rewrite Hlen, Hcap.
    cbn [orb]. munfold. cbv zeta.
    cbn [cap_frame_cap_get_capFMappedASID cap_frame_cap_get_capFMappedAddress].
    unfold unlikely, asidInvalid in *.
    apply Z.eqb_neq in Hasid, Haddr. rewrite Hasid, Haddr.
    reflexivity. }
  split; [exact Hfirst|].
  intros length cptr cte asid0 base sz rights addr0 extraCaps buffer s s1 s2
         length2 cptr2 extraCaps2 buffer2 Hrun Hasid Hslot Hlen Hcap Haddr.
  unfold decodeRISCVMMUInvocation in Hrun. cbn [cap_get_capType] in Hrun.
  rewrite Hslot, (pageMap_success_marks_cap P _ _ _ _ _ _ _ _ _ _ _ Hrun).
  apply Hfirst; try assumption.
  intros E. apply Haddr. symmetry. exact E.
Qed.

(** Witness for C6: the frame capability of slot 400 is mapped at
    [0x40001000] and the message asks for [0x40002000]; and the 2 MiB frame
    of slot 300, first mapped at [0x40000000], is then asked for at
    [0x40200000]. *)
Lemma pageMap_mapped_elsewhere_rejected_witness :
  decodeRISCVMMUInvocation sv39 RISCVPageMap 3 0 400 it_mapped_frame_cap [200] 0
    (with_arg0 0x40002000 mapped_pt_state)
  = Done EXCEPTION_SYSCALL_ERROR
      (with_syscall_error
         (set_invalidCapNumber 0
            (set_se_type seL4_InvalidCapability
               (current_syscall_error (with_arg0 0x40002000 mapped_pt_state))))
         (with_arg0 0x40002000 mapped_pt_state))
  /\ exists s1,
       decodeRISCVMMUInvocation sv39 RISCVPageMap 3 0 300 it_mega_frame_cap [200] 0
         (with_arg0 0x40000000 mapped_pt_state)
       = Done EXCEPTION_NONE s1
       /\ decodeRISCVMMUInvocation sv39 RISCVPageMap 3 0 300
            (ks_cte (with_arg0 0x40200000 s1) 300) [200] 0 (with_arg0 0x40200000 s1)
          = Done EXCEPTION_SYSCALL_ERROR
              (with_syscall_error
                 (set_invalidCapNumber 0
                    (set_se_type seL4_InvalidCapability
                       (current_syscall_error (with_arg0 0x40200000 s1))))
                 (with_arg0 0x40200000 s1)).
Proof.
  split.
  - apply (proj1 (pageMap_mapped_elsewhere_rejected sv39)).
    + lia.
    + discriminate.
    + discriminate.
    + vm_compute. discriminate.
  - eexists. split; [vm_compute; reflexivity|].
    eapply (proj2 (pageMap_mapped_elsewhere_rejected sv39)
              3 0 300 asidInvalid it_frame 1 VMReadWrite 0 [200] 0
              (with_arg0 0x40000000 mapped_pt_state)).
    + vm_compute. reflexivity.
    + vm_compute. discriminate.
    + reflexivity.
    + lia.
    + discriminate.
    + vm_compute. discriminate.
Defined.

(** ** ASID allocation scans *)

Lemma findFreePool_loop_spec (P : platform) n : forall i table,
  let r := findFreePool_loop P n i table in
  i <= r <= i + Z.of_nat n
  /\ (forall j, i <= j < r -> j < nASIDPools P /\ table j <> 0)
  /\ (r < i + Z.of_nat n -> ~ (r < nASIDPools P /\ table r <> 0)).
Proof.
  induction n as [|n IH]; intros i table; cbn [findFreePool_loop]; cbv zeta.
  - split; [lia|]. split; intros; lia.
  - destruct ((i <? nASIDPools P) && negb (table i =? 0)) eqn:E.
    + apply andb_prop in E. destruct E as [E1 E2].
      apply Z.ltb_lt in E1. apply negb_true_iff in E2. apply Z.eqb_neq in E2.
      specialize (IH (i + 1) table). cbv zeta in IH.
      destruct IH as (IH1 & IH2 & IH3).
      split; [lia|]. split.
      * intros j Hj. destruct (Z.eq_dec j i) as [->|Hne]; [split; assumption|].
        apply IH2. lia.
      * intros Hr. apply IH3. lia.
    + split; [lia|]. split; [intros j Hj; lia|].
      intros _ [H1 H2].
      apply Z.ltb_lt in H1. apply Z.eqb_neq in H2.
      rewrite H1, H2 in E. discriminate E.
Qed.

Lemma findFreeASID_loop_spec (P : platform) n : forall i asid pool m,
  let r := findFreeASID_loop P n i asid pool m in
  i <= r <= i + Z.of_nat n
  /\ (forall j, i <= j < r -> j < BIT (asidLowBits P) /\ asid_entry_taken asid pool m j)
  /\ (r < i + Z.of_nat n -> ~ (r < BIT (asidLowBits P) /\ asid_entry_taken asid pool m r)).
Proof.
  induction n as [|n IH]; intros i asid pool m; cbn [findFreeASID_loop]; cbv zeta.
  - split; [lia|]. split; intros; lia.
  - destruct ((i <? BIT (asidLowBits P))
              && ((word (asid + i) =? 0) || negb (m (ptr_index pool i) =? 0))) eqn:E.
    + apply andb_prop in E. destruct E as [E1 E2].
      apply Z.ltb_lt in E1.
      assert (T : asid_entry_taken asid pool m i).
      { apply orb_prop in E2. destruct E2 as [E2|E2].
        - left. apply Z.eqb_eq. exact E2.
        - right. apply negb_true_iff in E2. apply Z.eqb_neq. exact E2. }
      specialize (IH (i + 1) asid pool m). cbv zeta in IH.
      destruct IH as (IH1 & IH2 & IH3).
      split; [lia|]. split.
      * intros j Hj. destruct (Z.eq_dec j i) as [->|Hne]; [split; assumption|].
        apply IH2. lia.
      * intros Hr. apply IH3. lia.
    + split; [lia|]. split; [intros j Hj; lia|].
      intros _ [H1 [H2|H2]].
      * apply Z.ltb_lt in H1. apply Z.eqb_eq in H2.
        rewrite H1, H2 in E. discriminate E.
      * apply Z.ltb_lt in H1. apply Z.eqb_neq in H2.
        rewrite H1, H2, orb_true_r in E. discriminate E.
Qed.

Lemma BIT_nonneg n : 0 <= BIT n.
Proof. unfold BIT, word. apply Z.mod_pos_bound. reflexivity. Qed.

Lemma findFreePool_spec (P : platform) table :
  0 <= nASIDPools P ->
  let i := findFreePool P table in
  0 <= i <= nASIDPools P
  /\ (forall j, 0 <= j < i -> table j <> 0)
  /\ (i < nASIDPools P -> table i = 0).
Proof.
  intros Hn. unfold findFreePool. cbv zeta.
  pose proof (findFreePool_loop_spec P (Z.to_nat (nASIDPools P)) 0 table) as H.
  cbv zeta in H. rewrite Z2Nat.id in H by assumption.
  destruct H as (H1 & H2 & H3).
  split; [lia|]. split.
  - intros j Hj. apply H2. exact Hj.
  - intros Hi. destruct (Z.eq_dec (table (findFreePool_loop P (Z.to_nat (nASIDPools P)) 0 table)) 0)
      as [E|E]; [exact E|].
    exfalso. apply H3; [lia | split; assumption].
Qed.

Lemma findFreeASID_spec (P : platform) asid pool m :
  let i := findFreeASID P asid pool m in
  0 <= i <= BIT (asidLowBits P)
  /\ (forall j, 0 <= j < i -> asid_entry_taken asid pool m j)
  /\ (i < BIT (asidLowBits P) -> word (asid + i) <> 0 /\ m (ptr_index pool i) = 0).
Proof.
  unfold findFreeASID. cbv zeta.
  pose proof (findFreeASID_loop_spec P (Z.to_nat (BIT (asidLowBits P))) 0 asid pool m) as H.
  cbv zeta in H. rewrite Z2Nat.id in H by apply BIT_nonneg.
  destruct H as (H1 & H2 & H3).
  split; [lia|]. split.
  - intros j Hj. apply H2. exact Hj.
  - intros Hi.
    set (r := findFreeASID_loop P (Z.to_nat (BIT (asidLowBits P))) 0 asid pool m) in *.
    split.
    + intros E. apply H3; [lia|]. split; [exact Hi | left; exact E].
    + destruct (Z.eq_dec (m (ptr_index pool r)) 0) as [E|E]; [exact E|].
      exfalso. apply H3; [lia|]. split; [exact Hi | right; exact E].
Qed.

(** C8, as the code has it.  [RISCVASIDControlMakePool] takes the first
    empty slot of the ASID table, and [RISCVASIDPoolAssign] the first entry
    of the target pool that is empty and does not stand for ASID 0: slot 0
    is passed over only in the pool based at ASID 0.  An invocation that
    has passed the label, truncation and capability checks placed before
    the scan fails in decode with [seL4_DeleteFirst] when every pool slot
    is taken, respectively when every entry of the pool is bound or stands
    for ASID 0. *)
Theorem asid_scan_first_free_or_DeleteFirst (P : platform) :
  0 <= nASIDPools P ->
  (forall table,
      let i := findFreePool P table in
      0 <= i <= nASIDPools P
      /\ (forall j, 0 <= j < i -> table j <> 0)
      /\ (i < nASIDPools P -> table i = 0))
  /\ (forall asid pool m,
        let i := findFreeASID P asid pool m in
        0 <= i <= BIT (asidLowBits P)
        /\ (forall j, 0 <= j < i -> asid_entry_taken asid pool m j)
        /\ (i < BIT (asidLowBits P) -> word (asid + i) <> 0 /\ m (ptr_index pool i) = 0))
  /\ (forall (length cptr cte : Z) (extraCaps : list Z) (buffer : Z) (s : kstate),
        2 <= length ->
        excaprefs extraCaps 0 <> 0 ->
        excaprefs extraCaps 1 <> 0 ->
        (forall j, 0 <= j < nASIDPools P -> riscvKSASIDTable s j <> 0) ->
        decodeRISCVMMUInvocation P RISCVASIDControlMakePool length cptr cte
          cap_asid_control_cap extraCaps buffer s
        = Done EXCEPTION_SYSCALL_ERROR
            (with_syscall_error (set_se_type seL4_DeleteFirst (current_syscall_error s)) s))
  /\ (forall (length cptr cte base poolPtr : Z) (extraCaps : list Z) (buffer : Z)
             (s : kstate),
        excaprefs extraCaps 0 <> 0 ->
        cap_page_table_cap_get_capPTMappedASID P (ks_cte s (excaprefs extraCaps 0))
        = asidInvalid ->
        poolPtr <> 0 ->
        riscvKSASIDTable s (Z.shiftr base (asidLowBits P)) = poolPtr ->
        (forall j, 0 <= j < BIT (asidLowBits P) ->
                   asid_entry_taken base poolPtr (ks_mem s) j) ->
        decodeRISCVMMUInvocation P RISCVASIDPoolAssign length cptr cte
          (cap_asid_pool_cap base poolPtr) extraCaps buffer s
        = Done EXCEPTION_SYSCALL_ERROR
            (with_syscall_error (set_se_type seL4_DeleteFirst (current_syscall_error s)) s)).
Proof.
  intros Hn.
  split; [intros table; apply findFreePool_spec; exact Hn|].
  split; [intros asid pool m; apply findFreeASID_spec|].
  split.
  - intros length cptr cte extraCaps buffer s Hlen Hc0 Hc1 Hfull.
    unfold decodeRISCVMMUInvocation. cbn [cap_get_capType label_eqb negb].
    apply Z.ltb_ge in Hlen. apply Z.eqb_neq in Hc0, Hc1.
    rewrite Hlen, Hc0, Hc1. cbn [orb]. munfold.
    destruct (findFreePool_spec P (riscvKSASIDTable s) Hn) as (H1 & H2 & H3).
    assert (E : findFreePool P (riscvKSASIDTable s) = nASIDPools P).
    { destruct (Z.eq_dec (findFreePool P (riscvKSASIDTable s)) (nASIDPools P)) as [E|E];
        [exact E|].
      exfalso. apply (Hfull (findFreePool P (riscvKSASIDTable s))); [lia|].
      apply H3. lia. }
    rewrite E, Z.eqb_refl. reflexivity.
  - intros length cptr cte base poolPtr extraCaps buffer s Hc0 Hasid Hpool Htab Hfull.
    unfold decodeRISCVMMUInvocation. cbn [cap_get_capType label_eqb negb].
    apply Z.eqb_neq in Hc0. rewrite Hc0. munfold. cbv zeta.
    rewrite Hasid, Z.eqb_refl. cbn [negb]. cbv beta iota.
    cbn [cap_asid_pool_cap_get_capASIDBase cap_asid_pool_cap_get_capASIDPool].
    rewrite Htab. apply Z.eqb_neq in Hpool. rewrite Hpool.
    rewrite Z.eqb_refl. cbn [negb]. cbv beta iota.
    destruct (findFreeASID_spec P base poolPtr (ks_mem s)) as (H1 & H2 & H3).
    assert (E : findFreeASID P base poolPtr (ks_mem s) = BIT (asidLowBits P)).
    { destruct (Z.eq_dec (findFreeASID P base poolPtr (ks_mem s)) (BIT (asidLowBits P)))
        as [E|E]; [exact E|].
      exfalso.
      assert (Hlt : findFreeASID P base poolPtr (ks_mem s) < BIT (asidLowBits P)) by lia.
      destruct (H3 Hlt) as [Hw Hm].
      destruct (Hfull _ (conj (proj1 H1) Hlt)) as [T|T]; contradiction. }
    rewrite E, Z.eqb_refl. reflexivity.
Qed.

(** C8 as stated fails: slot 0 is not skipped in a pool whose base is not
    ASID 0.  Assigning from the empty pool based at ASID 512 binds the
    root in entry 0 of the pool and stamps the capability with ASID 512. *)
Lemma asid_pool_assign_takes_slot_0 :
  findFreeASID sv39 512 it_pool2 (ks_mem second_pool_state) = 0
  /\ exists s',
       decodeRISCVMMUInvocation sv39 RISCVASIDPoolAssign 0 0 600
         (cap_asid_pool_cap 512 it_pool2) [500] 0 second_pool_state
       = Done EXCEPTION_NONE s'
       /\ ks_mem second_pool_state (ptr_index it_pool2 0) = 0
       /\ ks_mem s' (ptr_index it_pool2 0) = it_root2
       /\ ks_cte s' 500 = cap_page_table_cap 512 it_root2 1 0.
Proof.
  split; [vm_compute; reflexivity|].
  eexists. split; [vm_compute; reflexivity|].
  repeat split; vm_compute; reflexivity.
Qed.

(** Witness for C8: with every pool slot taken, [RISCVASIDControlMakePool]
    fails with [seL4_DeleteFirst]. *)
Lemma asid_scan_first_free_or_DeleteFirst_witness :
  decodeRISCVMMUInvocation sv39 RISCVASIDControlMakePool 2 0 600
    cap_asid_control_cap [500; 500] 0 pools_exhausted_state
  = Done EXCEPTION_SYSCALL_ERROR
      (with_syscall_error
         (set_se_type seL4_DeleteFirst (current_syscall_error pools_exhausted_state))
         pools_exhausted_state).
Proof.
  refine (proj1 (proj2 (proj2 (asid_scan_first_free_or_DeleteFirst sv39 _)))
            2 0 600 [500; 500] 0 pools_exhausted_state _ _ _ _).
  - simpl. lia.
  - lia.
  - discriminate.
  - discriminate.
  - intros j _. discriminate.
Defined.

(** ** Page-table map: where the new table goes *)

Lemma relay_only_sym s s' : relay_only s s' -> relay_only s' s.
Proof.
  intros (lf & se & ->).
  exists (current_lookup_fault s), (current_syscall_error s).
  destruct s; reflexivity.
Qed.

Lemma assert_relay P b s t : relay_only s t ->
  forall u s', assert P b s = Done u s' -> assert P b t = Done tt t.
Proof.
  intros _ u s'. unfold assert.
  destruct (CONFIG_DEBUG_BUILD P && negb b); [discriminate | reflexivity].
Qed.

Lemma getPPtrFromHWPTE_relay P pte s t pt s' :
  relay_only s t ->
  getPPtrFromHWPTE P pte s = Done pt s' ->
  getPPtrFromHWPTE P pte t = Done pt t.
Proof.
  intros R. unfold getPPtrFromHWPTE. munfold.
  rewrite (relay_only_mem _ _ R).
  destruct (assert P (isValidHWPageTable (ks_mem s pte)) s) as [u s1| |] eqn:E;
    try discriminate.
  rewrite (assert_relay _ _ _ _ R _ _ E).
  intros H; inversion H; reflexivity.
Qed.

(** The walker reads page tables only: started from a state that differs in
    the relays, it takes the same path and returns the same result. *)
Lemma lookupPTSlot_loop_relay (P : platform) n : forall i vptr slot s t r s',
  relay_only s t ->
  lookupPTSlot_loop P n i vptr slot s = Done r s' ->
  exists t', lookupPTSlot_loop P n i vptr slot t = Done r t' /\ relay_only s' t'.
Proof.
  induction n as [|n IH]; intros i vptr slot s t r s' R H.
  - inversion H; subst. exists t. split; [reflexivity | exact R].
  - revert H. simpl. munfold. rewrite (relay_only_mem _ _ R).
    destruct (ks_mem s slot =? 0).
    + intros H; inversion H; subst. eexists. split; [reflexivity|].
      eapply relay_only_trans; [apply relay_only_sym, relay_only_lookup_fault|].
      eapply relay_only_trans; [exact R | apply relay_only_lookup_fault].
    + destruct (getPPtrFromHWPTE P slot s) as [pt s1| |] eqn:Eg; try discriminate.
      destruct (getPPtrFromHWPTE_Done _ _ _ _ _ Eg) as [-> _].
      rewrite (getPPtrFromHWPTE_relay _ _ _ _ _ _ R Eg).
      intros H. eapply IH; eassumption.
Qed.

Lemma lookupPTSlot_relay (P : platform) lvl1pt vptr ptLevel s t r s' :
  relay_only s t ->
  lookupPTSlot P lvl1pt vptr ptLevel s = Done r s' ->
  exists t', lookupPTSlot P lvl1pt vptr ptLevel t = Done r t' /\ relay_only s' t'.
Proof.
  intros R. unfold lookupPTSlot. intros H.
  apply bind_Done_inv in H. destruct H as ([] & s1 & Ha & H).
  pose proof (assert_Done _ _ _ _ _ Ha) as ->.
  rewrite (bind_Done _ _ _ _ _ (assert_relay _ _ _ _ R _ _ Ha)).
  destruct (lvl1pt =? 0).
  - inversion H; subst. exists t. split; [reflexivity | exact R].
  - eapply lookupPTSlot_loop_relay; eassumption.
Qed.

Lemma isValidNativeRoot_run (P : platform) cap s :
  exists s',
    isValidNativeRoot P cap s =
    Done (vtable_root_b P s cap && negb (cap_page_table_cap_get_capPTIsMapped P cap =? 0)) s'
    /\ relay_only s s'.
Proof.
  unfold isValidNativeRoot.
  destruct (isVTableRoot_run P cap s) as (s' & E & R).
  exists s'. rewrite (bind_Done _ _ _ _ _ E). split; [reflexivity | exact R].
Qed.

(** C9: in [RISCVPageTableMap] decode, when the walk toward the deepest
    configured level stops early on an all-zero entry, the lookup's status
    is not consulted: the decode does not fail, the occupancy test is
    applied to (and passed by) the slot where the walk stopped, and the
    executor writes the new table's entry into that slot, which is the slot
    a walk to level [j - 1] reaches, [j] being the reported missing level,
    and not a slot of the deepest level. *)
Theorem pageTableMap_installs_where_walk_stopped (P : platform) :
  forall (length cte : Z) (cap : cap_t) (extraCaps : list Z) (buffer : Z) (s : kstate)
         (asid root isMapped rootAddr : Z) (p j : Z) (s_lu : kstate),
    (* the invocation passes every check placed before the walk *)
    vtable_root_b P s cap = false ->
    2 <= length ->
    excaprefs extraCaps 0 <> 0 ->
    ks_cte s (excaprefs extraCaps 0) = cap_page_table_cap asid root isMapped rootAddr ->
    isMapped <> 0 ->
    asid_root P s asid = Some root ->
    syscallArg P 0 buffer s < kernelBase P ->
    (* the walk stops early, at level [j - 1], on the all-zero entry [p] *)
    lookupPTSlot P root (syscallArg P 0 buffer s) (CONFIG_PT_LEVELS P) s
    = Done (walk_missing p j) s_lu ->
    let vaddr := syscallArg P 0 buffer s in
    let pte := pte_new (Z.shiftr (addrFromPPtr P (cap_page_table_cap_get_capPTBasePtr P cap))
                                 RISCV_4K_PageBits) 0 1 1 0 0 0 0 0 1 in
    let cap' := cap_page_table_cap_set_capPTMappedAddress P
                  (cap_page_table_cap_set_capPTMappedASID P
                     (cap_page_table_cap_set_capPTIsMapped P cap 1) asid) vaddr in
    exists s0 : kstate,
      relay_only s s0
      /\ decodeRISCVPageTableInvocation P RISCVPageTableMap length cte cap extraCaps buffer s
         = performPageTableInvocationMap cap' cte pte p
             (setThreadState P (ksCurThread s) ThreadState_Restart s0)
      /\ (exists s', performPageTableInvocationMap cap' cte pte p
                       (setThreadState P (ksCurThread s) ThreadState_Restart s0)
                     = Done EXCEPTION_NONE s'
                     /\ ks_mem s' p = pte
                     /\ ks_cte s' cte = cap')
      /\ ks_mem s p = 0
      /\ 2 <= j <= CONFIG_PT_LEVELS P
      /\ lookupPTSlot P root vaddr (j - 1) s = Done (walk_ok p) s.
Proof.
  intros length cte cap extraCaps buffer s asid root isMapped rootAddr p j s_lu
         Hnotroot Hlen Hc0 Hcap Hmapped Hroot Hva Hwalk vaddr pte cap'.
  assert (Hroot0 : root <> 0).
  { unfold asid_root in Hroot.
    destruct (asid_pool_of P s asid =? 0); [discriminate|].
    destruct (asid_entry_of P s asid =? 0) eqn:E; [discriminate|].
    inversion Hroot; subst. apply Z.eqb_neq. exact E. }
  destruct (lookupPTSlot_spec _ _ _ _ _ _ _ Hroot0 Hwalk)
    as [(p' & Hr & _) | (p' & j' & Hr & Hj & Hz & _ & Hprefix)]; [discriminate Hr|].
  inversion Hr; subst p' j'. clear Hr.
  (* the first check: [cap] is not a root *)
  destruct (isVTableRoot_run P cap s) as (s1 & E1 & R1).
  (* the root capability is a mapped, valid root *)
  assert (Hvr : forall t, relay_only s t ->
     vtable_root_b P t (cap_page_table_cap asid root isMapped rootAddr) = true).
  { intros t R. rewrite (vtable_root_b_relay P _ _ _ R).
    unfold vtable_root_b. rewrite Hroot. apply Z.eqb_refl. }
  destruct (isValidNativeRoot_run P (cap_page_table_cap asid root isMapped rootAddr) s1)
    as (s2 & E2 & R2).
  assert (R02 : relay_only s s2) by (eapply relay_only_trans; eassumption).
  destruct (isVTableRoot_run P (cap_page_table_cap asid root isMapped rootAddr) s2)
    as (s3 & E3 & R3).
  assert (R03 : relay_only s s3) by (eapply relay_only_trans; eassumption).
  destruct (findVSpaceForASID_run P asid s3) as (fr & s4 & E4 & R4 & V4).
  rewrite (asid_root_relay P _ _ _ R03), Hroot in V4. destruct V4 as [-> ->].
  destruct (lookupPTSlot_relay P _ _ _ _ _ _ _ R03 Hwalk) as (s5 & E5 & R5).
  assert (R05 : relay_only s s5).
  { eapply relay_only_trans; [|exact R5].
    destruct (lookupPTSlot_spec _ _ _ _ _ _ _ Hroot0 Hwalk)
      as [(q & Hq & _) | (q & k & _ & _ & _ & -> & _)]; [discriminate Hq|].
    apply relay_only_lookup_fault. }
  exists s5. split; [exact R05|].
  split.
  { unfold decodeRISCVPageTableInvocation.
    rewrite (bind_Done _ _ _ _ _ E1), Hnotroot.
    cbn [label_eqb negb].
    apply Z.ltb_ge in Hlen. apply Z.eqb_neq in Hc0. rewrite Hlen, Hc0. cbn [orb].
    unfold bind at 1. unfold gets at 1. cbv beta iota.
    unfold bind at 1. unfold get_slot_cap at 1. unfold gets at 1. cbv beta iota.
    rewrite (relay_only_cte _ _ R1), Hcap.
    rewrite (bind_Done _ _ _ _ _ E2).
    rewrite (Hvr s1 R1).
    cbn [cap_page_table_cap_get_capPTIsMapped].
    apply Z.eqb_neq in Hmapped. rewrite Hmapped.
    cbn [negb andb cap_get_capType cap_tag_eqb].
    rewrite (bind_Done _ _ _ _ _ E3).
    rewrite (Hvr s2 R02). cbn [negb]. cbv zeta.
    cbn [cap_page_table_cap_get_capPTBasePtr cap_page_table_cap_get_capPTMappedASID].
    rewrite (syscallArg_relay P _ _ _ _ R1).
    apply Z.leb_gt in Hva. rewrite Hva.
    rewrite (bind_Done _ _ _ _ _ E4).
    cbn [fv_status vspace_root exception_eqb negb]. rewrite Z.eqb_refl. cbn [negb].
    rewrite (bind_Done _ _ _ _ _ E5).
    cbn [ptSlot walk_missing].
    unfold bind at 1. unfold load at 1. unfold gets at 1. cbv beta iota.
    rewrite (relay_only_mem _ _ R05), Hz. cbn [Z.eqb negb].
    unfold restart_current_thread. munfold.
    rewrite (relay_only_cur _ _ R05). reflexivity. }
  split.
  { unfold performPageTableInvocationMap. munfold.
    eexists. split; [reflexivity|].
    cbn [ks_mem ks_cte with_mem with_cte]. unfold upd.
    rewrite !Z.eqb_refl. split; reflexivity. }
  split; [exact Hz|]. split; [exact Hj | exact Hprefix].
Qed.

(** Witness for C9: in the populated system the root's entry for
    [0x80000000] (index 2) is all-zero, so the walk toward level 3 stops at
    level 1 and the new table goes into the root. *)
Lemma pageTableMap_installs_where_walk_stopped_witness :
  exists s',
    decodeRISCVPageTableInvocation sv39 RISCVPageTableMap 2 700 it_pt2_cap [200] 0
      (with_arg0 0x80000000 mapped_pt_state)
    = Done EXCEPTION_NONE s'
    /\ ks_mem s' (ptr_index it_root 2) =
       pte_new (Z.shiftr (addrFromPPtr sv39 it_pt2) RISCV_4K_PageBits) 0 1 1 0 0 0 0 0 1
    /\ lookupPTSlot sv39 it_root 0x80000000 1 (with_arg0 0x80000000 mapped_pt_state)
       = Done (walk_ok (ptr_index it_root 2)) (with_arg0 0x80000000 mapped_pt_state).
Proof.
  destruct (pageTableMap_installs_where_walk_stopped sv39
              2 700 it_pt2_cap [200] 0 (with_arg0 0x80000000 mapped_pt_state)
              1 it_root 1 it_root (ptr_index it_root 2) 2
              (with_lookup_fault (lookup_fault_missing_capability_new 30)
                 (with_arg0 0x80000000 mapped_pt_state)))
    as (s0 & _ & Edec & (s' & Eperf & Hmem & _) & _ & _ & Hprefix).
  - vm_compute. reflexivity.
  - lia.
  - discriminate.
  - vm_compute. reflexivity.
  - discriminate.
  - vm_compute. reflexivity.
  - vm_compute. reflexivity.
  - vm_compute. reflexivity.
  - exists s'. split; [rewrite Edec; exact Eperf|].
    split; [exact Hmem | exact Hprefix].
Defined.


(** ** Page-table unmap *)

(** When the parent lookup finds the table, [unmapPageTable] stores
    nothing: it finishes in the state the lookup left. *)
Lemma unmapPageTable_found_is_noop (P : platform) asid vaddr pt s r s1 :
  lookupPageTableLevelSlot P asid vaddr pt s = Done r s1 ->
  lu_status r = EXCEPTION_NONE ->
  unmapPageTable P asid vaddr pt s = Done tt s1.
Proof.
  intros E Hst. unfold unmapPageTable.
  rewrite (bind_Done _ _ _ _ _ E), Hst. reflexivity.
Qed.

(** C1 fails on the code: [RISCVPageTableUnmap] on the mapped table
    [it_pt] (ASID 1, address [it_vaddr]) returns without error, zeroes the
    table's own page and clears the capability's mapped flag, but the
    parent entry (root index 1) still holds the pointer to [it_pt]; a walk
    at [it_vaddr] to level 2 still passes through it without a fault. *)
Theorem pageTableUnmap_keeps_parent_entry :
  match decodeRISCVMMUInvocation sv39 RISCVPageTableUnmap 0 0 100 it_pt_cap [] 0
          mapped_pt_state with
  | Done r s' =>
      r = EXCEPTION_NONE
      /\ ks_mem mapped_pt_state (ptr_index it_root 1) = it_pt_pte
      /\ ks_mem s' (ptr_index it_root 1) = it_pt_pte
      /\ it_pt_pte <> 0
      /\ ks_cte s' 100 = cap_page_table_cap 1 it_pt 0 it_vaddr
      /\ match lookupPTSlot sv39 it_root it_vaddr 2 s' with
         | Done r2 _ =>
             lu_status r2 = EXCEPTION_NONE /\ ptSlot r2 = Some (ptr_index it_pt 0)
         | _ => False
         end
  | _ => False
  end.
Proof.
  vm_compute.
  repeat split; try reflexivity. discriminate.
Qed.

(** * Further properties *)

(** ** Rights and entry encoding *)

(** X1: a mask allowing both read and write leaves every rights value as it
    is, and masking a second time with the same mask changes nothing. *)
Theorem maskVMRights_full_mask_and_idempotent :
  forall (vm_rights : vm_rights_t) (mask : seL4_CapRights_t),
    maskVMRights vm_rights {| capAllowRead := true; capAllowWrite := true |} = vm_rights
    /\ maskVMRights (maskVMRights vm_rights mask) mask = maskVMRights vm_rights mask.
Proof.
  intros r [rd wr]. destruct r, rd, wr; split; reflexivity.
Qed.

(** X2: masking never changes whether a mapping is user-accessible, and a
    mask allowing neither read nor write turns every rights value into
    [VMNoAccess] except [VMKernelOnly], which no mask can reduce. *)
Theorem maskVMRights_user_bit_and_empty_mask :
  forall (vm_rights : vm_rights_t) (mask : seL4_CapRights_t),
    (RISCVGetUserFromVMRights (maskVMRights vm_rights mask)
     = RISCVGetUserFromVMRights vm_rights)
    /\ maskVMRights vm_rights {| capAllowRead := false; capAllowWrite := false |}
       = (if vm_rights_eqb vm_rights VMKernelOnly then VMKernelOnly else VMNoAccess).
Proof.
  intros r [rd wr]. destruct r, rd, wr; split; reflexivity.
Qed.

(** An entry word is the physical page number above ten flag bits. *)
Lemma ppn_part_low_bits x i :
  0 <= i < 10 -> Z.testbit (word (Z.shiftl x PTE_PPN_SHIFT)) i = false.
Proof.
  intros Hi. unfold word, wordBits, PTE_PPN_SHIFT.
  rewrite Z.mod_pow2_bits_low by lia.
  apply Z.shiftl_spec_low. lia.
Qed.

Lemma entry_low_bits x c i :
  0 <= i < 10 ->
  Z.testbit (Z.lor (word (Z.shiftl x PTE_PPN_SHIFT)) c) i = Z.testbit c i.
Proof.
  intros Hi. rewrite Z.lor_spec, ppn_part_low_bits by exact Hi. reflexivity.
Qed.

Lemma entry_low_nibble x c :
  Z.land (Z.lor (word (Z.shiftl x PTE_PPN_SHIFT)) c) 15 = Z.land c 15.
Proof.
  apply Z.bits_inj'. intros i Hi.
  rewrite !Z.land_spec.
  destruct (Z.lt_ge_cases i 4) as [Hlt|Hge].
  - rewrite entry_low_bits by lia. reflexivity.
  - change 15 with (Z.ones 4). rewrite Z.ones_spec_high by lia.
    rewrite !andb_false_r. reflexivity.
Qed.

Lemma entry_ppn x c :
  0 <= x < 2 ^ 54 -> 0 <= c < 2 ^ 10 ->
  Z.shiftr (Z.lor (word (Z.shiftl x PTE_PPN_SHIFT)) c) PTE_PPN_SHIFT = x.
Proof.
  intros Hx Hc. unfold PTE_PPN_SHIFT.
  rewrite Z.shiftr_lor.
  assert (Ec : Z.shiftr c 10 = 0).
  { rewrite Z.shiftr_div_pow2 by lia. apply Z.div_small. exact Hc. }
  rewrite Ec, Z.lor_0_r.
  unfold word, wordBits. rewrite Z.shiftl_mul_pow2 by lia.
  rewrite Z.mod_small.
  - rewrite Z.shiftr_div_pow2 by lia. apply Z.div_mul. lia.
  - change (2 ^ 64) with (2 ^ 54 * 2 ^ 10). nia.
Qed.

Lemma entry_nonzero x c : Z.testbit c 0 = true ->
  Z.lor (word (Z.shiftl x PTE_PPN_SHIFT)) c <> 0.
Proof.
  intros Hc E.
  assert (H : Z.testbit (Z.lor (word (Z.shiftl x PTE_PPN_SHIFT)) c) 0 = true).
  { rewrite entry_low_bits by lia. exact Hc. }
  rewrite E in H. discriminate H.
Qed.

(** Replaces the closed flag part of an unfolded [pte_new] by its value. *)
Ltac eval_flags :=
  match goal with
  | |- context [Z.lor (word (Z.shiftl ?x PTE_PPN_SHIFT)) ?c] =>
      let c' := eval vm_compute in c in
      change (Z.lor (word (Z.shiftl x PTE_PPN_SHIFT)) c)
        with (Z.lor (word (Z.shiftl x PTE_PPN_SHIFT)) c')
  end.

Lemma paddr_ppn_range paddr :
  0 <= paddr < 2 ^ wordBits -> 0 <= Z.shiftr paddr RISCV_4K_PageBits < 2 ^ 54.
Proof.
  intros H. unfold RISCV_4K_PageBits, wordBits in *.
  rewrite Z.shiftr_div_pow2 by lia. split.
  - apply Z.div_pos; lia.
  - apply Z.div_lt_upper_bound; [lia|].
    change (2 ^ 12 * 2 ^ 54) with (2 ^ 66). 
    assert (2 ^ 64 < 2 ^ 66) by reflexivity. lia.
Qed.

(** X3: the entry [makeUserPTE] builds decodes to what was asked for: it is
    valid (hence never the all-zero word), not global, its read, write,
    execute and user bits are those of the rights and of the executable
    flag, and its page number is the frame's.  It has the shape of a
    page-table pointer exactly when the rights are [VMNoAccess] and the
    page is not executable. *)
Theorem makeUserPTE_decodes :
  forall (paddr : Z) (executable : bool) (vm_rights : vm_rights_t),
    0 <= paddr < 2 ^ wordBits ->
    let pte := makeUserPTE paddr executable vm_rights in
    Z.testbit pte 0 = true
    /\ Z.testbit pte 1 = RISCVGetReadFromVMRights vm_rights
    /\ Z.testbit pte 2 = RISCVGetWriteFromVMRights vm_rights
    /\ Z.testbit pte 3 = executable
    /\ Z.testbit pte 4 = RISCVGetUserFromVMRights vm_rights
    /\ Z.testbit pte 5 = false
    /\ pte <> 0
    /\ Z.shiftr pte PTE_PPN_SHIFT = Z.shiftr paddr RISCV_4K_PageBits
    /\ isValidHWPageTable pte = vm_rights_eqb vm_rights VMNoAccess && negb executable.
Proof.
  intros paddr executable vm_rights Hp pte. subst pte.
  pose proof (paddr_ppn_range paddr Hp) as Hppn.
  unfold makeUserPTE, pte_new, isValidHWPageTable.
  destruct vm_rights, executable; eval_flags;
    rewrite entry_low_nibble, !entry_low_bits by lia;
    (repeat split; try reflexivity;
     [ apply entry_nonzero; reflexivity
     | apply entry_ppn; [exact Hppn | split; [discriminate | reflexivity]] ]).
Qed.

(** Witness for X3: a read-only, executable page at [0x80402000]. *)
Lemma makeUserPTE_decodes_witness :
  Z.testbit (makeUserPTE 0x80402000 true VMReadOnly) 2 = false
  /\ Z.shiftr (makeUserPTE 0x80402000 true VMReadOnly) PTE_PPN_SHIFT = 0x80402.
Proof.
  destruct (makeUserPTE_decodes 0x80402000 true VMReadOnly) as (_ & _ & H2 & _ & _ & _ & _ & Hp & _).
  - split; [discriminate | reflexivity].
  - split; [exact H2 | exact Hp].
Defined.

(** ** Alignment and the IPC buffer *)

Lemma land_word_r v x :
  0 <= v < 2 ^ wordBits -> Z.land v (word x) = Z.land v x.
Proof.
  intros Hv. unfold word, wordBits in *.
  rewrite <- Z.land_ones by lia.
  rewrite (Z.land_comm x), Z.land_assoc.
  rewrite Z.land_ones by lia.
  rewrite (Z.mod_small v) by lia. reflexivity.
Qed.

Lemma land_MASK w n : 0 <= n < wordBits -> Z.land w (MASK n) = w mod 2 ^ n.
Proof.
  intros Hn. rewrite MASK_ones by exact Hn. apply Z.land_ones. lia.
Qed.

Lemma pageBase_eq (P : platform) vaddr size :
  0 <= pageBitsForSize P size < wordBits ->
  0 <= vaddr < 2 ^ wordBits ->
  pageBase P vaddr size = vaddr - vaddr mod 2 ^ pageBitsForSize P size.
Proof.
  intros Hb Hv. unfold pageBase.
  rewrite land_word_r by exact Hv.
  rewrite MASK_ones by exact Hb.
  rewrite <- Z.ldiff_land, Z.ldiff_ones_r by lia.
  rewrite Z.shiftl_mul_pow2, Z.shiftr_div_pow2 by lia.
  assert (0 < 2 ^ pageBitsForSize P size) by (apply Z.pow_pos_nonneg; lia).
  pose proof (Z.div_mod vaddr (2 ^ pageBitsForSize P size)). lia.
Qed.

(** X4: [pageBase] rounds a word down to the page size: the result is
    [vaddr] less its remainder, it passes [checkVPAlignment], and an address
    passes [checkVPAlignment] exactly when [pageBase] leaves it alone. *)
Theorem pageBase_rounds_down (P : platform) :
  forall (vaddr size : Z),
    0 <= pageBitsForSize P size < wordBits ->
    0 <= vaddr < 2 ^ wordBits ->
    pageBase P vaddr size = vaddr - vaddr mod 2 ^ pageBitsForSize P size
    /\ vaddr - 2 ^ pageBitsForSize P size < pageBase P vaddr size <= vaddr
    /\ checkVPAlignment P size (pageBase P vaddr size) = true
    /\ (checkVPAlignment P size vaddr = true <-> pageBase P vaddr size = vaddr).
Proof.
  intros vaddr size Hb Hv.
  pose proof (pageBase_eq P vaddr size Hb Hv) as E.
  assert (Hpos : 0 < 2 ^ pageBitsForSize P size) by (apply Z.pow_pos_nonneg; lia).
  pose proof (Z.mod_pos_bound vaddr _ Hpos) as Hm.
  split; [exact E|]. split; [lia|].
  unfold checkVPAlignment. rewrite !land_MASK by exact Hb.
  split.
  - apply Z.eqb_eq. rewrite E.
    rewrite Zminus_mod, Z.mod_mod, Z.sub_diag by lia. reflexivity.
  - rewrite Z.eqb_eq, E. lia.
Qed.

(** Witness for X4: [0x40201234] in a 2 MiB page on the three-level
    platform. *)
Lemma pageBase_rounds_down_witness :
  pageBase sv39 0x40201234 1 = 0x40200000
  /\ checkVPAlignment sv39 1 (pageBase sv39 0x40201234 1) = true.
Proof.
  destruct (pageBase_rounds_down sv39 0x40201234 1) as (E & _ & A & _).
  - simpl. unfold wordBits. lia.
  - split; [discriminate | reflexivity].
  - split; [rewrite E; reflexivity | exact A].
Defined.

(** X5: [checkValidIPCBuffer] accepts exactly the frame capabilities at
    addresses that are multiples of 512, leaving the state untouched; any
    other capability is an illegal operation and a frame capability at any
    other address an alignment error.  The frame's rights and size play no
    part. *)
Theorem checkValidIPCBuffer_accepts :
  forall (vptr : Z) (cap : cap_t) (s : kstate),
    (cap_get_capType cap <> tag_frame ->
       checkValidIPCBuffer vptr cap s
       = Done EXCEPTION_SYSCALL_ERROR
           (with_syscall_error
              (set_se_type seL4_IllegalOperation (current_syscall_error s)) s))
    /\ (cap_get_capType cap = tag_frame -> vptr mod 512 <> 0 ->
          checkValidIPCBuffer vptr cap s
          = Done EXCEPTION_SYSCALL_ERROR
              (with_syscall_error
                 (set_se_type seL4_AlignmentError (current_syscall_error s)) s))
    /\ (cap_get_capType cap = tag_frame -> vptr mod 512 = 0 ->
          checkValidIPCBuffer vptr cap s = Done EXCEPTION_NONE s).
Proof.
  intros vptr cap s.
  assert (E : Z.land vptr (MASK 9) = vptr mod 512).
  { rewrite land_MASK by (unfold wordBits; lia). reflexivity. }
  unfold checkValidIPCBuffer. rewrite E.
  split; [|split].
  - intros Ht. destruct cap; try reflexivity. exfalso. apply Ht. reflexivity.
  - intros Ht Hm. rewrite Ht. cbn [cap_tag_eqb negb].
    apply Z.eqb_neq in Hm. rewrite Hm. reflexivity.
  - intros Ht Hm. rewrite Ht, Hm. reflexivity.
Qed.

(** Witness for X5: the mapped frame capability of the populated system. *)
Lemma checkValidIPCBuffer_accepts_witness :
  checkValidIPCBuffer 0x40001200 it_mapped_frame_cap mapped_pt_state
  = Done EXCEPTION_NONE mapped_pt_state
  /\ checkValidIPCBuffer 0x40001200 it_root_cap mapped_pt_state
     = Done EXCEPTION_SYSCALL_ERROR
         (with_syscall_error
            (set_se_type seL4_IllegalOperation (current_syscall_error mapped_pt_state))
            mapped_pt_state).
Proof.
  destruct (checkValidIPCBuffer_accepts 0x40001200 it_mapped_frame_cap mapped_pt_state)
    as (_ & _ & H3).
  destruct (checkValidIPCBuffer_accepts 0x40001200 it_root_cap mapped_pt_state)
    as (H1 & _ & _).
  split; [apply H3; reflexivity | apply H1; discriminate].
Defined.

(** X6: [lookupIPCBuffer] never changes the state, whatever the thread's
    buffer capability is, and it always returns.  For a buffer capability
    that is not a frame the result is [NULL].  For one that is a frame, a
    receiver gets a pointer only with read-write rights and a sender also
    with read-only rights, and otherwise [NULL]; the pointer is the frame
    base plus the buffer address masked to the frame size, so that, for a
    frame lying inside the address space, it is the base plus the address
    modulo the frame size and lies inside the frame. *)
Theorem lookupIPCBuffer_inside_frame (P : platform) (L : tcb_layout) :
  forall (isReceiver : bool) (thread : Z) (s : kstate),
    exists r,
      lookupIPCBuffer P L isReceiver thread s = Done r s
      /\ (cap_get_capType (ks_cte s (tcbBuffer_slot L thread)) <> tag_frame -> r = 0)
      /\ (forall (asid base sz : Z) (rights : vm_rights_t) (addr : Z),
            ks_cte s (tcbBuffer_slot L thread) = cap_frame_cap asid base sz rights addr ->
            let granted := vm_rights_eqb rights VMReadWrite
                           || (negb isReceiver && vm_rights_eqb rights VMReadOnly) in
            let bits := pageBitsForSize P sz in
            let w := ks_mem s (tcbIPCBuffer_ptr L thread) in
            (granted = false -> r = 0)
            /\ (granted = true -> r = word (base + Z.land w (MASK bits)))
            /\ (granted = true ->
                0 <= bits < wordBits -> 0 <= base -> base + 2 ^ bits <= 2 ^ wordBits ->
                r = base + w mod 2 ^ bits /\ base <= r < base + 2 ^ bits)).
Proof.
  intros isReceiver thread s.
  unfold lookupIPCBuffer. munfold.
  destruct (ks_cte s (tcbBuffer_slot L thread)) as [ | | a0 b0 sz0 r0 ad0 | | | | ] eqn:Hcap;
    cbn [cap_get_capType cap_tag_eqb negb andb];
    try (exists 0; split; [reflexivity|];
         split; [intros _; reflexivity | intros ? ? ? ? ? Hc; discriminate Hc]).
  cbn [cap_frame_cap_get_capFVMRights cap_frame_cap_get_capFBasePtr
       cap_frame_cap_get_capFSize].
  cbv zeta.
  destruct (vm_rights_eqb r0 VMReadWrite
            || (negb isReceiver && vm_rights_eqb r0 VMReadOnly)) eqn:Eg.
  - eexists. split; [reflexivity|].
    split; [intros Hne; exfalso; apply Hne; reflexivity|].
    intros asid base sz rights addr Hc. inversion Hc; subst asid base sz rights addr.
    cbv zeta. rewrite Eg.
    split; [discriminate|]. split; [intros _; reflexivity|].
    intros _ Hb Hbase Hfit.
    assert (Hpos : 0 < 2 ^ pageBitsForSize P sz0) by (apply Z.pow_pos_nonneg; lia).
    pose proof (Z.mod_pos_bound (ks_mem s (tcbIPCBuffer_ptr L thread)) _ Hpos) as Hm.
    rewrite land_MASK by exact Hb.
    unfold word. rewrite Z.mod_small by lia. lia.
  - exists 0. split; [reflexivity|].
    split; [intros Hne; exfalso; apply Hne; reflexivity|].
    intros asid base sz rights addr Hc. inversion Hc; subst asid base sz rights addr.
    cbv zeta. rewrite Eg.
    split; [intros _; reflexivity|]. split; discriminate.
Qed.

(** Witness for X6: thread 1 of [threaded_state] as a receiver. *)
Lemma lookupIPCBuffer_inside_frame_witness :
  exists r,
    lookupIPCBuffer sv39 sv39_tcb true 1 threaded_state = Done r threaded_state
    /\ r = it_frame + 0x200.
Proof.
  destruct (lookupIPCBuffer_inside_frame sv39 sv39_tcb true 1 threaded_state)
    as (r & E & _ & H).
  exists r. split; [exact E|].
  destruct (H 1 it_frame 0 VMReadWrite 0x40001000 eq_refl) as (_ & _ & Hin).
  destruct Hin as [-> _].
  - reflexivity.
  - simpl. unfold wordBits. lia.
  - discriminate.
  - vm_compute. discriminate.
  - reflexivity.
Defined.

(** ** More on the walker *)

Lemma lookupPTSlot_loop_snoc (P : platform) n : forall i vptr slot s p,
  lookupPTSlot_loop P n i vptr slot s = Done (walk_ok p) s ->
  lookupPTSlot_loop P (S n) i vptr slot s
  = lookupPTSlot_loop P 1 (i + Z.of_nat n) vptr p s.
Proof.
  induction n as [|n IH]; intros i vptr slot s p H.
  - inversion H; subst. rewrite Z.add_0_r. reflexivity.
  - revert H. cbn [lookupPTSlot_loop]. munfold.
    destruct (ks_mem s slot =? 0); [discriminate|].
    destruct (getPPtrFromHWPTE P slot s) as [pt s1| |] eqn:Eg; try discriminate.
    destruct (getPPtrFromHWPTE_Done _ _ _ _ _ Eg) as [-> _].
    intros H. apply IH in H.
    cbn [lookupPTSlot_loop] in H. revert H. munfold. intros H. rewrite H.
    replace (i + 1 + Z.of_nat n) with (i + Z.of_nat (S n)) by lia.
    reflexivity.
Qed.

Lemma getPPtrFromHWPTE_run (P : platform) pte s :
  isValidHWPageTable (ks_mem s pte) = true \/ CONFIG_DEBUG_BUILD P = false ->
  getPPtrFromHWPTE P pte s = Done (pte_target P (ks_mem s pte)) s.
Proof.
  intros H. unfold getPPtrFromHWPTE. munfold. unfold assert.
  destruct H as [-> | ->]; [rewrite andb_false_r | ]; reflexivity.
Qed.

Lemma getPPtrFromHWPTE_halts (P : platform) pte s :
  isValidHWPageTable (ks_mem s pte) = false -> CONFIG_DEBUG_BUILD P = true ->
  getPPtrFromHWPTE P pte s = Halt.
Proof.
  intros Hv Hd. unfold getPPtrFromHWPTE. munfold. unfold assert.
  rewrite Hv, Hd. reflexivity.
Qed.

(** The walk to level [k + 1] is the walk to level [k] followed by one
    step of the loop. *)
Lemma lookupPTSlot_step_eq (P : platform) lvl1pt vptr k s p :
  lvl1pt <> 0 ->
  1 <= k ->
  k + 1 <= CONFIG_PT_LEVELS P ->
  lookupPTSlot P lvl1pt vptr k s = Done (walk_ok p) s ->
  lookupPTSlot P lvl1pt vptr (k + 1) s = lookupPTSlot_loop P 1 (k + 1) vptr p s.
Proof.
  intros Hroot Hk Hlev Hwalk.
  unfold lookupPTSlot in *.
  apply Z.eqb_neq in Hroot. rewrite Hroot in *.
  apply bind_Done_inv in Hwalk. destruct Hwalk as ([] & s1 & Ha & Hwalk).
  pose proof (assert_Done _ _ _ _ _ Ha) as ->.
  rewrite (bind_Done _ _ _ _ _ (assert_true P _ s (proj2 (Z.leb_le _ _) Hlev))).
  replace (Z.to_nat (k + 1 - 1)) with (S (Z.to_nat (k - 1))) by lia.
  rewrite (lookupPTSlot_loop_snoc _ _ _ _ _ _ _ Hwalk).
  f_equal. lia.
Qed.

(** X7: the walker descends one level at a time, and it takes every
    non-zero entry for a table pointer.  When the walk to level [k] ends on
    the slot [p], the walk to level [k + 1] reports a missing capability
    sized to level [k] if the entry at [p] is all-zero; otherwise it moves
    to the slot of the table the entry's page number designates, provided
    the entry has the shape of a table pointer or assertions are off; an
    entry of any other shape (a mapped page) on the path halts a debug
    build. *)
Theorem lookupPTSlot_one_more_level (P : platform) :
  forall (lvl1pt vptr k : Z) (s : kstate) (p : Z),
    lvl1pt <> 0 ->
    1 <= k ->
    k + 1 <= CONFIG_PT_LEVELS P ->
    lookupPTSlot P lvl1pt vptr k s = Done (walk_ok p) s ->
    let w := ks_mem s p in
    (w = 0 ->
       lookupPTSlot P lvl1pt vptr (k + 1) s
       = Done (walk_missing p (k + 1))
           (with_lookup_fault
              (lookup_fault_missing_capability_new (RISCV_GET_LVL_PGSIZE_BITS P k)) s))
    /\ (w <> 0 ->
          isValidHWPageTable w = true \/ CONFIG_DEBUG_BUILD P = false ->
          lookupPTSlot P lvl1pt vptr (k + 1) s
          = Done (walk_ok (ptr_index (pte_target P w) (RISCV_GET_PT_INDEX P vptr (k + 1)))) s)
    /\ (w <> 0 ->
          isValidHWPageTable w = false ->
          CONFIG_DEBUG_BUILD P = true ->
          lookupPTSlot P lvl1pt vptr (k + 1) s = Halt).
Proof.
  intros lvl1pt vptr k s p Hroot Hk Hlev Hwalk w.
  assert (Hstep := lookupPTSlot_step_eq P lvl1pt vptr k s p Hroot Hk Hlev Hwalk).
  rewrite Hstep. cbn [lookupPTSlot_loop]. munfold. fold w.
  replace (k + 1 - 1) with k by lia.
  split; [|split].
  - intros ->. reflexivity.
  - intros Hw Hv. apply Z.eqb_neq in Hw. rewrite Hw.
    rewrite (getPPtrFromHWPTE_run P p s Hv). reflexivity.
  - intros Hw Hv Hd. apply Z.eqb_neq in Hw. rewrite Hw.
    rewrite (getPPtrFromHWPTE_halts P p s Hv Hd). reflexivity.
Qed.

(** Witness for X7: in the populated system the walk to level 1 at
    [it_vaddr] ends on root entry 1, a table pointer; the walk to level 2
    moves into [it_pt]. *)
Lemma lookupPTSlot_one_more_level_witness :
  lookupPTSlot sv39 it_root it_vaddr 2 mapped_pt_state
  = Done (walk_ok (ptr_index
                     (pte_target sv39 (ks_mem mapped_pt_state (ptr_index it_root 1)))
                     (RISCV_GET_PT_INDEX sv39 it_vaddr 2))) mapped_pt_state.
Proof.
  destruct (lookupPTSlot_one_more_level sv39 it_root it_vaddr 1 mapped_pt_state
              (ptr_index it_root 1)) as (_ & H & _).
  - discriminate.
  - lia.
  - simpl. lia.
  - vm_compute. reflexivity.
  - apply H.
    + vm_compute. discriminate.
    + left. vm_compute. reflexivity.
Defined.

Lemma assert_any P b s t u s' :
  assert P b s = Done u s' -> assert P b t = Done tt t.
Proof.
  unfold assert. destruct (CONFIG_DEBUG_BUILD P && negb b); [discriminate | reflexivity].
Qed.

Lemma lookupPTSlot_loop_local (P : platform) n : forall i vptr slot s t r s',
  (forall a, In a (walk_path P n i vptr slot (ks_mem s)) -> ks_mem t a = ks_mem s a) ->
  lookupPTSlot_loop P n i vptr slot s = Done r s' ->
  exists t', lookupPTSlot_loop P n i vptr slot t = Done r t' /\ relay_only t t'.
Proof.
  induction n as [|n IH]; intros i vptr slot s t r s' Hagree H.
  - inversion H; subst. exists t. split; [reflexivity | apply relay_only_refl].
  - cbn [walk_path] in Hagree.
    assert (Hslot : ks_mem t slot = ks_mem s slot) by (apply Hagree; left; reflexivity).
    revert H. cbn [lookupPTSlot_loop]. munfold. rewrite Hslot.
    destruct (ks_mem s slot =? 0) eqn:Ez.
    + intros H. inversion H; subst. eexists. split; [reflexivity|].
      apply relay_only_lookup_fault.
    + destruct (getPPtrFromHWPTE P slot s) as [pt s1| |] eqn:Eg; try discriminate.
      destruct (getPPtrFromHWPTE_Done _ _ _ _ _ Eg) as [-> Hpt].
      assert (Eg' : getPPtrFromHWPTE P slot t = Done pt t).
      { revert Eg. unfold getPPtrFromHWPTE. munfold. rewrite Hslot.
        destruct (assert P (isValidHWPageTable (ks_mem s slot)) s) as [u s1| |] eqn:Ea;
          try discriminate.
        rewrite (assert_any _ _ _ t _ _ Ea).
        intros H; inversion H; reflexivity. }
      rewrite Eg'. intros H.
      eapply IH; [|exact H].
      intros a Ha. apply Hagree. right. subst pt. exact Ha.
Qed.

Lemma walk_path_length (P : platform) n : forall i vptr slot m,
  (List.length (walk_path P n i vptr slot m) <= n)%nat.
Proof.
  induction n as [|n IH]; intros i vptr slot m; cbn [walk_path List.length].
  - lia.
  - destruct (m slot =? 0); cbn [List.length]; [lia|].
    specialize (IH (i + 1) vptr
      (ptr_index (pte_target P (m slot)) (RISCV_GET_PT_INDEX P vptr i)) m). lia.
Qed.

(** X8: the walker's answer depends on the entries along its path only.
    A walk to level [ptLevel] reads at most [ptLevel - 1] entries, and in
    any state whose memory agrees with the present one on those entries
    the walk returns the same result, again changing the fault relay at
    most. *)
Theorem lookupPTSlot_depends_on_path_only (P : platform) :
  forall (lvl1pt vptr ptLevel : Z) (s t : kstate) (r : lookupPTSlot_ret_t) (s' : kstate),
    (forall a, In a (lookup_path P lvl1pt vptr ptLevel (ks_mem s)) ->
               ks_mem t a = ks_mem s a) ->
    lookupPTSlot P lvl1pt vptr ptLevel s = Done r s' ->
    (exists t', lookupPTSlot P lvl1pt vptr ptLevel t = Done r t' /\ relay_only t t')
    /\ Z.of_nat (List.length (lookup_path P lvl1pt vptr ptLevel (ks_mem s)))
       <= Z.max 0 (ptLevel - 1).
Proof.
  intros lvl1pt vptr ptLevel s t r s' Hagree H.
  split.
  - unfold lookupPTSlot in *.
    apply bind_Done_inv in H. destruct H as ([] & s1 & Ha & H).
    pose proof (assert_Done _ _ _ _ _ Ha) as ->.
    rewrite (bind_Done _ _ _ _ _ (assert_any _ _ _ t _ _ Ha)).
    destruct (lvl1pt =? 0).
    + inversion H; subst. exists t. split; [reflexivity | apply relay_only_refl].
    + eapply lookupPTSlot_loop_local; eassumption.
  - unfold lookup_path.
    pose proof (walk_path_length P (Z.to_nat (ptLevel - 1)) 2 vptr
                  (ptr_index lvl1pt (RISCV_GET_PT_INDEX P vptr 1)) (ks_mem s)). lia.
Qed.

(** Witness for X8: the walk to level 2 at [it_vaddr] in the populated
    system reads root entry 1 only; clearing the unrelated word at
    [it_pool + 16] does not change it. *)
Lemma lookupPTSlot_depends_on_path_only_witness :
  exists t',
    lookupPTSlot sv39 it_root it_vaddr 2
      (with_mem (upd (ks_mem mapped_pt_state) (it_pool + 16) 7) mapped_pt_state)
    = Done (walk_ok (ptr_index it_pt 0)) t'.
Proof.
  destruct (lookupPTSlot_depends_on_path_only sv39 it_root it_vaddr 2 mapped_pt_state
              (with_mem (upd (ks_mem mapped_pt_state) (it_pool + 16) 7) mapped_pt_state)
              (walk_ok (ptr_index it_pt 0)) mapped_pt_state) as ((t' & E & _) & _).
  - intros a Ha. vm_compute in Ha. destruct Ha as [<- | []]. reflexivity.
  - vm_compute. reflexivity.
  - exists t'. exact E.
Defined.

(** ** Installing a table, then walking *)

Lemma ptr_index_word base i : word (ptr_index base i) = ptr_index base i.
Proof. unfold ptr_index, word. apply Z.mod_mod. discriminate. Qed.

Lemma lookupPTSlot_loop_slot_word (P : platform) n : forall i vptr slot s r s' p,
  word slot = slot ->
  lookupPTSlot_loop P n i vptr slot s = Done r s' ->
  ptSlot r = Some p -> word p = p.
Proof.
  induction n as [|n IH]; intros i vptr slot s r s' p Hw H Hp.
  - inversion H; subst. cbn in Hp. inversion Hp; subst. exact Hw.
  - revert H. cbn [lookupPTSlot_loop]. munfold.
    destruct (ks_mem s slot =? 0).
    + intros H. inversion H; subst. cbn in Hp. inversion Hp; subst. exact Hw.
    + destruct (getPPtrFromHWPTE P slot s) as [pt s1| |]; try discriminate.
      intros H. eapply IH; [|exact H|exact Hp]. apply ptr_index_word.
Qed.

(** A lookup that reports no error returned a slot, a machine word, and
    left the state as it was. *)
Lemma lookupPTSlot_ok_inv (P : platform) lvl1pt vptr ptLevel s r s' :
  lookupPTSlot P lvl1pt vptr ptLevel s = Done r s' ->
  lu_status r = EXCEPTION_NONE ->
  exists p, r = walk_ok p /\ s' = s /\ word p = p /\ lvl1pt <> 0.
Proof.
  intros H Hst.
  destruct (Z.eq_dec lvl1pt 0) as [E0|Hroot].
  - exfalso. unfold lookupPTSlot in H. rewrite E0 in H.
    apply bind_Done_inv in H. destruct H as ([] & s1 & _ & H).
    cbn in H. inversion H; subst. discriminate Hst.
  - destruct (lookupPTSlot_spec _ _ _ _ _ _ _ Hroot H)
      as [(p & -> & ->) | (p & j & -> & _)]; [|discriminate Hst].
    exists p. split; [reflexivity|]. split; [reflexivity|]. split; [|exact Hroot].
    unfold lookupPTSlot in H.
    apply bind_Done_inv in H. destruct H as ([] & s1 & _ & H).
    apply Z.eqb_neq in Hroot. rewrite Hroot in H.
    eapply lookupPTSlot_loop_slot_word; [|exact H|reflexivity].
    apply ptr_index_word.
Qed.

Lemma table_pte_shape (P : platform) pt :
  translatable_table P pt ->
  table_pte P pt <> 0
  /\ isValidHWPageTable (table_pte P pt) = true
  /\ pte_target P (table_pte P pt) = pt.
Proof.
  intros (Hr & Ha & Hinv).
  pose proof (paddr_ppn_range _ Hr) as Hppn.
  unfold table_pte, pte_new, pte_target, isValidHWPageTable.
  eval_flags.
  split; [apply entry_nonzero; reflexivity|].
  split; [rewrite entry_low_nibble; reflexivity|].
  rewrite entry_ppn by first [exact Hppn | split; [discriminate | reflexivity]].
  unfold RISCV_4K_PageBits, seL4_PageTableBits in *.
  rewrite Z.shiftl_mul_pow2, Z.shiftr_div_pow2 by lia.
  assert (E : addrFromPPtr P pt / 2 ^ 12 * 2 ^ 12 = addrFromPPtr P pt).
  { pose proof (Z.div_mod (addrFromPPtr P pt) (2 ^ 12)). lia. }
  rewrite E. unfold word. rewrite Z.mod_small by exact Hr. exact Hinv.
Qed.

(** X9: installing a table and walking to it compose.  If the walk to
    level [j - 1] ends on the slot [p], a slot the walk itself did not read
    on its way, then after [performPageTableInvocationMap] has put the
    pointer entry of the table [pt] into [p], the walk to level [j] ends
    in [pt], on the slot indexed by the level-[j] bits of the address; the
    invoked slot holds the capability passed in and no other word of
    memory has changed. *)
Theorem pageTableMap_then_walk (P : platform) :
  forall (cap : cap_t) (cte pt lvl1pt vptr j : Z) (s : kstate) (p : Z),
    2 <= j <= CONFIG_PT_LEVELS P ->
    lookupPTSlot P lvl1pt vptr (j - 1) s = Done (walk_ok p) s ->
    ~ In p (lookup_path P lvl1pt vptr (j - 1) (ks_mem s)) ->
    translatable_table P pt ->
    exists s',
      performPageTableInvocationMap cap cte (table_pte P pt) p s = Done EXCEPTION_NONE s'
      /\ ks_cte s' cte = cap
      /\ (forall a, a <> p -> ks_mem s' a = ks_mem s a)
      /\ lookupPTSlot P lvl1pt vptr j s'
         = Done (walk_ok (ptr_index pt (RISCV_GET_PT_INDEX P vptr j))) s'.
Proof.
  intros cap cte pt lvl1pt vptr j s p Hj Hwalk Hfresh Htable.
  destruct (table_pte_shape P pt Htable) as (Hnz & Hvalid & Htarget).
  destruct (lookupPTSlot_ok_inv _ _ _ _ _ _ _ Hwalk eq_refl) as (p' & Hp' & _ & _ & Hroot).
  unfold performPageTableInvocationMap. munfold.
  eexists. split; [reflexivity|].
  set (s' := with_mem _ _).
  assert (Hmem : forall a, a <> p -> ks_mem s' a = ks_mem s a).
  { intros a Ha. subst s'. cbn [ks_mem with_mem with_cte]. unfold upd.
    apply Z.eqb_neq in Ha. rewrite Ha. reflexivity. }
  assert (Hp : ks_mem s' p = table_pte P pt).
  { subst s'. cbn [ks_mem with_mem with_cte]. unfold upd. rewrite Z.eqb_refl. reflexivity. }
  split; [subst s'; cbn [ks_cte with_mem with_cte]; rewrite Z.eqb_refl; reflexivity|].
  split; [exact Hmem|].
  assert (Hwalk' : lookupPTSlot P lvl1pt vptr (j - 1) s' = Done (walk_ok p) s').
  { destruct (lookupPTSlot_loop_local P (Z.to_nat (j - 1 - 1)) 2 vptr
                (ptr_index lvl1pt (RISCV_GET_PT_INDEX P vptr 1)) s s'
                (walk_ok p) s) as (t' & E & _).
    - intros a Ha. apply Hmem. intros ->. apply Hfresh. exact Ha.
    - unfold lookupPTSlot in Hwalk.
      apply bind_Done_inv in Hwalk. destruct Hwalk as ([] & s1 & Ha & Hwalk).
      pose proof (assert_Done _ _ _ _ _ Ha) as ->.
      apply Z.eqb_neq in Hroot. rewrite Hroot in Hwalk. exact Hwalk.
    - assert (E' : lookupPTSlot P lvl1pt vptr (j - 1) s' = Done (walk_ok p) t').
      { unfold lookupPTSlot in *.
        apply bind_Done_inv in Hwalk. destruct Hwalk as ([] & s1 & Ha & _).
        rewrite (bind_Done _ _ _ _ _ (assert_any _ _ _ s' _ _ Ha)).
        pose proof Hroot as Hroot'. apply Z.eqb_neq in Hroot'. rewrite Hroot'. exact E. }
      destruct (lookupPTSlot_ok_inv _ _ _ _ _ _ _ E' eq_refl) as (q & _ & -> & _).
      exact E'. }
  replace j with (j - 1 + 1) at 1 by lia.
  rewrite (lookupPTSlot_step_eq P lvl1pt vptr (j - 1) s' p Hroot) by (try exact Hwalk'; lia).
  cbn [lookupPTSlot_loop]. munfold. rewrite Hp.
  apply Z.eqb_neq in Hnz. rewrite Hnz.
  rewrite (getPPtrFromHWPTE_run P p s') by (left; rewrite Hp; exact Hvalid).
  rewrite Hp, Htarget.
  replace (j - 1 + 1) with j by lia. reflexivity.
Qed.

(** Witness for X9: the fresh table [it_pt2] goes into root entry 2 of the
    populated system; the walk to level 2 at [0x80000000] then ends in
    it. *)
Lemma pageTableMap_then_walk_witness :
  exists s',
    performPageTableInvocationMap it_pt2_cap 700 (table_pte sv39 it_pt2)
      (ptr_index it_root 2) mapped_pt_state = Done EXCEPTION_NONE s'
    /\ lookupPTSlot sv39 it_root 0x80000000 2 s'
       = Done (walk_ok (ptr_index it_pt2 (RISCV_GET_PT_INDEX sv39 0x80000000 2))) s'.
Proof.
  destruct (pageTableMap_then_walk sv39 it_pt2_cap 700 it_pt2 it_root 0x80000000 2
              mapped_pt_state (ptr_index it_root 2)) as (s' & E & _ & _ & W).
  - simpl. lia.
  - vm_compute. reflexivity.
  - vm_compute. intros [].
  - split; [split; [discriminate | reflexivity] | split; reflexivity].
  - exists s'. split; [exact E | exact W].
Defined.

(** X14: once a [RISCVPageTableMap] has passed the checks placed before
    the walk, its outcome is decided by the entry in the slot where the
    walk ended, whatever the walk reported.  A non-zero entry there, which
    only a walk of the full depth can end on, gives [seL4_DeleteFirst]
    with nothing but the relays changed; an all-zero entry gets the new
    table's pointer, even in a slot of the deepest level. *)
Theorem pageTableMap_outcome_by_final_slot (P : platform) :
  forall (length cte : Z) (cap : cap_t) (extraCaps : list Z) (buffer : Z) (s : kstate)
         (asid root isMapped rootAddr : Z) (lu : lookupPTSlot_ret_t) (s_lu : kstate)
         (p : Z),
    vtable_root_b P s cap = false ->
    2 <= length ->
    excaprefs extraCaps 0 <> 0 ->
    ks_cte s (excaprefs extraCaps 0) = cap_page_table_cap asid root isMapped rootAddr ->
    isMapped <> 0 ->
    asid_root P s asid = Some root ->
    syscallArg P 0 buffer s < kernelBase P ->
    lookupPTSlot P root (syscallArg P 0 buffer s) (CONFIG_PT_LEVELS P) s = Done lu s_lu ->
    ptSlot lu = Some p ->
    let vaddr := syscallArg P 0 buffer s in
    let pte := pte_new (Z.shiftr (addrFromPPtr P (cap_page_table_cap_get_capPTBasePtr P cap))
                                 RISCV_4K_PageBits) 0 1 1 0 0 0 0 0 1 in
    let cap' := cap_page_table_cap_set_capPTMappedAddress P
                  (cap_page_table_cap_set_capPTMappedASID P
                     (cap_page_table_cap_set_capPTIsMapped P cap 1) asid) vaddr in
    exists s0 : kstate,
      relay_only s s0
      /\ (ks_mem s p <> 0 ->
          lu = walk_ok p
          /\ decodeRISCVPageTableInvocation P RISCVPageTableMap length cte cap
               extraCaps buffer s
             = Done EXCEPTION_SYSCALL_ERROR
                 (with_syscall_error
                    (set_se_type seL4_DeleteFirst (current_syscall_error s0)) s0))
      /\ (ks_mem s p = 0 ->
          decodeRISCVPageTableInvocation P RISCVPageTableMap length cte cap
            extraCaps buffer s
          = performPageTableInvocationMap cap' cte pte p
              (setThreadState P (ksCurThread s) ThreadState_Restart s0)).
Proof.
  intros length cte cap extraCaps buffer s asid root isMapped rootAddr lu s_lu p
         Hnotroot Hlen Hc0 Hcap Hmapped Hroot Hva Hwalk Hslot vaddr pte cap'.
  assert (Hroot0 : root <> 0).
  { unfold asid_root in Hroot.
    destruct (asid_pool_of P s asid =? 0); [discriminate|].
    destruct (asid_entry_of P s asid =? 0) eqn:E; [discriminate|].
    inversion Hroot; subst. apply Z.eqb_neq. exact E. }
  destruct (isVTableRoot_run P cap s) as (s1 & E1 & R1).
  assert (Hvr : forall t, relay_only s t ->
     vtable_root_b P t (cap_page_table_cap asid root isMapped rootAddr) = true).
  { intros t R. rewrite (vtable_root_b_relay P _ _ _ R).
    unfold vtable_root_b. rewrite Hroot. apply Z.eqb_refl. }
  destruct (isValidNativeRoot_run P (cap_page_table_cap asid root isMapped rootAddr) s1)
    as (s2 & E2 & R2).
  assert (R02 : relay_only s s2) by (eapply relay_only_trans; eassumption).
  destruct (isVTableRoot_run P (cap_page_table_cap asid root isMapped rootAddr) s2)
    as (s3 & E3 & R3).
  assert (R03 : relay_only s s3) by (eapply relay_only_trans; eassumption).
  destruct (findVSpaceForASID_run P asid s3) as (fr & s4 & E4 & R4 & V4).
  rewrite (asid_root_relay P _ _ _ R03), Hroot in V4. destruct V4 as [-> ->].
  destruct (lookupPTSlot_relay P _ _ _ _ _ _ _ R03 Hwalk) as (s5 & E5 & R5).
  assert (R05 : relay_only s s5).
  { eapply relay_only_trans; [exact R03|].
    eapply readonly_lookupPTSlot. exact E5. }
  assert (Hdec : decodeRISCVPageTableInvocation P RISCVPageTableMap length cte cap
                   extraCaps buffer s
                 = (if negb (ks_mem s p =? 0)
                    then syscall_error (set_se_type seL4_DeleteFirst) s5
                    else performPageTableInvocationMap cap' cte pte p
                           (setThreadState P (ksCurThread s) ThreadState_Restart s5))).
  { unfold decodeRISCVPageTableInvocation.
    rewrite (bind_Done _ _ _ _ _ E1), Hnotroot.
    cbn [label_eqb negb].
    apply Z.ltb_ge in Hlen. apply Z.eqb_neq in Hc0. rewrite Hlen, Hc0. cbn [orb].
    unfold bind at 1. unfold gets at 1. cbv beta iota.
    unfold bind at 1. unfold get_slot_cap at 1. unfold gets at 1. cbv beta iota.
    rewrite (relay_only_cte _ _ R1), Hcap.
    rewrite (bind_Done _ _ _ _ _ E2).
    rewrite (Hvr s1 R1).
    cbn [cap_page_table_cap_get_capPTIsMapped].
    apply Z.eqb_neq in Hmapped. rewrite Hmapped.
    cbn [negb andb cap_get_capType cap_tag_eqb].
    rewrite (bind_Done _ _ _ _ _ E3).
    rewrite (Hvr s2 R02). cbn [negb]. cbv zeta.
    cbn [cap_page_table_cap_get_capPTBasePtr cap_page_table_cap_get_capPTMappedASID].
    rewrite (syscallArg_relay P _ _ _ _ R1).
    apply Z.leb_gt in Hva. rewrite Hva.
    rewrite (bind_Done _ _ _ _ _ E4).
    cbn [fv_status vspace_root exception_eqb negb]. rewrite Z.eqb_refl. cbn [negb].
    rewrite (bind_Done _ _ _ _ _ E5).
    rewrite Hslot.
    unfold bind at 1. unfold load at 1. unfold gets at 1. cbv beta iota.
    rewrite (relay_only_mem _ _ R05).
    destruct (negb (ks_mem s p =? 0)); [reflexivity|].
    unfold restart_current_thread. munfold.
    rewrite (relay_only_cur _ _ R05). reflexivity. }
  exists s5. split; [exact R05|]. split.
  - intros Hnz. split.
    + destruct (lookupPTSlot_spec _ _ _ _ _ _ _ Hroot0 Hwalk)
        as [(q & -> & _) | (q & j & -> & _ & Hz & _)].
      * cbn in Hslot. inversion Hslot; subst. reflexivity.
      * cbn in Hslot. inversion Hslot; subst. contradiction.
    + rewrite Hdec. apply Z.eqb_neq in Hnz. rewrite Hnz. reflexivity.
  - intros Hz. rewrite Hdec, Hz. reflexivity.
Qed.

(** Witness for X14: in the system with three levels the walk at
    [0x40000000] runs the full depth; its final slot is empty, and the new
    table's pointer goes into that slot of the third level. *)
Lemma pageTableMap_outcome_by_final_slot_witness :
  exists s0 s',
    decodeRISCVPageTableInvocation sv39 RISCVPageTableMap 2 700 it_pt2_cap [200] 0
      (with_arg0 0x40000000 three_level_state)
    = performPageTableInvocationMap
        (cap_page_table_cap 1 it_pt2 1 0x40000000) 700 (table_pte sv39 it_pt2)
        (ptr_index it_pt3 0) s0
    /\ performPageTableInvocationMap
         (cap_page_table_cap 1 it_pt2 1 0x40000000) 700 (table_pte sv39 it_pt2)
         (ptr_index it_pt3 0) s0 = Done EXCEPTION_NONE s'.
Proof.
  destruct (pageTableMap_outcome_by_final_slot sv39
              2 700 it_pt2_cap [200] 0 (with_arg0 0x40000000 three_level_state)
              1 it_root 1 it_root (walk_ok (ptr_index it_pt3 0))
              (with_arg0 0x40000000 three_level_state) (ptr_index it_pt3 0))
    as (s0 & _ & _ & H).
  - vm_compute. reflexivity.
  - lia.
  - discriminate.
  - vm_compute. reflexivity.
  - discriminate.
  - vm_compute. reflexivity.
  - vm_compute. reflexivity.
  - vm_compute. reflexivity.
  - reflexivity.
  - eexists _, _. split; [apply H; vm_compute; reflexivity|].
    unfold performPageTableInvocationMap. munfold. reflexivity.
Defined.

(** ** Frame invocations, end to end *)

Lemma vtable_root_b_true (P : platform) s cap :
  vtable_root_b P s cap = true ->
  cap_get_capType cap = tag_page_table
  /\ asid_root P s (cap_page_table_cap_get_capPTMappedASID P cap)
     = Some (cap_page_table_cap_get_capPTBasePtr P cap).
Proof.
  unfold vtable_root_b. destruct cap; try discriminate.
  cbn [cap_get_capType cap_page_table_cap_get_capPTMappedASID
       cap_page_table_cap_get_capPTBasePtr].
  destruct (asid_root P s capPTMappedASID) as [root|]; [|discriminate].
  intros E. apply Z.eqb_eq in E. subst. split; reflexivity.
Qed.

Lemma updatePTE_single pte p s :
  word p = p ->
  updatePTE pte {| pr_base := p; pr_length := 1 |} s
  = Done EXCEPTION_NONE (with_mem (upd (ks_mem s) p pte) s).
Proof.
  intros Hp. unfold updatePTE. cbn [pr_length pr_base].
  change (Z.to_nat 1) with 1%nat. cbn [updatePTE_loop]. unfold sfence_vma. munfold.
  unfold ptr_index. rewrite Z.mul_0_r, Z.add_0_r, Hp. reflexivity.
Qed.

Lemma createSafeMappingEntries_PTE_ok (P : platform) base vaddr sz r attr lvl1pt s mr s' :
  createSafeMappingEntries_PTE P base vaddr sz r attr lvl1pt s = Done mr s' ->
  cm_status mr = EXCEPTION_NONE ->
  exists p,
    lookupPTSlot P lvl1pt vaddr (RISCVpageAtPTLevel P sz) s = Done (walk_ok p) s
    /\ word p = p
    /\ s' = s
    /\ mr = {| cm_status := EXCEPTION_NONE;
               cm_pte := makeUserPTE base (if riscvExecuteNever P attr then false else true) r;
               pte_entries := {| pr_base := p; pr_length := 1 |} |}.
Proof.
  unfold createSafeMappingEntries_PTE. cbv zeta. intros H Hst.
  apply bind_Done_inv in H. destruct H as (lu & s1 & El & H).
  destruct (negb (exception_eqb (lu_status lu) EXCEPTION_NONE)) eqn:En.
  - revert H. munfold. intros H. inversion H; subst. discriminate Hst.
  - assert (Hok : lu_status lu = EXCEPTION_NONE).
    { destruct (lu_status lu); try discriminate En. reflexivity. }
    destruct (lookupPTSlot_ok_inv _ _ _ _ _ _ _ El Hok) as (p & -> & -> & Hw & _).
    cbn [ptSlot walk_ok] in H. inversion H; subst.
    exists p. split; [exact El|]. split; [exact Hw|]. split; reflexivity.
Qed.

Lemma status_none_of_negb e :
  negb (exception_eqb e EXCEPTION_NONE) = false -> e = EXCEPTION_NONE.
Proof. destruct e; try discriminate. reflexivity. Qed.

(** What a [RISCVPageMap] that returns [EXCEPTION_NONE] has checked and
    done. *)
Lemma pageMap_success_inv (P : platform) :
  forall length cte asid0 base sz rights addr0 extraCaps buffer s s1,
    decodeRISCVFrameInvocation P RISCVPageMap length cte
      (cap_frame_cap asid0 base sz rights addr0) extraCaps buffer s
    = Done EXCEPTION_NONE s1 ->
    let vaddr := syscallArg P 0 buffer s in
    let rootCap := ks_cte s (excaprefs extraCaps 0) in
    let root := cap_page_table_cap_get_capPTBasePtr P rootCap in
    let asid := cap_page_table_cap_get_capPTMappedASID P rootCap in
    let pte := makeUserPTE (addrFromPPtr P base)
                 (if riscvExecuteNever P (syscallArg P 2 buffer s) then false else true)
                 (maskVMRights rights (rightsFromWord P (syscallArg P 1 buffer s))) in
    let cap' := cap_frame_cap_set_capFMappedAddress P
                  (cap_frame_cap_set_capFMappedASID P
                     (cap_frame_cap asid0 base sz rights addr0) asid) vaddr in
    exists p s0,
      relay_only s s0
      /\ lookupPTSlot P root vaddr (RISCVpageAtPTLevel P sz) s = Done (walk_ok p) s
      /\ word p = p
      /\ cap_get_capType rootCap = tag_page_table
      /\ asid_root P s asid = Some root
      /\ (kernelBase P <=? word (vaddr + BIT (pageBitsForSize P sz) - 1)) = false
      /\ checkVPAlignment P sz vaddr = true
      /\ (asid0 = asidInvalid \/ addr0 = vaddr)
      /\ s1 = (let sT := setThreadState P (ksCurThread s0) ThreadState_Restart s0 in
               with_mem (upd (ks_mem sT) p pte)
                 (with_cte (fun x => if x =? cte then cap' else ks_cte sT x) sT)).
Proof.
  intros length cte asid0 base sz rights addr0 extraCaps buffer s s1 H
         vaddr rootCap root asid pte cap'.
  unfold decodeRISCVFrameInvocation in H.
  destruct ((length <? 3) || (excaprefs extraCaps 0 =? 0)); [discriminate H|].
  revert H. munfold. cbv zeta.
  fold vaddr. fold rootCap.
  cbn [cap_frame_cap_get_capFMappedASID cap_frame_cap_get_capFMappedAddress
       cap_frame_cap_get_capFSize cap_frame_cap_get_capFVMRights
       cap_frame_cap_get_capFBasePtr].
  destruct (negb (unlikely asid0 =? asidInvalid) && negb (addr0 =? vaddr)) eqn:Emapped;
    [discriminate|].
  destruct (negb (cap_tag_eqb (cap_get_capType rootCap) tag_page_table)) eqn:Etype;
    [discriminate|].
  destruct (isVTableRoot_run P rootCap s) as (sa & Ea & Ra). rewrite Ea.
  destruct (vtable_root_b P s rootCap) eqn:Evr; [|discriminate]. cbn [negb].
  fold root. fold asid.
  destruct (lookupPTSlot P root vaddr (RISCVpageAtPTLevel P sz) sa) as [lu sb| |] eqn:Eb;
    try discriminate.
  destruct (negb (exception_eqb (lu_status lu) EXCEPTION_NONE)) eqn:Elu; [discriminate|].
  apply status_none_of_negb in Elu.
  destruct (lookupPTSlot_ok_inv _ _ _ _ _ _ _ Eb Elu) as (p0 & -> & -> & _ & _).
  destruct (findVSpaceForASID P asid sa) as [fr sc| |] eqn:Ec; try discriminate.
  pose proof (readonly_findVSpaceForASID P asid _ _ _ Ec) as Rc.
  destruct (negb (exception_eqb (fv_status fr) EXCEPTION_NONE)); [discriminate|].
  destruct (negb (vspace_root fr =? root)); [discriminate|].
  destruct (kernelBase P <=? word (vaddr + BIT (pageBitsForSize P sz) - 1)) eqn:Etop;
    [discriminate|].
  destruct (negb (checkVPAlignment P sz vaddr)) eqn:Ealign; [discriminate|].
  apply negb_false_iff in Ealign.
  destruct (createSafeMappingEntries_PTE P _ _ _ _ _ _ sc) as [mr sd| |] eqn:Ed;
    try discriminate.
  destruct (negb (exception_eqb (cm_status mr) EXCEPTION_NONE)) eqn:Est.
  { intros H. inversion H as [[Hst Hs]]. rewrite Hst in Est. discriminate Est. }
  apply status_none_of_negb in Est.
  destruct (createSafeMappingEntries_PTE_ok _ _ _ _ _ _ _ _ _ _ Ed Est)
    as (p & Hwalk & Hw & -> & ->).
  assert (R0c : relay_only s sc) by (eapply relay_only_trans; eassumption).
  unfold restart_current_thread, performPageInvocationMapPTE. munfold.
  cbn [cm_pte pte_entries].
  rewrite (updatePTE_single _ _ _ Hw).
  intros H. inversion H as [Hs1]. clear H.
  exists p, sc.
  split; [exact R0c|].
  split.
  { destruct (lookupPTSlot_relay P _ _ _ _ _ _ _ (relay_only_sym _ _ R0c) Hwalk)
      as (t' & E & _).
    destruct (lookupPTSlot_ok_inv _ _ _ _ _ _ _ E eq_refl) as (q & _ & -> & _).
    exact E. }
  split; [exact Hw|].
  destruct (vtable_root_b_true P s rootCap Evr) as [Htag Hroot].
  split; [exact Htag|]. split; [exact Hroot|]. split; [reflexivity|].
  split; [exact Ealign|].
  split.
  { unfold unlikely, asidInvalid in Emapped.
    destruct (Z.eq_dec asid0 0) as [->|Hne]; [left; reflexivity|].
    right. apply Z.eqb_neq in Hne. rewrite Hne in Emapped. cbn in Emapped.
    apply negb_false_iff, Z.eqb_eq in Emapped. exact Emapped. }
  cbv zeta. reflexivity.
Qed.

Lemma lookupPTSlot_same_mem (P : platform) lvl1pt vptr ptLevel s t r s' :
  ks_mem t = ks_mem s ->
  lookupPTSlot P lvl1pt vptr ptLevel s = Done r s' ->
  exists t', lookupPTSlot P lvl1pt vptr ptLevel t = Done r t' /\ relay_only t t'.
Proof.
  intros Hm H. unfold lookupPTSlot in *.
  apply bind_Done_inv in H. destruct H as ([] & s1 & Ha & H).
  pose proof (assert_Done _ _ _ _ _ Ha) as ->.
  rewrite (bind_Done _ _ _ _ _ (assert_any _ _ _ t _ _ Ha)).
  destruct (lvl1pt =? 0).
  - inversion H; subst. exists t. split; [reflexivity | apply relay_only_refl].
  - eapply lookupPTSlot_loop_local; [|exact H]. intros a _. rewrite Hm. reflexivity.
Qed.

Lemma lookupPTSlot_ok_same_mem (P : platform) lvl1pt vptr ptLevel s t p :
  ks_mem t = ks_mem s ->
  lookupPTSlot P lvl1pt vptr ptLevel s = Done (walk_ok p) s ->
  lookupPTSlot P lvl1pt vptr ptLevel t = Done (walk_ok p) t.
Proof.
  intros Hm H.
  destruct (lookupPTSlot_same_mem P _ _ _ _ t _ _ Hm H) as (t' & E & _).
  destruct (lookupPTSlot_ok_inv _ _ _ _ _ _ _ E eq_refl) as (q & _ & -> & _).
  exact E.
Qed.

Lemma lookupPTSlot_ok_local (P : platform) lvl1pt vptr ptLevel s t p :
  (forall a, In a (lookup_path P lvl1pt vptr ptLevel (ks_mem s)) ->
             ks_mem t a = ks_mem s a) ->
  lookupPTSlot P lvl1pt vptr ptLevel s = Done (walk_ok p) s ->
  lookupPTSlot P lvl1pt vptr ptLevel t = Done (walk_ok p) t.
Proof.
  intros Hagree H.
  assert (E : exists t', lookupPTSlot P lvl1pt vptr ptLevel t = Done (walk_ok p) t').
  { unfold lookupPTSlot in *.
    apply bind_Done_inv in H. destruct H as ([] & s1 & Ha & H).
    pose proof (assert_Done _ _ _ _ _ Ha) as ->.
    rewrite (bind_Done _ _ _ _ _ (assert_any _ _ _ t _ _ Ha)).
    destruct (lvl1pt =? 0); [discriminate H|].
    destruct (lookupPTSlot_loop_local P _ _ _ _ s t _ _ Hagree H) as (t' & E & _).
    exists t'. exact E. }
  destruct E as (t' & E).
  destruct (lookupPTSlot_ok_inv _ _ _ _ _ _ _ E eq_refl) as (q & _ & -> & _).
  exact E.
Qed.

Lemma asid_root_ext (P : platform) s t asid :
  ks_mem t = ks_mem s -> riscvKSASIDTable t = riscvKSASIDTable s ->
  asid_root P t asid = asid_root P s asid.
Proof.
  intros Hm Ht. unfold asid_root, asid_entry_of, asid_pool_of. rewrite Hm, Ht. reflexivity.
Qed.

(** X10: what a successful [RISCVPageMap] does.  It writes the entry
    [makeUserPTE] builds from the frame's physical address, the
    execute-never attribute and the capability's rights masked by the
    message, into the slot the walk to the frame-size level returns under
    the supplied root, which is the root registered for the ASID it stamps,
    with the requested address, on the capability in the invoked slot.  No
    other memory word, capability slot or ASID-table entry changes, and a
    walk at the mapped address then ends on the slot holding that entry.
    The thread-state collaborator is taken to leave memory, slots and the
    ASID table alone. *)
Theorem pageMap_success_effect (P : platform) :
  thread_state_only P ->
  forall (length cptr cte asid0 base sz : Z) (rights : vm_rights_t) (addr0 : Z)
         (extraCaps : list Z) (buffer : Z) (s s1 : kstate),
    decodeRISCVMMUInvocation P RISCVPageMap length cptr cte
      (cap_frame_cap asid0 base sz rights addr0) extraCaps buffer s
    = Done EXCEPTION_NONE s1 ->
    let vaddr := syscallArg P 0 buffer s in
    let rootCap := ks_cte s (excaprefs extraCaps 0) in
    let root := cap_page_table_cap_get_capPTBasePtr P rootCap in
    let asid := cap_page_table_cap_get_capPTMappedASID P rootCap in
    let level := RISCVpageAtPTLevel P sz in
    let pte := makeUserPTE (addrFromPPtr P base)
                 (if riscvExecuteNever P (syscallArg P 2 buffer s) then false else true)
                 (maskVMRights rights (rightsFromWord P (syscallArg P 1 buffer s))) in
    exists p,
      lookupPTSlot P root vaddr level s = Done (walk_ok p) s
      /\ asid_root P s asid = Some root
      /\ (forall a, ks_mem s1 a = if a =? p then pte else ks_mem s a)
      /\ (forall c, ks_cte s1 c =
                    if c =? cte
                    then cap_frame_cap (field_store P F_capFMappedASID asid) base sz rights
                                       (field_store P F_capFMappedAddress vaddr)
                    else ks_cte s c)
      /\ riscvKSASIDTable s1 = riscvKSASIDTable s
      /\ (~ In p (lookup_path P root vaddr level (ks_mem s)) ->
          lookupPTSlot P root vaddr level s1 = Done (walk_ok p) s1
          /\ ks_mem s1 p = pte).
Proof.
  intros Hts length cptr cte asid0 base sz rights addr0 extraCaps buffer s s1 H
         vaddr rootCap root asid level pte.
  unfold decodeRISCVMMUInvocation in H. cbn [cap_get_capType] in H.
  destruct (pageMap_success_inv P _ _ _ _ _ _ _ _ _ _ _ H)
    as (p & s0 & R0 & Hwalk & Hw & _ & Hroot & _ & _ & _ & Hs1).
  cbv zeta in Hs1. fold vaddr rootCap in Hs1. fold asid in Hs1.
  destruct (Hts (ksCurThread s0) ThreadState_Restart s0) as (Tm & Tc & Tt & _).
  rewrite (relay_only_mem _ _ R0) in Tm. rewrite (relay_only_cte _ _ R0) in Tc.
  rewrite (relay_only_table _ _ R0) in Tt.
  assert (Hmem : forall a, ks_mem s1 a = if a =? p then pte else ks_mem s a).
  { intros a. rewrite Hs1. cbn [ks_mem with_mem with_cte]. unfold upd. rewrite Tm. reflexivity. }
  exists p. split; [exact Hwalk|]. split; [exact Hroot|]. split; [exact Hmem|].
  split.
  { intros c. rewrite Hs1. cbn [ks_cte with_mem with_cte]. rewrite Tc. reflexivity. }
  split.
  { rewrite Hs1. cbn [riscvKSASIDTable with_mem with_cte]. exact Tt. }
  intros Hfresh. split.
  - apply (lookupPTSlot_ok_local P root vaddr level s s1 p); [|exact Hwalk].
    intros a Ha'. rewrite Hmem.
    destruct (a =? p) eqn:Eap; [|reflexivity].
    apply Z.eqb_eq in Eap. subst a. exfalso. apply Hfresh. exact Ha'.
  - rewrite Hmem, Z.eqb_refl. reflexivity.
Qed.

Lemma thread_state_only_sv39 : thread_state_only sv39.
Proof. intros t ts s. repeat split; reflexivity. Qed.

(** Witness for X10: the 2 MiB frame of slot 300 is mapped at [it_vaddr]
    in the populated system, with an empty rights mask. *)
Lemma pageMap_success_effect_witness :
  exists s1,
    decodeRISCVMMUInvocation sv39 RISCVPageMap 3 0 300 it_mega_frame_cap [200] 0
      (with_arg0 0x40000000 mapped_pt_state) = Done EXCEPTION_NONE s1
    /\ ks_mem s1 (ptr_index it_pt 0)
       = makeUserPTE (addrFromPPtr sv39 it_frame) true VMNoAccess.
Proof.
  eexists. split; [vm_compute; reflexivity|].
  match goal with
  | |- ks_mem ?s1 _ = _ =>
      destruct (pageMap_success_effect sv39 thread_state_only_sv39
                  3 0 300 asidInvalid it_frame 1 VMReadWrite 0 [200] 0
                  (with_arg0 0x40000000 mapped_pt_state) s1)
        as (p & Hwalk & _ & Hmem & _)
  end.
  - vm_compute. reflexivity.
  - assert (Hp : p = ptr_index it_pt 0).
    { vm_compute in Hwalk. inversion Hwalk. reflexivity. }
    rewrite Hmem, Hp, Z.eqb_refl. vm_compute. reflexivity.
Defined.

Lemma BIT_pow2 n : 0 <= n < wordBits -> BIT n = 2 ^ n.
Proof.
  intros Hn. unfold BIT, word. rewrite Z.shiftl_1_l.
  apply Z.mod_small. split.
  - apply Z.pow_nonneg. lia.
  - apply Z.pow_lt_mono_r; lia.
Qed.

Lemma aligned_page_fits v b :
  0 <= b < wordBits -> 0 <= v < 2 ^ wordBits -> v mod 2 ^ b = 0 ->
  v + 2 ^ b <= 2 ^ wordBits.
Proof.
  intros Hb Hv Hm.
  assert (Hpos : 0 < 2 ^ b) by (apply Z.pow_pos_nonneg; lia).
  assert (E : 2 ^ wordBits = 2 ^ b * 2 ^ (wordBits - b)).
  { rewrite <- Z.pow_add_r by lia. f_equal. lia. }
  pose proof (Z.div_mod v (2 ^ b)) as Hd.
  assert (Hq : v = 2 ^ b * (v / 2 ^ b)) by lia.
  assert (Hlt : v / 2 ^ b < 2 ^ (wordBits - b)).
  { apply Z.div_lt_upper_bound; [exact Hpos|]. rewrite <- E. lia. }
  rewrite E. nia.
Qed.

(** X11: a [RISCVPageMap] never succeeds on a frame that reaches into the
    kernel window or that is misaligned: when it returns [EXCEPTION_NONE],
    the requested address is a multiple of the frame size and the whole
    frame, up to its last byte, lies below [kernelBase], without
    wrap-around. *)
Theorem pageMap_success_below_kernelBase (P : platform) :
  forall (length cptr cte asid0 base sz : Z) (rights : vm_rights_t) (addr0 : Z)
         (extraCaps : list Z) (buffer : Z) (s s1 : kstate),
    0 <= pageBitsForSize P sz < wordBits ->
    0 <= syscallArg P 0 buffer s < 2 ^ wordBits ->
    decodeRISCVMMUInvocation P RISCVPageMap length cptr cte
      (cap_frame_cap asid0 base sz rights addr0) extraCaps buffer s
    = Done EXCEPTION_NONE s1 ->
    let vaddr := syscallArg P 0 buffer s in
    vaddr mod 2 ^ pageBitsForSize P sz = 0
    /\ vaddr + 2 ^ pageBitsForSize P sz <= kernelBase P
    /\ forall a, vaddr <= a < vaddr + 2 ^ pageBitsForSize P sz -> a < kernelBase P.
Proof.
  intros length cptr cte asid0 base sz rights addr0 extraCaps buffer s s1 Hb Hv H vaddr.
  unfold decodeRISCVMMUInvocation in H. cbn [cap_get_capType] in H.
  destruct (pageMap_success_inv P _ _ _ _ _ _ _ _ _ _ _ H)
    as (p & s0 & _ & _ & _ & _ & _ & Htop & Halign & _).
  fold vaddr in Htop, Halign, Hv.
  unfold checkVPAlignment in Halign. rewrite land_MASK in Halign by exact Hb.
  apply Z.eqb_eq in Halign.
  pose proof (aligned_page_fits vaddr _ Hb Hv Halign) as Hfit.
  assert (Hpos : 0 < 2 ^ pageBitsForSize P sz) by (apply Z.pow_pos_nonneg; lia).
  rewrite BIT_pow2 in Htop by exact Hb.
  unfold word in Htop. rewrite Z.mod_small in Htop by lia.
  apply Z.leb_gt in Htop.
  split; [exact Halign|]. split; [lia|]. intros a Ha. lia.
Qed.

(** Witness for X11: the same mapping as for X10. *)
Lemma pageMap_success_below_kernelBase_witness :
  0x40000000 mod 2 ^ 21 = 0 /\ 0x40000000 + 2 ^ 21 <= kernelBase sv39.
Proof.
  destruct (pageMap_success_below_kernelBase sv39
              3 0 300 asidInvalid it_frame 1 VMReadWrite 0 [200] 0
              (with_arg0 0x40000000 mapped_pt_state)
              (with_mem
                 (upd (ks_mem (with_arg0 0x40000000 mapped_pt_state)) (ptr_index it_pt 0)
                    (makeUserPTE (addrFromPPtr sv39 it_frame) true VMNoAccess))
                 (with_cte
                    (fun x => if x =? 300
                              then cap_frame_cap 1 it_frame 1 VMReadWrite 0x40000000
                              else ks_cte (with_arg0 0x40000000 mapped_pt_state) x)
                    (with_arg0 0x40000000 mapped_pt_state)))) as (H1 & H2 & _).
  - simpl. unfold wordBits. lia.
  - split; [discriminate | reflexivity].
  - vm_compute. reflexivity.
  - split; [exact H1 | exact H2].
Defined.

(** X12: what a successful [RISCVPageRemap] does.  It succeeds only on a
    capability whose mapped ASID is valid; the address is the capability's
    own mapped address, not one from the message; the entry built from the
    new rights mask and attributes is written into the slot the walk
    returns under the supplied root, and no capability slot, no other
    memory word and no ASID-table entry changes.  The capability's mapped
    ASID is tested for validity only: the tables written are those of the
    root capability passed with the message. *)
Theorem pageRemap_success_effect (P : platform) :
  thread_state_only P ->
  forall (length cptr cte asid0 base sz : Z) (rights : vm_rights_t) (addr0 : Z)
         (extraCaps : list Z) (buffer : Z) (s s1 : kstate),
    decodeRISCVMMUInvocation P RISCVPageRemap length cptr cte
      (cap_frame_cap asid0 base sz rights addr0) extraCaps buffer s
    = Done EXCEPTION_NONE s1 ->
    let rootCap := ks_cte s (excaprefs extraCaps 0) in
    let root := cap_page_table_cap_get_capPTBasePtr P rootCap in
    let asid := cap_page_table_cap_get_capPTMappedASID P rootCap in
    let pte := makeUserPTE (addrFromPPtr P base)
                 (if riscvExecuteNever P (syscallArg P 1 buffer s) then false else true)
                 (maskVMRights rights (rightsFromWord P (syscallArg P 0 buffer s))) in
    exists p,
      asid0 <> asidInvalid
      /\ asid_root P s asid = Some root
      /\ lookupPTSlot P root addr0 (RISCVpageAtPTLevel P sz) s = Done (walk_ok p) s
      /\ (forall a, ks_mem s1 a = if a =? p then pte else ks_mem s a)
      /\ ks_cte s1 = ks_cte s
      /\ riscvKSASIDTable s1 = riscvKSASIDTable s.
Proof.
  intros Hts length cptr cte asid0 base sz rights addr0 extraCaps buffer s s1 H
         rootCap root asid pte.
  unfold decodeRISCVMMUInvocation in H. cbn [cap_get_capType] in H.
  unfold decodeRISCVFrameInvocation in H.
  destruct ((length <? 2) || (excaprefs extraCaps 0 =? 0)); [discriminate H|].
  revert H. munfold. cbv zeta. fold rootCap.
  cbn [cap_frame_cap_get_capFMappedASID cap_frame_cap_get_capFMappedAddress
       cap_frame_cap_get_capFSize cap_frame_cap_get_capFVMRights
       cap_frame_cap_get_capFBasePtr].
  destruct (negb (cap_tag_eqb (cap_get_capType rootCap) tag_page_table)); [discriminate|].
  destruct (isVTableRoot_run P rootCap s) as (sa & Ea & Ra). rewrite Ea.
  destruct (vtable_root_b P s rootCap) eqn:Evr; [|discriminate]. cbn [negb].
  destruct (unlikely asid0 =? asidInvalid) eqn:Easid; [discriminate|].
  fold root. fold asid.
  destruct (findVSpaceForASID P asid sa) as [fr sc| |] eqn:Ec; try discriminate.
  pose proof (readonly_findVSpaceForASID P asid _ _ _ Ec) as Rc.
  destruct (negb (exception_eqb (fv_status fr) EXCEPTION_NONE)); [discriminate|].
  destruct (negb (vspace_root fr =? root)); [discriminate|].
  destruct (lookupPTSlot P root addr0 (RISCVpageAtPTLevel P sz) sc) as [lu sd| |] eqn:Eb;
    try discriminate.
  destruct (negb (exception_eqb (lu_status lu) EXCEPTION_NONE)) eqn:Elu; [discriminate|].
  apply status_none_of_negb in Elu.
  destruct (lookupPTSlot_ok_inv _ _ _ _ _ _ _ Eb Elu) as (p0 & -> & -> & _ & _).
  destruct (createSafeMappingEntries_PTE P _ _ _ _ _ _ sc) as [mr se| |] eqn:Ed;
    try discriminate.
  destruct (negb (exception_eqb (cm_status mr) EXCEPTION_NONE)) eqn:Est.
  { intros H. inversion H as [[Hst Hs]]. rewrite Hst in Est. discriminate Est. }
  apply status_none_of_negb in Est.
  destruct (createSafeMappingEntries_PTE_ok _ _ _ _ _ _ _ _ _ _ Ed Est)
    as (p & Hwalk & Hw & -> & ->).
  assert (R0 : relay_only s sc) by (eapply relay_only_trans; eassumption).
  unfold restart_current_thread, performPageInvocationRemapPTE. munfold.
  cbn [cm_pte pte_entries].
  rewrite (updatePTE_single _ _ _ Hw).
  intros H. inversion H as [Hs1]. clear H.
  destruct (Hts (ksCurThread sc) ThreadState_Restart sc) as (Tm & Tc & Tt & _).
  rewrite (relay_only_mem _ _ R0) in Tm. rewrite (relay_only_cte _ _ R0) in Tc.
  rewrite (relay_only_table _ _ R0) in Tt.
  exists p.
  split.
  { unfold unlikely, asidInvalid in *. intros ->. discriminate Easid. }
  split; [exact (proj2 (vtable_root_b_true P s rootCap Evr))|].
  split.
  { apply (lookupPTSlot_ok_same_mem P _ _ _ sc s p); [|exact Hwalk].
    symmetry. apply relay_only_mem. exact R0. }
  split.
  { intros a. cbn [ks_mem with_mem]. unfold upd. rewrite Tm. reflexivity. }
  split; [cbn [ks_cte with_mem]; exact Tc | cbn [riscvKSASIDTable with_mem]; exact Tt].
Qed.

(** Witness for X12: the 4 KiB frame capability of slot 400, marked as
    mapped at [0x40001000], is remapped in a system whose table [it_pt]
    points on to a third-level table. *)
Lemma pageRemap_success_effect_witness :
  exists s1 p,
    decodeRISCVMMUInvocation sv39 RISCVPageRemap 2 0 400 it_mapped_frame_cap [200] 0
      three_level_state = Done EXCEPTION_NONE s1
    /\ lookupPTSlot sv39 it_root 0x40001000 3 three_level_state
       = Done (walk_ok p) three_level_state
    /\ ks_cte s1 = ks_cte three_level_state.
Proof.
  eexists.
  match goal with
  | |- exists p, ?run = Done _ ?s1 /\ _ =>
      assert (Hrun : run = Done EXCEPTION_NONE s1) by (vm_compute; reflexivity);
      destruct (pageRemap_success_effect sv39 thread_state_only_sv39
                  2 0 400 1 it_frame 0 VMReadWrite 0x40001000 [200] 0
                  three_level_state s1 Hrun)
        as (p & _ & _ & Hwalk & _ & Hc & _)
  end.
  exists p. split; [exact Hrun|]. split; [exact Hwalk | exact Hc].
Defined.

(** What a finished [unmapPage] has done. *)
Lemma unmapPage_run (P : platform) sz asid vptr pptr s u s' :
  unmapPage P sz asid vptr pptr s = Done u s' ->
  ks_cte s' = ks_cte s
  /\ riscvKSASIDTable s' = riscvKSASIDTable s
  /\ match asid_root P s asid with
     | None => ks_mem s' = ks_mem s
     | Some root =>
         exists lu t,
           lookupPTSlot P root vptr (RISCVpageAtPTLevel P sz) s = Done lu t
           /\ match lu_status lu, ptSlot lu with
              | EXCEPTION_NONE, Some p => ks_mem s' = upd (ks_mem s) p 0
              | _, _ => ks_mem s' = ks_mem s
              end
     end.
Proof.
  unfold unmapPage. intros H.
  destruct (findVSpaceForASID_run P asid s) as (fr & sa & Ef & Ra & V).
  rewrite (bind_Done _ _ _ _ _ Ef) in H.
  destruct (asid_root P s asid) as [root|].
  - destruct V as [-> ->]. cbn [fv_status vspace_root exception_eqb negb] in H.
    apply bind_Done_inv in H. destruct H as (lu & sb & El & H).
    pose proof (readonly_lookupPTSlot P _ _ _ _ _ _ El) as Rb.
    destruct (negb (exception_eqb (lu_status lu) EXCEPTION_NONE)) eqn:En.
    + inversion H; subst.
      split; [apply relay_only_cte; exact Rb|].
      split; [apply relay_only_table; exact Rb|].
      exists lu, s'. split; [exact El|].
      destruct (lu_status lu); try discriminate En;
        apply relay_only_mem; exact Rb.
    + apply status_none_of_negb in En.
      destruct (lookupPTSlot_ok_inv _ _ _ _ _ _ _ El En) as (p & -> & -> & _ & _).
      cbn [ptSlot walk_ok] in H. revert H. unfold sfence_vma, pte_pte_invalid_new. munfold.
      intros H. inversion H; subst.
      split; [reflexivity|]. split; [reflexivity|].
      exists (walk_ok p), s. split; [exact El | reflexivity].
  - rewrite V in H. cbn [fv_status exception_eqb negb] in H. inversion H; subst.
    split; [apply relay_only_cte; exact Ra|].
    split; [apply relay_only_table; exact Ra | apply relay_only_mem; exact Ra].
Qed.

Lemma getPPtrFromHWPTE_mem (P : platform) pte s t :
  ks_mem t = ks_mem s ->
  match getPPtrFromHWPTE P pte s, getPPtrFromHWPTE P pte t with
  | Done r s', Done r' t' => r = r' /\ s' = s /\ t' = t
  | Halt, Halt => True
  | _, _ => False
  end.
Proof.
  intros Hm. unfold getPPtrFromHWPTE, assert. munfold. rewrite Hm.
  destruct (CONFIG_DEBUG_BUILD P && negb (isValidHWPageTable (ks_mem s pte)));
    [exact I | repeat split; reflexivity].
Qed.

(** On states with the same memory the walker gives the same answer, and
    it never goes through an unassigned pointer. *)
Lemma lookupPTSlot_loop_mem_cases (P : platform) n : forall i vptr slot s t,
  ks_mem t = ks_mem s ->
  match lookupPTSlot_loop P n i vptr slot s, lookupPTSlot_loop P n i vptr slot t with
  | Done r _, Done r' _ => r = r'
  | Halt, Halt => True
  | _, _ => False
  end.
Proof.
  induction n as [|n IH]; intros i vptr slot s t Hm; cbn [lookupPTSlot_loop].
  - reflexivity.
  - munfold. rewrite Hm.
    destruct (ks_mem s slot =? 0); [reflexivity|].
    pose proof (getPPtrFromHWPTE_mem P slot s t Hm) as Hg.
    destruct (getPPtrFromHWPTE P slot s) as [pt s1| |],
             (getPPtrFromHWPTE P slot t) as [pt' t1| |]; try contradiction; try exact I.
    destruct Hg as (-> & -> & ->). apply IH. exact Hm.
Qed.

Lemma lookupPTSlot_mem_cases (P : platform) lvl1pt vptr ptLevel s t :
  ks_mem t = ks_mem s ->
  match lookupPTSlot P lvl1pt vptr ptLevel s, lookupPTSlot P lvl1pt vptr ptLevel t with
  | Done r _, Done r' _ => r = r'
  | Halt, Halt => True
  | _, _ => False
  end.
Proof.
  intros Hm. unfold lookupPTSlot, assert. munfold.
  destruct (CONFIG_DEBUG_BUILD P && negb (ptLevel <=? CONFIG_PT_LEVELS P)); [exact I|].
  destruct (lvl1pt =? 0); [reflexivity|].
  apply lookupPTSlot_loop_mem_cases. exact Hm.
Qed.

(** [unmapPage], case by case: it stops only where the walker stops. *)
Lemma unmapPage_total (P : platform) sz asid vptr pptr s :
  match asid_root P s asid with
  | None => exists s', unmapPage P sz asid vptr pptr s = Done tt s' /\ relay_only s s'
  | Some root =>
      match lookupPTSlot P root vptr (RISCVpageAtPTLevel P sz) s with
      | Halt => unmapPage P sz asid vptr pptr s = Halt
      | Undef => False
      | Done lu _ =>
          exists s',
            unmapPage P sz asid vptr pptr s = Done tt s'
            /\ ks_cte s' = ks_cte s
            /\ riscvKSASIDTable s' = riscvKSASIDTable s
            /\ match lu_status lu, ptSlot lu with
               | EXCEPTION_NONE, Some p => ks_mem s' = upd (ks_mem s) p 0
               | _, _ => ks_mem s' = ks_mem s
               end
      end
  end.
Proof.
  unfold unmapPage.
  destruct (findVSpaceForASID_run P asid s) as (fr & sa & Ef & Ra & V).
  rewrite (bind_Done _ _ _ _ _ Ef).
  destruct (asid_root P s asid) as [root|].
  - destruct V as [-> ->]. cbn [fv_status vspace_root exception_eqb negb].
    pose proof (lookupPTSlot_mem_cases P root vptr (RISCVpageAtPTLevel P sz) s s eq_refl)
      as Hc.
    unfold bind.
    destruct (lookupPTSlot P root vptr (RISCVpageAtPTLevel P sz) s) as [lu t| |] eqn:El;
      [|reflexivity|exact Hc].
    pose proof (readonly_lookupPTSlot P _ _ _ _ _ _ El) as Rb.
    destruct (negb (exception_eqb (lu_status lu) EXCEPTION_NONE)) eqn:En.
    + exists t. split; [reflexivity|].
      split; [apply relay_only_cte; exact Rb|].
      split; [apply relay_only_table; exact Rb|].
      destruct (lu_status lu); try discriminate En; apply relay_only_mem; exact Rb.
    + apply status_none_of_negb in En.
      destruct (lookupPTSlot_ok_inv _ _ _ _ _ _ _ El En) as (p & -> & -> & _ & _).
      cbn [ptSlot walk_ok lu_status]. unfold sfence_vma, pte_pte_invalid_new. munfold.
      eexists. split; [reflexivity|].
      split; [reflexivity|]. split; reflexivity.
  - rewrite V. cbn [fv_status exception_eqb negb].
    exists sa. split; [reflexivity | exact Ra].
Qed.

(** X13: what [RISCVPageUnmap] does.  It stops only where the walker's
    assertion stops it: on a valid, bound ASID whose walk meets an entry
    that is not a table pointer.  In every other case it completes and
    cannot report an error.  The capability in the invoked slot gets its
    mapped address and mapped ASID reset, whatever happens to the tables.
    If the invoked capability's ASID is valid and bound to a root and the
    walk at its mapped address to the frame-size level reports no error,
    the entry at the slot reached is zeroed, whatever it held; otherwise
    memory is left as it is.  No other slot, word or ASID-table entry
    changes. *)
Theorem pageUnmap_effect (P : platform) :
  thread_state_only P ->
  forall (length cptr cte asid0 base sz : Z) (rights : vm_rights_t) (addr0 : Z)
         (extraCaps : list Z) (buffer : Z) (s : kstate),
    let run := decodeRISCVMMUInvocation P RISCVPageUnmap length cptr cte
                 (cap_frame_cap asid0 base sz rights addr0) extraCaps buffer s in
    let walk_halts :=
      asid0 <> asidInvalid
      /\ exists root, asid_root P s asid0 = Some root
                      /\ lookupPTSlot P root addr0 (RISCVpageAtPTLevel P sz) s = Halt in
    (walk_halts -> run = Halt)
    /\ (~ walk_halts ->
        exists s1,
          run = Done EXCEPTION_NONE s1
          /\ (forall c, ks_cte s1 c =
                        if c =? cte
                        then cap_frame_cap_set_capFMappedASID P
                               (cap_frame_cap_set_capFMappedAddress P (ks_cte s cte) 0)
                               asidInvalid
                        else ks_cte s c)
          /\ riscvKSASIDTable s1 = riscvKSASIDTable s
          /\ match (if asid0 =? asidInvalid then None else asid_root P s asid0) with
             | None => ks_mem s1 = ks_mem s
             | Some root =>
                 exists lu t,
                   lookupPTSlot P root addr0 (RISCVpageAtPTLevel P sz) s = Done lu t
                   /\ match lu_status lu, ptSlot lu with
                      | EXCEPTION_NONE, Some p => ks_mem s1 = upd (ks_mem s) p 0
                      | _, _ => ks_mem s1 = ks_mem s
                      end
             end).
Proof.
  intros Hts length cptr cte asid0 base sz rights addr0 extraCaps buffer s run walk_halts.
  subst run walk_halts.
  set (sT := setThreadState P (ksCurThread s) ThreadState_Restart s).
  destruct (Hts (ksCurThread s) ThreadState_Restart s) as (Tm & Tc & Tt & _).
  fold sT in Tm, Tc, Tt.
  assert (Hrun : decodeRISCVMMUInvocation P RISCVPageUnmap length cptr cte
                   (cap_frame_cap asid0 base sz rights addr0) extraCaps buffer s
                 = performPageInvocationUnmap P (cap_frame_cap asid0 base sz rights addr0)
                     cte sT).
  { unfold decodeRISCVMMUInvocation. cbn [cap_get_capType].
    unfold decodeRISCVFrameInvocation, restart_current_thread. munfold. reflexivity. }
  rewrite Hrun. clear Hrun.
  unfold performPageInvocationUnmap.
  cbn [cap_frame_cap_get_capFMappedASID cap_frame_cap_get_capFMappedAddress
       cap_frame_cap_get_capFSize cap_frame_cap_get_capFBasePtr].
  pose proof (unmapPage_total P sz asid0 addr0 base sT) as HU.
  rewrite (asid_root_ext P s sT asid0 Tm Tt) in HU.
  pose proof (fun root => lookupPTSlot_mem_cases P root addr0 (RISCVpageAtPTLevel P sz)
                            s sT Tm) as Hsame.
  destruct (asid0 =? asidInvalid) eqn:Ea; cbn [negb].
  - split.
    + intros (Hne & _). apply Z.eqb_eq in Ea. contradiction.
    + intros _. munfold. eexists. split; [reflexivity|].
      cbn [ks_cte ks_mem riscvKSASIDTable with_cte].
      split.
      { intros c. rewrite Z.eqb_refl.
        destruct (c =? cte) eqn:Ec; rewrite Tc; reflexivity. }
      split; [exact Tt | exact Tm].
  - destruct (asid_root P s asid0) as [root|] eqn:Er.
    + specialize (Hsame root).
      destruct (lookupPTSlot P root addr0 (RISCVpageAtPTLevel P sz) s) as [lu t| |] eqn:El;
        destruct (lookupPTSlot P root addr0 (RISCVpageAtPTLevel P sz) sT) as [lu' t'| |]
          eqn:El'; try contradiction.
      * subst lu'. destruct HU as (sU & EU & Uc & Ut & Um).
        rewrite (bind_Done _ _ _ _ _ EU).
        split.
        { intros (_ & root' & Hr' & Hh). inversion Hr'; subst root'.
          rewrite El in Hh. discriminate Hh. }
        intros _. munfold. eexists. split; [reflexivity|].
        cbn [ks_cte ks_mem riscvKSASIDTable with_cte].
        split.
        { intros c. rewrite Z.eqb_refl.
          destruct (c =? cte) eqn:Ec; rewrite Uc, Tc; reflexivity. }
        split; [rewrite Ut; exact Tt|].
        exists lu, t. split; [reflexivity|].
        rewrite Tm in Um. exact Um.
      * split.
        { intros _. unfold bind at 1. rewrite HU. reflexivity. }
        intros Hn. exfalso. apply Hn. split.
        { apply Z.eqb_neq. exact Ea. }
        exists root. split; [reflexivity | exact El].
    + destruct HU as (sU & EU & RU).
      rewrite (bind_Done _ _ _ _ _ EU).
      split.
      { intros (_ & root' & Hr' & _). discriminate Hr'. }
      intros _. munfold. eexists. split; [reflexivity|].
      cbn [ks_cte ks_mem riscvKSASIDTable with_cte].
      split.
      { intros c. rewrite Z.eqb_refl. rewrite (relay_only_cte _ _ RU).
        destruct (c =? cte) eqn:Ec; rewrite Tc; reflexivity. }
      split; [rewrite (relay_only_table _ _ RU); exact Tt|].
      rewrite (relay_only_mem _ _ RU). exact Tm.
Qed.

(** Witness for X13: unmapping the 4 KiB frame of slot 400 in the system
    with three levels zeroes entry 1 of the third-level table. *)
Lemma pageUnmap_effect_witness :
  exists s1,
    decodeRISCVMMUInvocation sv39 RISCVPageUnmap 0 0 400 it_mapped_frame_cap [] 0
      three_level_state = Done EXCEPTION_NONE s1
    /\ ks_cte s1 400 = cap_frame_cap asidInvalid it_frame 0 VMReadWrite 0.
Proof.
  destruct (proj2 (pageUnmap_effect sv39 thread_state_only_sv39
                     0 0 400 1 it_frame 0 VMReadWrite 0x40001000 [] 0 three_level_state))
    as (s1 & E & Hc & _).
  - intros (_ & root & Hr & Hh).
    assert (Hroot : root = it_root) by (vm_compute in Hr; inversion Hr; reflexivity).
    subst root. vm_compute in Hh. discriminate Hh.
  - exists s1. split; [exact E|]. rewrite Hc. reflexivity.
Defined.

(** ** Unbinding ASIDs and re-resolving the running thread *)

(** The pair [setVMRoot] hands to the root register, read off the state. *)
Lemma setVMRoot_run (P : platform) (L : tcb_layout) tcb s :
  exists s',
    setVMRoot P L tcb s
    = Done (let cap := ks_cte s (tcbVTable_slot L tcb) in
            if vtable_root_b P s cap
            then (addrFromPPtr P (cap_page_table_cap_get_capPTBasePtr P cap),
                  cap_page_table_cap_get_capPTMappedASID P cap)
            else (addrFromPPtr P (kernel_pageTables P),
                  if cap_tag_eqb (cap_get_capType cap) tag_page_table
                  then cap_page_table_cap_get_capPTMappedASID P cap else 0)) s'
    /\ relay_only s s'.
Proof.
  unfold setVMRoot. munfold. cbv zeta.
  set (cap := ks_cte s (tcbVTable_slot L tcb)).
  destruct cap; cbn [cap_get_capType cap_tag_eqb negb vtable_root_b];
    try (eexists; split; [reflexivity | apply relay_only_refl]).
  cbn [cap_page_table_cap_get_capPTBasePtr cap_page_table_cap_get_capPTMappedASID].
  destruct (findVSpaceForASID_run P capPTMappedASID s) as (fr & s' & E & R & V).
  rewrite E. exists s'. split; [|exact R].
  destruct (asid_root P s capPTMappedASID) as [root|].
  - destruct V as [-> ->]. cbn [fv_status vspace_root exception_eqb negb orb].
    rewrite (Z.eqb_sym root). destruct (capPTBasePtr =? root); reflexivity.
  - rewrite V. reflexivity.
Qed.

(** X15: [setVMRoot] changes nothing but the fault relay, and it puts a
    thread on the root of its VSpace capability only when that capability
    is a page-table capability whose ASID the registry binds to exactly
    that root; in every other case the thread gets the kernel's own
    tables.  Whether the capability is flagged as mapped plays no part. *)
Theorem setVMRoot_installs_registered_root_only (P : platform) (L : tcb_layout) :
  forall (tcb : Z) (s : kstate),
    exists root asid s',
      setVMRoot P L tcb s = Done (root, asid) s'
      /\ relay_only s s'
      /\ (root = addrFromPPtr P (kernel_pageTables P)
          \/ exists base isMapped addr,
               ks_cte s (tcbVTable_slot L tcb) = cap_page_table_cap asid base isMapped addr
               /\ asid_root P s asid = Some base
               /\ root = addrFromPPtr P base)
      /\ (forall a base isMapped addr,
            ks_cte s (tcbVTable_slot L tcb) = cap_page_table_cap a base isMapped addr ->
            asid_root P s a = Some base ->
            root = addrFromPPtr P base /\ asid = a).
Proof.
  intros tcb s.
  destruct (setVMRoot_run P L tcb s) as (s' & E & R).
  cbv zeta in E.
  destruct (vtable_root_b P s (ks_cte s (tcbVTable_slot L tcb))) eqn:Evr.
  - eexists _, _, s'. split; [exact E|]. split; [exact R|].
    destruct (ks_cte s (tcbVTable_slot L tcb)) eqn:Ecap; try discriminate Evr.
    cbn [cap_page_table_cap_get_capPTBasePtr cap_page_table_cap_get_capPTMappedASID].
    cbn [vtable_root_b] in Evr.
    destruct (asid_root P s capPTMappedASID) as [r|] eqn:Er; [|discriminate].
    apply Z.eqb_eq in Evr. subst r.
    split.
    + right. exists capPTBasePtr, capPTIsMapped, capPTMappedAddress.
      split; [reflexivity|]. split; [first [exact Er | reflexivity] | reflexivity].
    + intros a base isMapped addr Hc _. inversion Hc; subst. split; reflexivity.
  - eexists _, _, s'. split; [exact E|]. split; [exact R|].
    split; [left; reflexivity|].
    intros a base isMapped addr Hc Hr. exfalso.
    rewrite Hc in Evr. cbn [vtable_root_b] in Evr. rewrite Hr, Z.eqb_refl in Evr.
    discriminate Evr.
Qed.

(** Witness for X15: thread 1 of [threaded_state] runs on the root bound
    to ASID 1. *)
Lemma setVMRoot_installs_registered_root_only_witness :
  exists s',
    setVMRoot sv39 sv39_tcb 1 threaded_state = Done (addrFromPPtr sv39 it_root, 1) s'.
Proof.
  destruct (setVMRoot_installs_registered_root_only sv39 sv39_tcb 1 threaded_state)
    as (root & asid & s' & E & _ & _ & H).
  destruct (H 1 it_root 1 it_root eq_refl eq_refl) as [-> ->].
  exists s'. exact E.
Defined.

(** X16: [deleteASID] is guarded.  When the ASID has no pool, or its entry
    is not the root being deleted, nothing at all changes and the root
    register is not written.  Otherwise the entry alone is cleared: the
    ASID no longer resolves, every other word of memory, every capability
    slot and the ASID table stay as they are, and the root register is
    rewritten for the current thread, which lands on the kernel's tables
    if its VSpace capability carries the deleted ASID. *)
Theorem deleteASID_guarded (P : platform) (L : tcb_layout) :
  forall (asid vspace : Z) (s : kstate),
    let pool := asid_pool_of P s asid in
    let slot := ptr_index pool (Z.land asid (MASK (asidLowBits P))) in
    (pool = 0 \/ ks_mem s slot <> vspace ->
       deleteASID P L asid vspace s = Done None s)
    /\ (pool <> 0 -> ks_mem s slot = vspace ->
          exists w s',
            deleteASID P L asid vspace s = Done (Some w) s'
            /\ asid_root P s' asid = None
            /\ ks_mem s' slot = 0
            /\ (forall a, a <> slot -> ks_mem s' a = ks_mem s a)
            /\ ks_cte s' = ks_cte s
            /\ riscvKSASIDTable s' = riscvKSASIDTable s
            /\ (forall base isMapped addr,
                  ks_cte s (tcbVTable_slot L (ksCurThread s))
                  = cap_page_table_cap asid base isMapped addr ->
                  w = (addrFromPPtr P (kernel_pageTables P), asid))).
Proof.
  intros asid vspace s pool slot.
  unfold deleteASID. munfold. fold (asid_pool_of P s asid). fold pool. fold slot.
  split.
  - intros [Hp | Hne].
    + rewrite Hp. reflexivity.
    + destruct (pool =? 0); [reflexivity|].
      apply Z.eqb_neq in Hne. rewrite Hne. reflexivity.
  - intros Hp He. pose proof Hp as Hp'. apply Z.eqb_neq in Hp'. rewrite Hp'.
    rewrite He, Z.eqb_refl. unfold hwASIDFlush. munfold.
    set (s1 := with_mem (upd (ks_mem s) slot 0) s).
    assert (Hroot1 : asid_root P s1 asid = None).
    { unfold asid_root, asid_entry_of.
      change (asid_pool_of P s1 asid) with pool. rewrite Hp'.
      fold slot. subst s1. cbn [ks_mem with_mem]. unfold upd.
      rewrite Z.eqb_refl. reflexivity. }
    destruct (setVMRoot_run P L (ksCurThread s1) s1) as (s' & E & R).
    rewrite E. eexists _, s'. split; [reflexivity|].
    split; [rewrite (asid_root_relay P _ _ _ R); exact Hroot1|].
    rewrite (relay_only_mem _ _ R), (relay_only_cte _ _ R), (relay_only_table _ _ R).
    subst s1. cbn [ks_mem ks_cte riscvKSASIDTable with_mem ksCurThread]. unfold upd.
    split; [rewrite Z.eqb_refl; reflexivity|].
    split; [intros a Ha; apply Z.eqb_neq in Ha; rewrite Ha; reflexivity|].
    split; [reflexivity|]. split; [reflexivity|].
    intros base isMapped addr Hc. cbv zeta. rewrite Hc.
    cbn [vtable_root_b]. unfold upd in Hroot1. rewrite Hroot1. reflexivity.
Qed.

(** Witness for X16: deleting ASID 1 of the populated system, whose
    thread 1 runs on it. *)
Lemma deleteASID_guarded_witness :
  exists w s',
    deleteASID sv39 sv39_tcb 1 it_root threaded_state = Done (Some w) s'
    /\ asid_root sv39 s' 1 = None
    /\ w = (addrFromPPtr sv39 (kernel_pageTables sv39), 1).
Proof.
  destruct (deleteASID_guarded sv39 sv39_tcb 1 it_root threaded_state) as (_ & H).
  destruct H as (w & s' & E & Hr & _ & _ & _ & _ & Hw).
  - vm_compute. discriminate.
  - vm_compute. reflexivity.
  - exists w, s'. split; [exact E|]. split; [exact Hr|].
    apply (Hw it_root 1 it_root). reflexivity.
Defined.

(** X17: [deleteASIDPool] is guarded.  For an aligned base, when the
    table entry is not the pool being deleted nothing at all changes;
    otherwise that table entry alone is cleared, so that no ASID of the
    pool resolves any more, while memory and capability slots stay as they
    are, and the root register is rewritten for the current thread. *)
Theorem deleteASIDPool_guarded (P : platform) (L : tcb_layout) :
  forall (asid_base pool : Z) (s : kstate),
    Z.land asid_base (MASK (asidLowBits P)) = 0 ->
    let index := Z.shiftr asid_base (asidLowBits P) in
    (riscvKSASIDTable s index <> pool ->
       deleteASIDPool P L asid_base pool s = Done None s)
    /\ (riscvKSASIDTable s index = pool ->
          exists w s',
            deleteASIDPool P L asid_base pool s = Done (Some w) s'
            /\ riscvKSASIDTable s' index = 0
            /\ (forall i, i <> index -> riscvKSASIDTable s' i = riscvKSASIDTable s i)
            /\ (forall asid, Z.shiftr asid (asidLowBits P) = index ->
                             asid_root P s' asid = None)
            /\ ks_mem s' = ks_mem s
            /\ ks_cte s' = ks_cte s).
Proof.
  intros asid_base pool s Halign index.
  unfold deleteASIDPool.
  rewrite (bind_Done _ _ _ _ _
             (assert_true P _ s (proj2 (Z.eqb_eq _ _) Halign))).
  munfold. fold index.
  split.
  - intros Hne. apply Z.eqb_neq in Hne. rewrite Hne. reflexivity.
  - intros He. rewrite He, Z.eqb_refl.
    set (s1 := with_asid_table (upd (riscvKSASIDTable s) index 0) s).
    destruct (setVMRoot_run P L (ksCurThread s1) s1) as (s' & E & R).
    rewrite E. eexists _, s'. split; [reflexivity|].
    rewrite (relay_only_mem _ _ R), (relay_only_cte _ _ R), (relay_only_table _ _ R).
    subst s1. cbn [ks_mem ks_cte riscvKSASIDTable with_asid_table]. unfold upd.
    split; [rewrite Z.eqb_refl; reflexivity|].
    split; [intros i Hi; apply Z.eqb_neq in Hi; rewrite Hi; reflexivity|].
    split; [|split; reflexivity].
    intros asid Hidx.
    rewrite (asid_root_relay P _ _ _ R).
    unfold asid_root, asid_pool_of.
    cbn [riscvKSASIDTable with_asid_table]. unfold upd.
    rewrite Hidx, Z.eqb_refl. reflexivity.
Qed.

(** Witness for X17: deleting pool 0 of the populated system. *)
Lemma deleteASIDPool_guarded_witness :
  exists w s',
    deleteASIDPool sv39 sv39_tcb 0 it_pool threaded_state = Done (Some w) s'
    /\ asid_root sv39 s' 1 = None.
Proof.
  destruct (deleteASIDPool_guarded sv39 sv39_tcb 0 it_pool threaded_state) as (_ & H).
  - reflexivity.
  - destruct H as (w & s' & E & _ & _ & Hr & _).
    + reflexivity.
    + exists w, s'. split; [exact E|]. apply Hr. reflexivity.
Defined.

(** ** Replicating the kernel window *)

Lemma ptr_index_inj base j k :
  0 <= j < 2 ^ 60 -> 0 <= k < 2 ^ 60 ->
  ptr_index base j = ptr_index base k -> j = k.
Proof.
  unfold ptr_index, word, wordBits. intros Hj Hk E.
  pose proof (Z.div_mod (base + 8 * j) (2 ^ 64)) as Dj.
  pose proof (Z.div_mod (base + 8 * k) (2 ^ 64)) as Dk.
  assert (H64 : 2 ^ 64 = 16 * 2 ^ 60) by reflexivity.
  assert (Hq : 8 * (j - k)
               = 2 ^ 64 * ((base + 8 * j) / 2 ^ 64 - (base + 8 * k) / 2 ^ 64)) by lia.
  nia.
Qed.

Lemma copyGlobalMappings_loop_run (P : platform) n : forall i newLvl1pt s,
  0 <= i -> i + Z.of_nat n <= 2 ^ PT_INDEX_BITS ->
  exists s',
    copyGlobalMappings_loop P n i newLvl1pt s = Done tt s'
    /\ ks_cte s' = ks_cte s
    /\ riscvKSASIDTable s' = riscvKSASIDTable s
    /\ (forall a, (forall j, i <= j < i + Z.of_nat n -> a <> ptr_index newLvl1pt j) ->
                  ks_mem s' a = ks_mem s a)
    /\ ((forall j k, i <= j < i + Z.of_nat n -> i <= k < i + Z.of_nat n ->
                     ptr_index (kernel_pageTables P) j <> ptr_index newLvl1pt k) ->
        forall j, i <= j < i + Z.of_nat n ->
                  ks_mem s' (ptr_index newLvl1pt j)
                  = ks_mem s (ptr_index (kernel_pageTables P) j)).
Proof.
  induction n as [|n IH]; intros i newLvl1pt s Hi Hn.
  - exists s. split; [reflexivity|]. split; [reflexivity|]. split; [reflexivity|].
    split; [intros; reflexivity | intros _ j Hj; lia].
  - cbn [copyGlobalMappings_loop]. munfold.
    set (s1 := with_mem (upd (ks_mem s) (ptr_index newLvl1pt i)
                             (ks_mem s (ptr_index (kernel_pageTables P) i))) s).
    destruct (IH (i + 1) newLvl1pt s1) as (s' & E & Hc & Ht & Hother & Hcopy); try lia.
    exists s'. split; [exact E|]. split; [exact Hc|]. split; [exact Ht|].
    assert (Hpt : 2 ^ PT_INDEX_BITS = 512) by reflexivity.
    split.
    + intros a Ha. rewrite Hother by (intros j Hj; apply Ha; lia).
      subst s1. cbn [ks_mem with_mem]. unfold upd.
      destruct (a =? ptr_index newLvl1pt i) eqn:Ea; [|reflexivity].
      apply Z.eqb_eq in Ea. exfalso. apply (Ha i); [lia | exact Ea].
    + intros Hdisj j Hj.
      destruct (Z.eq_dec j i) as [->|Hne].
      * rewrite Hother.
        -- subst s1. cbn [ks_mem with_mem]. unfold upd. rewrite Z.eqb_refl. reflexivity.
        -- intros k Hk E'. apply ptr_index_inj in E'; lia.
      * rewrite Hcopy; try lia.
        -- subst s1. cbn [ks_mem with_mem]. unfold upd.
           destruct (ptr_index (kernel_pageTables P) j =? ptr_index newLvl1pt i) eqn:Ea;
             [|reflexivity].
           apply Z.eqb_eq in Ea. exfalso. apply (Hdisj j i); [lia | lia | exact Ea].
        -- intros j' k' Hj' Hk'. apply Hdisj; lia.
Qed.

(** X18: [copyGlobalMappings] replicates the kernel window and nothing
    else.  With the kernel's top-level table and the new root apart, every
    entry of the new root from the index of [kernelBase] upwards becomes
    the kernel's entry of the same index; the entries below it, all other
    memory, the capability slots and the ASID table are left as they
    are. *)
Theorem copyGlobalMappings_replicates_window (P : platform) :
  forall (newLvl1pt : Z) (s : kstate),
    let first := RISCV_GET_PT_INDEX P (kernelBase P) 1 in
    (forall j k, first <= j < 2 ^ PT_INDEX_BITS -> first <= k < 2 ^ PT_INDEX_BITS ->
                 ptr_index (kernel_pageTables P) j <> ptr_index newLvl1pt k) ->
    exists s',
      copyGlobalMappings P newLvl1pt s = Done tt s'
      /\ (forall j, first <= j < 2 ^ PT_INDEX_BITS ->
                    ks_mem s' (ptr_index newLvl1pt j)
                    = ks_mem s (ptr_index (kernel_pageTables P) j))
      /\ (forall j, 0 <= j < first ->
                    ks_mem s' (ptr_index newLvl1pt j) = ks_mem s (ptr_index newLvl1pt j))
      /\ (forall a, (forall j, first <= j < 2 ^ PT_INDEX_BITS -> a <> ptr_index newLvl1pt j) ->
                    ks_mem s' a = ks_mem s a)
      /\ ks_cte s' = ks_cte s
      /\ riscvKSASIDTable s' = riscvKSASIDTable s.
Proof.
  intros newLvl1pt s first Hdisj.
  pose proof (PT_INDEX_range P (kernelBase P) 1) as Hfirst. fold first in Hfirst.
  assert (Hbit : BIT PT_INDEX_BITS = 2 ^ PT_INDEX_BITS) by reflexivity.
  unfold copyGlobalMappings. fold first. rewrite Hbit.
  destruct (copyGlobalMappings_loop_run P (Z.to_nat (2 ^ PT_INDEX_BITS - first)) first
              newLvl1pt s) as (s' & E & Hc & Ht & Hother & Hcopy); try lia.
  rewrite Z2Nat.id in Hother, Hcopy by lia.
  replace (first + (2 ^ PT_INDEX_BITS - first)) with (2 ^ PT_INDEX_BITS) in Hother, Hcopy
    by lia.
  exists s'. split; [exact E|].
  split; [apply Hcopy; exact Hdisj|].
  split.
  { intros j Hj. apply Hother. intros k Hk E'.
    assert (Hpt : 2 ^ PT_INDEX_BITS = 512) by reflexivity.
    apply ptr_index_inj in E'; lia. }
  split; [exact Hother|]. split; [exact Hc | exact Ht].
Qed.

(** Witness for X18: the root [it_root2] of [window_state], whose kernel
    table maps the window in entries 510 and 511. *)
Lemma copyGlobalMappings_replicates_window_witness :
  exists s',
    copyGlobalMappings sv39 it_root2 window_state = Done tt s'
    /\ ks_mem s' (ptr_index it_root2 510) = 0x200000CF
    /\ ks_mem s' (ptr_index it_root2 509) = 0.
Proof.
  destruct (copyGlobalMappings_replicates_window sv39 it_root2 window_state)
    as (s' & E & Hhi & Hlo & _).
  - intros j k Hj Hk. unfold ptr_index, word, wordBits.
    change (RISCV_GET_PT_INDEX sv39 (kernelBase sv39) 1) with 510 in Hj, Hk.
    change (2 ^ PT_INDEX_BITS) with 512 in Hj, Hk.
    change (kernel_pageTables sv39) with 0xFFFFFFFF80100000.
    change it_root2 with 0xFFFFFFFF80700000.
    rewrite !Z.mod_small by lia. lia.
  - exists s'. split; [exact E|]. split.
    + rewrite Hhi by (split; [discriminate | reflexivity]). reflexivity.
    + rewrite Hlo by (split; [discriminate | reflexivity]). reflexivity.
Defined.

(** ** ASID allocation, end to end *)

Lemma copyGlobalMappings_run (P : platform) newLvl1pt s :
  exists s',
    copyGlobalMappings P newLvl1pt s = Done tt s'
    /\ ks_cte s' = ks_cte s
    /\ riscvKSASIDTable s' = riscvKSASIDTable s
    /\ (forall a, (forall j, RISCV_GET_PT_INDEX P (kernelBase P) 1 <= j < 2 ^ PT_INDEX_BITS ->
                             a <> ptr_index newLvl1pt j) ->
                  ks_mem s' a = ks_mem s a).
Proof.
  pose proof (PT_INDEX_range P (kernelBase P) 1) as Hfirst.
  set (first := RISCV_GET_PT_INDEX P (kernelBase P) 1) in *.
  assert (Hbit : BIT PT_INDEX_BITS = 2 ^ PT_INDEX_BITS) by reflexivity.
  unfold copyGlobalMappings. fold first. rewrite Hbit.
  destruct (copyGlobalMappings_loop_run P (Z.to_nat (2 ^ PT_INDEX_BITS - first)) first
              newLvl1pt s) as (s' & E & Hc & Ht & Hother & _); try lia.
  rewrite Z2Nat.id in Hother by lia.
  replace (first + (2 ^ PT_INDEX_BITS - first)) with (2 ^ PT_INDEX_BITS) in Hother by lia.
  exists s'. repeat split; assumption.
Qed.

Lemma asid_split L base i :
  0 <= L < wordBits -> 0 <= base -> base + 2 ^ L <= 2 ^ wordBits ->
  Z.land base (MASK L) = 0 -> 0 <= i < 2 ^ L ->
  word (base + i) = base + i
  /\ Z.shiftr (base + i) L = Z.shiftr base L
  /\ Z.land (base + i) (MASK L) = i.
Proof.
  intros HL Hb Hfit Hal Hi.
  rewrite land_MASK in Hal by exact HL.
  rewrite land_MASK by exact HL.
  assert (Hpos : 0 < 2 ^ L) by (apply Z.pow_pos_nonneg; lia).
  pose proof (Z.div_mod base (2 ^ L) ltac:(lia)) as Hd. rewrite Hal in Hd.
  assert (Hq : base = base / 2 ^ L * 2 ^ L) by lia.
  set (q := base / 2 ^ L) in *. clearbody q.
  split; [unfold word; apply Z.mod_small; lia|]. split.
  - rewrite !Z.shiftr_div_pow2 by lia. rewrite Hq.
    rewrite Z.div_add_l, Z.div_mul by lia.
    rewrite (Z.div_small i) by lia. lia.
  - rewrite Hq. rewrite Z.add_comm, Z.mod_add by lia.
    apply Z.mod_small. lia.
Qed.

Lemma performASIDPoolInvocation_run (P : platform) asid poolPtr slot a0 b m v s :
  ks_cte s slot = cap_page_table_cap a0 b m v ->
  exists s',
    performASIDPoolInvocation P asid poolPtr slot s = Done EXCEPTION_NONE s'
    /\ ks_cte s' slot
       = cap_page_table_cap (field_store P F_capPTMappedASID asid) b
                            (field_store P F_capPTIsMapped 1) v
    /\ (forall x, x <> slot -> ks_cte s' x = ks_cte s x)
    /\ riscvKSASIDTable s' = riscvKSASIDTable s
    /\ ks_mem s' (ptr_index poolPtr (Z.land asid (MASK (asidLowBits P)))) = b
    /\ (forall a, a <> ptr_index poolPtr (Z.land asid (MASK (asidLowBits P))) ->
                  (forall j, RISCV_GET_PT_INDEX P (kernelBase P) 1 <= j < 2 ^ PT_INDEX_BITS ->
                             a <> ptr_index b j) ->
                  ks_mem s' a = ks_mem s a).
Proof.
  intros Hcap. unfold performASIDPoolInvocation.
  unfold bind at 1. unfold get_slot_cap at 1. unfold gets at 1. cbv beta iota zeta.
  rewrite Hcap.
  cbn [cap_page_table_cap_get_capPTBasePtr cap_page_table_cap_set_capPTMappedASID
       cap_page_table_cap_set_capPTIsMapped].
  unfold bind at 1. unfold set_slot_cap at 1. unfold modify at 1. cbv beta iota.
  unfold bind at 1.
  match goal with
  | |- context [copyGlobalMappings P b ?s1] =>
      destruct (copyGlobalMappings_run P b s1) as (s2 & E & Hc & Ht & Hm);
      set (t := s1) in *
  end.
  rewrite E. munfold.
  eexists. split; [reflexivity|].
  cbn [ks_cte ks_mem riscvKSASIDTable with_mem].
  split; [rewrite Hc; subst t; cbn [ks_cte with_cte]; rewrite Z.eqb_refl; reflexivity|].
  split.
  { intros x Hx. rewrite Hc. subst t. cbn [ks_cte with_cte].
    apply Z.eqb_neq in Hx. rewrite Hx. reflexivity. }
  split; [rewrite Ht; reflexivity|].
  split; [unfold upd; rewrite Z.eqb_refl; reflexivity|].
  intros a Ha Hw. unfold upd. apply Z.eqb_neq in Ha. rewrite Ha.
  rewrite Hm by exact Hw. reflexivity.
Qed.

(** X19: [RISCVASIDPoolAssign], from decode to the registry.  Invoked on
    a registered pool with a root capability that has no ASID yet, the
    invocation picks the first free entry [i] of the pool, stamps the
    root's capability with the ASID [base + i] and the mapped flag, and
    binds the root in that entry; the ASID table is unchanged and, for an
    aligned pool base, [findVSpaceForASID] resolves the new ASID to the
    root afterwards.  The ASID handed out is never 0 and the entry was
    empty before. *)
Theorem asidPoolAssign_binds_root (P : platform) :
  thread_state_only P ->
  0 <= asidLowBits P < wordBits ->
  forall (length cptr cte base poolPtr : Z) (extraCaps : list Z) (buffer : Z)
         (s : kstate) (b m v : Z),
    let slot := excaprefs extraCaps 0 in
    let i := findFreeASID P base poolPtr (ks_mem s) in
    slot <> 0 ->
    ks_cte s slot = cap_page_table_cap asidInvalid b m v ->
    b <> 0 -> poolPtr <> 0 ->
    riscvKSASIDTable s (Z.shiftr base (asidLowBits P)) = poolPtr ->
    0 <= base -> base + 2 ^ asidLowBits P <= 2 ^ wordBits ->
    Z.land base (MASK (asidLowBits P)) = 0 ->
    i < BIT (asidLowBits P) ->
    exists s',
      decodeRISCVMMUInvocation P RISCVASIDPoolAssign length cptr cte
        (cap_asid_pool_cap base poolPtr) extraCaps buffer s
      = Done EXCEPTION_NONE s'
      /\ base + i <> 0
      /\ ks_mem s (ptr_index poolPtr i) = 0
      /\ (forall j, 0 <= j < i -> asid_entry_taken base poolPtr (ks_mem s) j)
      /\ ks_cte s' slot
         = cap_page_table_cap (field_store P F_capPTMappedASID (base + i)) b
                              (field_store P F_capPTIsMapped 1) v
      /\ riscvKSASIDTable s' = riscvKSASIDTable s
      /\ ks_mem s' (ptr_index poolPtr i) = b
      /\ findVSpaceForASID P (base + i) s'
         = Done {| fv_status := EXCEPTION_NONE; vspace_root := b |} s'.
Proof.
  intros Hts HL length cptr cte base poolPtr extraCaps buffer s b m v slot i
         Hslot Hcap Hb Hpool Htab Hb0 Hfit Hal Hi.
  destruct (findFreeASID_spec P base poolPtr (ks_mem s)) as (H1 & H2 & H3).
  fold i in H1, H2, H3. destruct (H3 Hi) as [Hnz Hfree].
  rewrite BIT_pow2 in Hi by exact HL.
  destruct (asid_split (asidLowBits P) base i HL Hb0 Hfit Hal ltac:(lia))
    as (Hw & Hsh & Hlo).
  rewrite Hw in Hnz.
  unfold decodeRISCVMMUInvocation. cbn [cap_get_capType label_eqb negb].
  fold slot. pose proof Hslot as Hslot'. apply Z.eqb_neq in Hslot'. rewrite Hslot'.
  munfold. cbv zeta. rewrite Hcap.
  cbn [cap_page_table_cap_get_capPTMappedASID]. rewrite Z.eqb_refl.
  cbn [negb]. cbv beta iota.
  cbn [cap_asid_pool_cap_get_capASIDBase cap_asid_pool_cap_get_capASIDPool].
  rewrite Htab. pose proof Hpool as Hpool'. apply Z.eqb_neq in Hpool'. rewrite Hpool'.
  rewrite Z.eqb_refl. cbn [negb]. cbv beta iota.
  fold i.
  assert (Hne : (i =? BIT (asidLowBits P)) = false).
  { apply Z.eqb_neq. rewrite BIT_pow2 by exact HL. lia. }
  rewrite Hne, Hw.
  unfold restart_current_thread. munfold.
  set (s1 := setThreadState P (ksCurThread s) ThreadState_Restart s).
  destruct (Hts (ksCurThread s) ThreadState_Restart s) as (Hm1 & Hc1 & Ht1 & _).
  fold s1 in Hm1, Hc1, Ht1.
  destruct (performASIDPoolInvocation_run P (base + i) poolPtr slot asidInvalid b m v s1)
    as (s' & E & Hcap' & _ & Ht' & Hent & _).
  { rewrite Hc1. exact Hcap. }
  rewrite Hlo in Hent.
  exists s'. split; [exact E|].
  split; [exact Hnz|]. split; [exact Hfree|]. split; [exact H2|].
  split; [exact Hcap'|]. split; [rewrite Ht', Ht1; reflexivity|].
  split; [exact Hent|].
  unfold findVSpaceForASID. munfold.
  rewrite Ht', Ht1, Hsh, Htab, Hpool', Hlo, Hent.
  apply Z.eqb_neq in Hb. rewrite Hb. reflexivity.
Qed.

(** Witness for X19: assigning from the empty pool based at ASID 512 to
    the fresh root of slot 500. *)
Lemma asidPoolAssign_binds_root_witness :
  exists s',
    decodeRISCVMMUInvocation sv39 RISCVASIDPoolAssign 0 0 600
      (cap_asid_pool_cap 512 it_pool2) [500] 0 second_pool_state
    = Done EXCEPTION_NONE s'
    /\ ks_cte s' 500 = cap_page_table_cap 512 it_root2 1 0
    /\ findVSpaceForASID sv39 512 s'
       = Done {| fv_status := EXCEPTION_NONE; vspace_root := it_root2 |} s'.
Proof.
  destruct (asidPoolAssign_binds_root sv39 thread_state_only_sv39
              ltac:(vm_compute; split; [discriminate | reflexivity])
              0 0 600 512 it_pool2 [500] 0 second_pool_state it_root2 0 0)
    as (s' & E & _ & _ & _ & Hcap & _ & _ & Hfind).
  - discriminate.
  - reflexivity.
  - discriminate.
  - discriminate.
  - reflexivity.
  - lia.
  - vm_compute. discriminate.
  - reflexivity.
  - vm_compute. reflexivity.
  - exists s'. split; [exact E|]. split; [exact Hcap | exact Hfind].
Defined.

Lemma performASIDControlInvocation_run (P : platform) frame slot parent asid_base s :
  cteInsert_caps_only P ->
  Z.land asid_base (MASK (asidLowBits P)) = 0 ->
  exists s',
    performASIDControlInvocation P frame slot parent asid_base s = Done EXCEPTION_NONE s'
    /\ (forall k, riscvKSASIDTable s' k
                  = upd (riscvKSASIDTable s) (Z.shiftr asid_base (asidLowBits P)) frame k)
    /\ (forall a, ks_mem s' a
                  = zero_range frame (BIT (pageBitsForSize P (RISCV_4K_Page P))) (ks_mem s) a).
Proof.
  intros Hci Hal. unfold performASIDControlInvocation, memzero, assert.
  rewrite Hal, Z.eqb_refl. cbn [negb]. rewrite andb_false_r.
  munfold. eexists. split; [reflexivity|].
  cbn [riscvKSASIDTable ks_mem with_asid_table].
  match goal with
  | |- context [cteInsert P ?c ?a ?b ?t] =>
      destruct (Hci c a b t) as [Hm Ht]; rewrite Hm, Ht
  end.
  cbn [riscvKSASIDTable ks_mem with_mem with_cte].
  split; intros; reflexivity.
Qed.

Lemma pool_base_aligned L i :
  0 <= L < wordBits -> 0 <= i -> (i + 1) * 2 ^ L <= 2 ^ wordBits ->
  let asid_base := word (Z.shiftl i L) in
  asid_base = i * 2 ^ L
  /\ Z.land asid_base (MASK L) = 0
  /\ Z.shiftr asid_base L = i.
Proof.
  intros HL Hi Hfit. cbv zeta.
  assert (Hpos : 0 < 2 ^ L) by (apply Z.pow_pos_nonneg; lia).
  rewrite Z.shiftl_mul_pow2 by lia.
  assert (Hw : word (i * 2 ^ L) = i * 2 ^ L).
  { unfold word. apply Z.mod_small. nia. }
  rewrite Hw. split; [reflexivity|]. split.
  - rewrite land_MASK by exact HL. apply Z.mod_mul. lia.
  - rewrite Z.shiftr_div_pow2 by lia. apply Z.div_mul. lia.
Qed.

Lemma word_offset_back f x : word (word (f + x) - f) = word x.
Proof.
  unfold word. rewrite Zminus_mod_idemp_l. f_equal. lia.
Qed.

(** X20: [RISCVASIDControlMakePool], from decode to the registry.  With
    the capability-space checks passed, the invocation registers the
    untyped memory's page as the pool of the first free slot [i] of the
    ASID table and of no other slot; the page is zeroed and memory outside
    it is kept; the pool's base [i << asidLowBits] is aligned, so the
    executor's assertion holds; and every ASID of the new pool is unbound:
    [findVSpaceForASID] reports a missing capability for it. *)
Theorem asidControlMakePool_registers_empty_pool (P : platform) :
  thread_state_only P ->
  cteInsert_caps_only P ->
  0 <= asidLowBits P < wordBits ->
  0 <= pageBitsForSize P (RISCV_4K_Page P) < wordBits ->
  8 * 2 ^ asidLowBits P <= 2 ^ pageBitsForSize P (RISCV_4K_Page P) ->
  0 <= nASIDPools P ->
  nASIDPools P * 2 ^ asidLowBits P <= 2 ^ wordBits ->
  forall (length cptr cte : Z) (extraCaps : list Z) (buffer : Z) (s : kstate)
         (fi frame dest : Z),
    let parent := excaprefs extraCaps 0 in
    let i := findFreePool P (riscvKSASIDTable s) in
    2 <= length -> parent <> 0 -> excaprefs extraCaps 1 <> 0 ->
    ks_cte s parent = cap_untyped_cap fi 0 (seL4_ASIDPoolBits P) frame ->
    frame <> 0 ->
    i < nASIDPools P ->
    ensureNoChildren P parent s = Done EXCEPTION_NONE s ->
    lookupTargetSlot P (ks_cte s (excaprefs extraCaps 1))
      (syscallArg P 0 buffer s) (syscallArg P 1 buffer s) s
    = Done (EXCEPTION_NONE, dest) s ->
    ensureEmptySlot P dest s = Done EXCEPTION_NONE s ->
    exists s',
      decodeRISCVMMUInvocation P RISCVASIDControlMakePool length cptr cte
        cap_asid_control_cap extraCaps buffer s
      = Done EXCEPTION_NONE s'
      /\ riscvKSASIDTable s i = 0
      /\ (forall j, 0 <= j < i -> riscvKSASIDTable s j <> 0)
      /\ riscvKSASIDTable s' i = frame
      /\ (forall k, k <> i -> riscvKSASIDTable s' k = riscvKSASIDTable s k)
      /\ (forall a, ks_mem s' a
                    = if word (a - frame) <? 2 ^ pageBitsForSize P (RISCV_4K_Page P)
                      then 0 else ks_mem s a)
      /\ (forall asid, Z.shiftr asid (asidLowBits P) = i ->
            findVSpaceForASID P asid s'
            = Done {| fv_status := EXCEPTION_LOOKUP_FAULT; vspace_root := 0 |}
                (with_lookup_fault
                   (lookup_fault_missing_capability_new (RISCV_GET_LVL_PGSIZE_BITS P 1)) s')).
Proof.
  intros Hts Hci HL Hbits Hroom Hn Hcap length cptr cte extraCaps buffer s fi frame dest
         parent i Hlen Hpar Hroot Hut Hframe Hi Hs1 Hs2 Hs3.
  destruct (findFreePool_spec P (riscvKSASIDTable s) Hn) as (H1 & H2 & H3).
  fold i in H1, H2, H3.
  assert (Hpos : 0 < 2 ^ asidLowBits P) by (apply Z.pow_pos_nonneg; lia).
  destruct (pool_base_aligned (asidLowBits P) i HL ltac:(lia) ltac:(nia))
    as (_ & Hal & Hsh).
  unfold decodeRISCVMMUInvocation. cbn [cap_get_capType label_eqb negb].
  fold parent. apply Z.ltb_ge in Hlen. rewrite Hlen.
  pose proof Hpar as Hpar'. apply Z.eqb_neq in Hpar'. rewrite Hpar'.
  apply Z.eqb_neq in Hroot. rewrite Hroot. cbn [orb].
  munfold. cbv zeta. fold i.
  assert (Hne : (i =? nASIDPools P) = false) by (apply Z.eqb_neq; lia).
  rewrite Hne, Hut.
  cbn [cap_get_capType cap_tag_eqb cap_untyped_cap_get_capBlockSize
       cap_untyped_cap_get_capIsDevice cap_untyped_cap_get_capPtr negb orb].
  rewrite !Z.eqb_refl. cbn [negb orb]. cbv beta iota.
  rewrite Hs1. cbn [exception_eqb negb]. cbv beta iota.
  rewrite Hs2. cbn [fst snd exception_eqb negb]. cbv beta iota.
  rewrite Hs3. cbn [exception_eqb negb]. cbv beta iota.
  unfold restart_current_thread. munfold.
  set (s1 := setThreadState P (ksCurThread s) ThreadState_Restart s).
  destruct (Hts (ksCurThread s) ThreadState_Restart s) as (Hm1 & _ & Ht1 & _).
  fold s1 in Hm1, Ht1.
  destruct (performASIDControlInvocation_run P frame dest parent
              (word (Z.shiftl i (asidLowBits P))) s1 Hci Hal) as (s' & E & Ht' & Hm').
  rewrite Hsh in Ht'. rewrite BIT_pow2 in Hm' by exact Hbits.
  exists s'. split; [exact E|].
  split; [apply H3; exact Hi|]. split; [exact H2|].
  assert (Hti : riscvKSASIDTable s' i = frame).
  { rewrite Ht'. unfold upd. rewrite Z.eqb_refl. reflexivity. }
  split; [exact Hti|].
  split.
  { intros k Hk. rewrite Ht'. unfold upd. apply Z.eqb_neq in Hk. rewrite Hk, Ht1.
    reflexivity. }
  split.
  { intros a. rewrite Hm'. unfold zero_range. rewrite Hm1. reflexivity. }
  intros asid Hasid. unfold findVSpaceForASID. munfold.
  rewrite Hasid, Hti. apply Z.eqb_neq in Hframe. rewrite Hframe.
  rewrite Hm'. unfold zero_range, ptr_index.
  rewrite word_offset_back.
  assert (Hlo : 0 <= Z.land asid (MASK (asidLowBits P)) < 2 ^ asidLowBits P).
  { rewrite land_MASK by exact HL. apply Z.mod_pos_bound. exact Hpos. }
  assert (Hin : (word (8 * Z.land asid (MASK (asidLowBits P)))
                 <? 2 ^ pageBitsForSize P (RISCV_4K_Page P)) = true).
  { apply Z.ltb_lt.
    assert (H64 : 2 ^ pageBitsForSize P (RISCV_4K_Page P) < 2 ^ wordBits)
      by (apply Z.pow_lt_mono_r; lia).
    unfold word. rewrite Z.mod_small by lia. lia. }
  rewrite Hin. reflexivity.
Qed.

(** Witness for X20: making a pool from the untyped page of slot 700 in
    [untyped_state], whose only pool is pool 1; the new pool takes slot 0
    of the table. *)
Lemma asidControlMakePool_registers_empty_pool_witness :
  exists s',
    decodeRISCVMMUInvocation sv39 RISCVASIDControlMakePool 2 0 600
      cap_asid_control_cap [700; 500] 0 untyped_state
    = Done EXCEPTION_NONE s'
    /\ riscvKSASIDTable s' 0 = it_fresh_pool
    /\ riscvKSASIDTable s' 1 = it_pool2.
Proof.
  destruct (asidControlMakePool_registers_empty_pool sv39 thread_state_only_sv39
              ltac:(intros c src dest s; split; reflexivity)
              ltac:(vm_compute; split; [discriminate | reflexivity])
              ltac:(vm_compute; split; [discriminate | reflexivity])
              ltac:(vm_compute; discriminate)
              ltac:(vm_compute; discriminate)
              ltac:(vm_compute; discriminate)
              2 0 600 [700; 500] 0 untyped_state 0 it_fresh_pool 0)
    as (s' & E & _ & _ & Hi & Hk & _).
  - lia.
  - discriminate.
  - discriminate.
  - reflexivity.
  - discriminate.
  - vm_compute. reflexivity.
  - reflexivity.
  - reflexivity.
  - reflexivity.
  - exists s'. split; [exact E|]. split; [exact Hi|].
    rewrite (Hk 1) by discriminate. reflexivity.
Defined.

(** ** Page-table unmap, in general *)

Lemma lookupPageTableLevelSlot_loop_run (P : platform) n :
  forall i vptr target_pt slot s,
  exists r p,
    lookupPageTableLevelSlot_loop P n i vptr target_pt slot s = Done r s
    /\ ptSlot r = Some p
    /\ ((lu_status r = EXCEPTION_NONE
         /\ exists k, p = ptr_index target_pt (RISCV_GET_PT_INDEX P vptr k))
        \/ lu_status r = EXCEPTION_LOOKUP_FAULT).
Proof.
  induction n as [|n IH]; intros i vptr target_pt slot s;
    cbn [lookupPageTableLevelSlot_loop].
  - eexists _, slot. split; [reflexivity|]. split; [reflexivity|]. right. reflexivity.
  - unfold bind at 1. unfold load at 1. unfold gets at 1. cbv beta iota.
    destruct (isValidHWPageTable (ks_mem s slot)) eqn:Hv; cbn [negb].
    + unfold bind at 1.
      rewrite (getPPtrFromHWPTE_run P slot s (or_introl Hv)).
      destruct (pte_target P (ks_mem s slot) =? target_pt) eqn:Et.
      * apply Z.eqb_eq in Et. rewrite Et.
        eexists _, _. split; [reflexivity|]. split; [reflexivity|].
        left. split; [reflexivity|]. exists (i - 1). reflexivity.
      * apply IH.
    + eexists _, slot. split; [reflexivity|]. split; [reflexivity|]. right. reflexivity.
Qed.

Lemma lookupPageTableLevelSlot_loop_mem (P : platform) n :
  forall i vptr target_pt slot s t,
    ks_mem s = ks_mem t ->
    match lookupPageTableLevelSlot_loop P n i vptr target_pt slot s,
          lookupPageTableLevelSlot_loop P n i vptr target_pt slot t with
    | Done r _, Done r' _ => r = r'
    | _, _ => True
    end.
Proof.
  induction n as [|n IH]; intros i vptr target_pt slot s t Hm;
    cbn [lookupPageTableLevelSlot_loop].
  - reflexivity.
  - munfold. rewrite Hm.
    destruct (isValidHWPageTable (ks_mem t slot)) eqn:Hv; cbn [negb].
    + assert (Hv' : isValidHWPageTable (ks_mem s slot) = true) by (rewrite Hm; exact Hv).
      rewrite (getPPtrFromHWPTE_run P slot s (or_introl Hv')).
      rewrite (getPPtrFromHWPTE_run P slot t (or_introl Hv)).
      rewrite Hm.
      destruct (pte_target P (ks_mem t slot) =? target_pt); [reflexivity|].
      apply IH. exact Hm.
    + reflexivity.
Qed.

Lemma findVSpaceForASID_bound (P : platform) asid s root :
  asid_root P s asid = Some root ->
  findVSpaceForASID P asid s
  = Done {| fv_status := EXCEPTION_NONE; vspace_root := root |} s.
Proof.
  intros Hr. destruct (findVSpaceForASID_run P asid s) as (r & s' & E & _ & V).
  rewrite Hr in V. destruct V as [-> ->]. exact E.
Qed.

Lemma findVSpaceForASID_unbound (P : platform) asid s :
  asid_root P s asid = None ->
  exists s',
    findVSpaceForASID P asid s
    = Done {| fv_status := EXCEPTION_LOOKUP_FAULT; vspace_root := 0 |} s'
    /\ relay_only s s'.
Proof.
  intros Hr. destruct (findVSpaceForASID_run P asid s) as (r & s' & E & R & V).
  rewrite Hr in V. subst r. exists s'. split; assumption.
Qed.

Lemma pte_new_zero : pte_new 0 0 0 0 0 0 0 0 0 0 = 0.
Proof. reflexivity. Qed.

Lemma unmapPageTable_bound (P : platform) asid vaddr pt s root :
  asid_root P s asid = Some root ->
  exists r p,
    lookupPageTableLevelSlot P asid vaddr pt s = Done r s
    /\ ptSlot r = Some p
    /\ ((lu_status r = EXCEPTION_NONE
         /\ (exists k, p = ptr_index pt (RISCV_GET_PT_INDEX P vaddr k))
         /\ unmapPageTable P asid vaddr pt s = Done tt s)
        \/ (lu_status r = EXCEPTION_LOOKUP_FAULT
            /\ unmapPageTable P asid vaddr pt s
               = Done tt (with_mem (upd (ks_mem s) p 0) s))).
Proof.
  intros Hr.
  assert (El : exists r p,
             lookupPageTableLevelSlot P asid vaddr pt s = Done r s
             /\ ptSlot r = Some p
             /\ ((lu_status r = EXCEPTION_NONE
                  /\ exists k, p = ptr_index pt (RISCV_GET_PT_INDEX P vaddr k))
                 \/ lu_status r = EXCEPTION_LOOKUP_FAULT)).
  { unfold lookupPageTableLevelSlot.
    rewrite (bind_Done _ _ _ _ _ (findVSpaceForASID_bound P asid s root Hr)).
    cbn [fv_status vspace_root exception_eqb negb].
    apply lookupPageTableLevelSlot_loop_run. }
  destruct El as (r & p & E & Hp & Hcase).
  exists r, p. split; [exact E|]. split; [exact Hp|].
  unfold unmapPageTable. rewrite (bind_Done _ _ _ _ _ E).
  destruct Hcase as [[Hst Hk] | Hst]; rewrite Hst; cbn [exception_eqb negb].
  - left. split; [reflexivity|]. split; [exact Hk | reflexivity].
  - right. split; [reflexivity|]. rewrite Hp, pte_new_zero. reflexivity.
Qed.

Lemma unmapPageTable_unbound (P : platform) asid vaddr pt s :
  asid_root P s asid = None ->
  unmapPageTable P asid vaddr pt s = Undef.
Proof.
  intros Hr. destruct (findVSpaceForASID_unbound P asid s Hr) as (s' & E & _).
  unfold unmapPageTable, lookupPageTableLevelSlot.
  unfold bind at 1. unfold bind at 1. rewrite E. reflexivity.
Qed.

(** X21: [RISCVPageTableUnmap] on a mapped, non-root table, in general.
    When the table's ASID is bound, the invocation always completes
    without error, clears the capability's mapped flag and zeroes the
    table's own page.  If the walk from the ASID's root finds the table,
    that is all it does: the slot the walk returns lies inside the table
    itself and no entry outside the table's page changes, the parent's
    pointer included.  If the walk does not find the table, the entry at
    the slot where the walk stopped is zeroed as well.  When the ASID is
    not bound, the store goes through a slot the walk never assigned. *)
Theorem pageTableUnmap_three_cases (P : platform) :
  thread_state_only P ->
  forall (length cptr cte asid b m v : Z) (extraCaps : list Z) (buffer : Z) (s : kstate),
    let cap := cap_page_table_cap asid b m v in
    m <> 0 ->
    (forall root, asid_root P s asid = Some root -> b <> root ->
       exists s' r p,
         decodeRISCVMMUInvocation P RISCVPageTableUnmap length cptr cte cap extraCaps buffer s
         = Done EXCEPTION_NONE s'
         /\ lookupPageTableLevelSlot P asid v b s = Done r s
         /\ ptSlot r = Some p
         /\ (forall c, ks_cte s' c
                       = if c =? cte
                         then cap_page_table_cap_set_capPTIsMapped P (ks_cte s cte) 0
                         else ks_cte s c)
         /\ riscvKSASIDTable s' = riscvKSASIDTable s
         /\ ((lu_status r = EXCEPTION_NONE
              /\ (exists k, p = ptr_index b (RISCV_GET_PT_INDEX P v k))
              /\ forall a, ks_mem s' a
                           = if word (a - b) <? 2 ^ RISCV_4K_PageBits then 0
                             else ks_mem s a)
             \/ (lu_status r = EXCEPTION_LOOKUP_FAULT
                 /\ forall a, ks_mem s' a
                              = if word (a - b) <? 2 ^ RISCV_4K_PageBits then 0
                                else if a =? p then 0 else ks_mem s a)))
    /\ (asid_root P s asid = None ->
        decodeRISCVMMUInvocation P RISCVPageTableUnmap length cptr cte cap extraCaps buffer s
        = Undef).
Proof.
  intros Hts length cptr cte asid b m v extraCaps buffer s cap Hm.
  assert (Hm' : (m =? 0) = false) by (apply Z.eqb_neq; exact Hm).
  subst cap. split.
  - intros root Hroot Hne.
    pose proof (findVSpaceForASID_bound P asid s root Hroot) as Ef.
    unfold decodeRISCVMMUInvocation. cbn [cap_get_capType].
    unfold decodeRISCVPageTableInvocation, isVTableRoot.
    cbn [cap_page_table_cap_get_capPTMappedASID cap_get_capType cap_tag_eqb
         cap_page_table_cap_get_capPTBasePtr].
    unfold bind at 1. unfold bind at 1. rewrite Ef. unfold ret at 1.
    cbn [fv_status vspace_root exception_eqb andb].
    apply Z.eqb_neq in Hne. rewrite Hne. cbn [label_eqb].
    unfold restart_current_thread. unfold bind at 1. unfold bind at 1.
    unfold gets at 1, modify at 1. cbv beta iota.
    set (s1 := setThreadState P (ksCurThread s) ThreadState_Restart s).
    destruct (Hts (ksCurThread s) ThreadState_Restart s) as (Hm1 & Hc1 & Ht1 & _).
    fold s1 in Hm1, Hc1, Ht1.
    assert (Hroot1 : asid_root P s1 asid = Some root).
    { rewrite (asid_root_ext P s s1 asid Hm1 Ht1). exact Hroot. }
    destruct (unmapPageTable_bound P asid v b s root Hroot) as (r & p & El & Hp & _).
    destruct (unmapPageTable_bound P asid v b s1 root Hroot1)
      as (r1 & p1 & El1 & Hp1 & Hcase1).
    assert (Hsame : r1 = r).
    { unfold lookupPageTableLevelSlot in El, El1.
      rewrite (bind_Done _ _ _ _ _ (findVSpaceForASID_bound P asid s root Hroot)) in El.
      rewrite (bind_Done _ _ _ _ _ (findVSpaceForASID_bound P asid s1 root Hroot1)) in El1.
      cbn [fv_status vspace_root exception_eqb negb] in El, El1.
      pose proof (lookupPageTableLevelSlot_loop_mem P
                    (Z.to_nat (CONFIG_PT_LEVELS P - 1)) 2 v b
                    (ptr_index root (RISCV_GET_PT_INDEX P v 1)) s1 s Hm1) as Hl.
      rewrite El, El1 in Hl. cbn in Hl. exact Hl. }
    subst r1. assert (p1 = p) by congruence. subst p1.
    unfold performPageTableInvocationUnmap.
    cbn [cap_page_table_cap_get_capPTIsMapped cap_page_table_cap_get_capPTBasePtr
         cap_page_table_cap_get_capPTMappedASID cap_page_table_cap_get_capPTMappedAddress].
    rewrite Hm'. cbn [negb].
    unfold clearMemory, memzero.
    assert (Hbit : BIT RISCV_4K_PageBits = 2 ^ RISCV_4K_PageBits) by reflexivity.
    rewrite Hbit.
    destruct Hcase1 as [(Hst & Hk & Eu) | (Hst & Eu)].
    + unfold bind at 1. unfold bind at 1. rewrite Eu. munfold.
      eexists _, r, p. split; [reflexivity|]. split; [exact El|]. split; [exact Hp|].
      cbn [ks_cte ks_mem riscvKSASIDTable with_cte with_mem].
      split; [intros c; rewrite Hc1; reflexivity|].
      split; [exact Ht1|].
      left. split; [exact Hst|]. split; [exact Hk|].
      intros a. unfold zero_range. rewrite Hm1. reflexivity.
    + unfold bind at 1. unfold bind at 1. rewrite Eu. munfold.
      eexists _, r, p. split; [reflexivity|]. split; [exact El|]. split; [exact Hp|].
      cbn [ks_cte ks_mem riscvKSASIDTable with_cte with_mem].
      split; [intros c; rewrite Hc1; reflexivity|].
      split; [exact Ht1|].
      right. split; [exact Hst|].
      intros a. unfold zero_range, upd. rewrite Hm1. reflexivity.
  - intros Hnone.
    destruct (findVSpaceForASID_unbound P asid s Hnone) as (s0 & Ef & R).
    unfold decodeRISCVMMUInvocation. cbn [cap_get_capType].
    unfold decodeRISCVPageTableInvocation, isVTableRoot.
    cbn [cap_page_table_cap_get_capPTMappedASID cap_get_capType cap_tag_eqb
         cap_page_table_cap_get_capPTBasePtr].
    unfold bind at 1. unfold bind at 1. rewrite Ef. unfold ret at 1.
    cbn [fv_status vspace_root exception_eqb andb label_eqb].
    unfold restart_current_thread. unfold bind at 1. unfold bind at 1.
    unfold gets at 1, modify at 1. cbv beta iota.
    set (s1 := setThreadState P (ksCurThread s0) ThreadState_Restart s0).
    destruct (Hts (ksCurThread s0) ThreadState_Restart s0) as (Hm1 & _ & Ht1 & _).
    fold s1 in Hm1, Ht1.
    assert (Hnone1 : asid_root P s1 asid = None).
    { rewrite (asid_root_ext P s0 s1 asid Hm1 Ht1), (asid_root_relay P s s0 asid R).
      exact Hnone. }
    unfold performPageTableInvocationUnmap.
    cbn [cap_page_table_cap_get_capPTIsMapped cap_page_table_cap_get_capPTBasePtr
         cap_page_table_cap_get_capPTMappedASID cap_page_table_cap_get_capPTMappedAddress].
    rewrite Hm'. cbn [negb].
    unfold bind at 1. unfold bind at 1.
    rewrite (unmapPageTable_unbound P asid v b s1 Hnone1). reflexivity.
Qed.

(** Witness for X21: unmapping the mapped table [it_pt] of the populated
    system (ASID 1, bound to [it_root]). *)
Lemma pageTableUnmap_three_cases_witness :
  exists s',
    decodeRISCVMMUInvocation sv39 RISCVPageTableUnmap 0 0 100 it_pt_cap [] 0 mapped_pt_state
    = Done EXCEPTION_NONE s'
    /\ riscvKSASIDTable s' = riscvKSASIDTable mapped_pt_state.
Proof.
  destruct (proj1 (pageTableUnmap_three_cases sv39 thread_state_only_sv39
                     0 0 100 1 it_pt 1 it_vaddr [] 0 mapped_pt_state
                     ltac:(discriminate))
              it_root ltac:(reflexivity) ltac:(discriminate))
    as (s' & r & p & E & _ & _ & _ & Ht & _).
  exists s'. split; [exact E | exact Ht].
Defined.

(** ** Boot-time mappings *)

(** Once the pointer entry of [pt] is in the slot a walk to level [j - 1]
    ends on, the walk to level [j] ends in [pt]. *)
Lemma walk_after_install (P : platform) lvl1pt vptr j s s' p pt :
  2 <= j <= CONFIG_PT_LEVELS P ->
  lookupPTSlot P lvl1pt vptr (j - 1) s = Done (walk_ok p) s ->
  ~ In p (lookup_path P lvl1pt vptr (j - 1) (ks_mem s)) ->
  translatable_table P pt ->
  (forall a, a <> p -> ks_mem s' a = ks_mem s a) ->
  ks_mem s' p = table_pte P pt ->
  lookupPTSlot P lvl1pt vptr j s'
  = Done (walk_ok (ptr_index pt (RISCV_GET_PT_INDEX P vptr j))) s'.
Proof.
  intros Hj Hwalk Hfresh Htable Hmem Hp.
  destruct (table_pte_shape P pt Htable) as (Hnz & Hvalid & Htarget).
  destruct (lookupPTSlot_ok_inv _ _ _ _ _ _ _ Hwalk eq_refl) as (p' & _ & _ & _ & Hroot).
  assert (Hwalk' : lookupPTSlot P lvl1pt vptr (j - 1) s' = Done (walk_ok p) s').
  { apply (lookupPTSlot_ok_local P lvl1pt vptr (j - 1) s s' p); [|exact Hwalk].
    intros a Ha. apply Hmem. intros ->. apply Hfresh. exact Ha. }
  replace j with (j - 1 + 1) at 1 by lia.
  rewrite (lookupPTSlot_step_eq P lvl1pt vptr (j - 1) s' p Hroot) by (try exact Hwalk'; lia).
  cbn [lookupPTSlot_loop]. munfold. rewrite Hp.
  apply Z.eqb_neq in Hnz. rewrite Hnz.
  rewrite (getPPtrFromHWPTE_run P p s') by (left; rewrite Hp; exact Hvalid).
  rewrite Hp, Htarget.
  replace (j - 1 + 1) with j by lia. reflexivity.
Qed.

(** X22: [map_it_pt_cap] at boot.  It stores the pointer entry of the new
    table in the slot the walk to level [ptLevel - 1] returns, without
    looking at the walk's status.  When that walk succeeded (on a slot it
    did not read on its way), the walk to [ptLevel] afterwards ends in the
    new table and no other word has changed: tables created top-down are
    reachable.  When the walk stopped early on an empty entry, the table
    is installed in that higher-level slot all the same and no error is
    reported. *)
Theorem map_it_pt_cap_installs (P : platform) (B : boot_layout) :
  forall (vspace_cap pt_cap : cap_t) (ptLevel : Z) (s : kstate),
    let vptr := cap_page_table_cap_get_capPTMappedAddress P pt_cap in
    let lvl1pt := pptr_of_cap B vspace_cap in
    let pt := pptr_of_cap B pt_cap in
    2 <= ptLevel <= CONFIG_PT_LEVELS P -> ptLevel <= 2 ^ 32 ->
    (forall p,
        lookupPTSlot P lvl1pt vptr (ptLevel - 1) s = Done (walk_ok p) s ->
        ~ In p (lookup_path P lvl1pt vptr (ptLevel - 1) (ks_mem s)) ->
        translatable_table P pt ->
        exists s',
          map_it_pt_cap P B vspace_cap pt_cap ptLevel s = Done tt s'
          /\ ks_mem s' p = table_pte P pt
          /\ (forall a, a <> p -> ks_mem s' a = ks_mem s a)
          /\ ks_cte s' = ks_cte s
          /\ riscvKSASIDTable s' = riscvKSASIDTable s
          /\ lookupPTSlot P lvl1pt vptr ptLevel s'
             = Done (walk_ok (ptr_index pt (RISCV_GET_PT_INDEX P vptr ptLevel))) s')
    /\ (forall p j s1,
          lookupPTSlot P lvl1pt vptr (ptLevel - 1) s = Done (walk_missing p j) s1 ->
          map_it_pt_cap P B vspace_cap pt_cap ptLevel s
          = Done tt (with_mem (upd (ks_mem s1) p (table_pte P pt)) s1)).
Proof.
  intros vspace_cap pt_cap ptLevel s vptr lvl1pt pt Hlev H32.
  assert (Hmod : (ptLevel - 1) mod 2 ^ 32 = ptLevel - 1) by (apply Z.mod_small; lia).
  split.
  - intros p Hwalk Hfresh Htable.
    unfold map_it_pt_cap. fold vptr lvl1pt pt. cbv zeta. rewrite Hmod.
    rewrite (bind_Done _ _ _ _ _ Hwalk). cbn [ptSlot walk_ok].
    unfold sfence_vma. munfold. fold (table_pte P pt).
    eexists. split; [reflexivity|].
    set (s' := with_mem _ _).
    assert (Hp : ks_mem s' p = table_pte P pt).
    { subst s'. cbn [ks_mem with_mem]. unfold upd. rewrite Z.eqb_refl. reflexivity. }
    assert (Hmem : forall a, a <> p -> ks_mem s' a = ks_mem s a).
    { intros a Ha. subst s'. cbn [ks_mem with_mem]. unfold upd.
      apply Z.eqb_neq in Ha. rewrite Ha. reflexivity. }
    split; [exact Hp|]. split; [exact Hmem|].
    split; [reflexivity|]. split; [reflexivity|].
    apply (walk_after_install P lvl1pt vptr ptLevel s s' p pt); assumption.
  - intros p j s1 Hwalk.
    unfold map_it_pt_cap. fold vptr lvl1pt pt. cbv zeta. rewrite Hmod.
    rewrite (bind_Done _ _ _ _ _ Hwalk). cbn [ptSlot walk_missing].
    unfold sfence_vma. munfold. reflexivity.
Qed.

(** Witness for X22: the fresh table [it_pt2] is installed at
    [0x80000000] under the root of the populated system. *)
Lemma map_it_pt_cap_installs_witness :
  exists s',
    map_it_pt_cap sv39 sv39_boot it_root_cap (cap_page_table_cap 1 it_pt2 1 0x80000000) 2
      mapped_pt_state = Done tt s'
    /\ lookupPTSlot sv39 it_root 0x80000000 2 s'
       = Done (walk_ok (ptr_index it_pt2 (RISCV_GET_PT_INDEX sv39 0x80000000 2))) s'.
Proof.
  destruct (proj1 (map_it_pt_cap_installs sv39 sv39_boot it_root_cap
                     (cap_page_table_cap 1 it_pt2 1 0x80000000) 2 mapped_pt_state
                     ltac:(simpl; lia) ltac:(lia))
              (ptr_index it_root 2))
    as (s' & E & _ & _ & _ & _ & W).
  - vm_compute. reflexivity.
  - vm_compute. intros [].
  - split; [split; [discriminate | reflexivity] | split; reflexivity].
  - exists s'. split; [exact E | exact W].
Defined.

(** X23: [map_it_frame_cap] at boot.  It stores, in the slot the walk to
    the 4 KiB level returns and whatever the walk's status, the entry a
    user [RISCVPageMap] with read-write rights and execution allowed
    would build for the frame ([makeUserPTE]).  When the walk succeeded on
    a slot it did not read on its way, the walk afterwards still ends on
    that slot, and no other word has changed. *)
Theorem map_it_frame_cap_installs (P : platform) (B : boot_layout) :
  forall (vspace_cap frame_cap : cap_t) (s : kstate),
    let lvl1pt := pptr_of_cap B vspace_cap in
    let vptr := cap_frame_cap_get_capFMappedAddress P frame_cap in
    let level := RISCVpageAtPTLevel P (RISCV_4K_Page P) in
    let pte := makeUserPTE (pptr_to_paddr B (pptr_of_cap B frame_cap)) true VMReadWrite in
    (forall r s1 p,
        lookupPTSlot P lvl1pt vptr level s = Done r s1 ->
        ptSlot r = Some p ->
        map_it_frame_cap P B vspace_cap frame_cap s
        = Done tt (with_mem (upd (ks_mem s1) p pte) s1))
    /\ (forall p,
          lookupPTSlot P lvl1pt vptr level s = Done (walk_ok p) s ->
          ~ In p (lookup_path P lvl1pt vptr level (ks_mem s)) ->
          exists s',
            map_it_frame_cap P B vspace_cap frame_cap s = Done tt s'
            /\ ks_mem s' p = pte
            /\ (forall a, a <> p -> ks_mem s' a = ks_mem s a)
            /\ lookupPTSlot P lvl1pt vptr level s' = Done (walk_ok p) s').
Proof.
  intros vspace_cap frame_cap s lvl1pt vptr level pte.
  assert (Hrun : forall r s1 p,
             lookupPTSlot P lvl1pt vptr level s = Done r s1 ->
             ptSlot r = Some p ->
             map_it_frame_cap P B vspace_cap frame_cap s
             = Done tt (with_mem (upd (ks_mem s1) p pte) s1)).
  { intros r s1 p Hwalk Hp.
    unfold map_it_frame_cap. fold lvl1pt vptr level. cbv zeta.
    rewrite (bind_Done _ _ _ _ _ Hwalk), Hp.
    unfold sfence_vma. munfold. reflexivity. }
  split; [exact Hrun|].
  intros p Hwalk Hfresh.
  rewrite (Hrun _ _ p Hwalk eq_refl).
  eexists. split; [reflexivity|].
  set (s' := with_mem _ _).
  assert (Hmem : forall a, a <> p -> ks_mem s' a = ks_mem s a).
  { intros a Ha. subst s'. cbn [ks_mem with_mem]. unfold upd.
    apply Z.eqb_neq in Ha. rewrite Ha. reflexivity. }
  split; [subst s'; cbn [ks_mem with_mem]; unfold upd; rewrite Z.eqb_refl; reflexivity|].
  split; [exact Hmem|].
  apply (lookupPTSlot_ok_local P lvl1pt vptr level s s' p); [|exact Hwalk].
  intros a Ha. apply Hmem. intros ->. apply Hfresh. exact Ha.
Qed.

(** Witness for X23: the frame [it_frame] is mapped at [0x40001000] in
    the system with three levels. *)
Lemma map_it_frame_cap_installs_witness :
  exists s',
    map_it_frame_cap sv39 sv39_boot it_root_cap it_mapped_frame_cap three_level_state
    = Done tt s'
    /\ ks_mem s' (ptr_index it_pt3 1)
       = makeUserPTE (addrFromPPtr sv39 it_frame) true VMReadWrite.
Proof.
  destruct (proj2 (map_it_frame_cap_installs sv39 sv39_boot it_root_cap
                     it_mapped_frame_cap three_level_state)
              (ptr_index it_pt3 1))
    as (s' & E & Hp & _).
  - vm_compute. reflexivity.
  - vm_compute. intros [H|[H|[]]]; discriminate H.
  - exists s'. split; [exact E | exact Hp].
Defined.

(** X24: [write_it_asid_pool] binds the initial thread's ASID.  The root
    is written to entry [IT_ASID] of the pool and the pool is registered
    under [IT_ASID >> asidLowBits]; provided [IT_ASID] is below
    [2 ^ asidLowBits], which makes the entry written the one the registry
    reads, [findVSpaceForASID] resolves [IT_ASID] to the root afterwards.
    Pools registered under other indices stay registered and only that
    one word of memory changes. *)
Theorem write_it_asid_pool_binds (P : platform) (B : boot_layout) :
  forall (it_ap_cap it_lvl1pt_cap : cap_t) (s : kstate),
    let ap := pptr_of_cap B it_ap_cap in
    let root := pptr_of_cap B it_lvl1pt_cap in
    0 <= asidLowBits P < wordBits ->
    0 <= IT_ASID B < 2 ^ asidLowBits P ->
    ap <> 0 -> root <> 0 ->
    exists s',
      write_it_asid_pool P B it_ap_cap it_lvl1pt_cap s = Done tt s'
      /\ riscvKSASIDTable s' 0 = ap
      /\ (forall k, k <> 0 -> riscvKSASIDTable s' k = riscvKSASIDTable s k)
      /\ (forall a, a <> ptr_index ap (IT_ASID B) -> ks_mem s' a = ks_mem s a)
      /\ ks_cte s' = ks_cte s
      /\ findVSpaceForASID P (IT_ASID B) s'
         = Done {| fv_status := EXCEPTION_NONE; vspace_root := root |} s'.
Proof.
  intros it_ap_cap it_lvl1pt_cap s ap root HL Hit Hap Hroot. subst ap root.
  assert (Hsh : Z.shiftr (IT_ASID B) (asidLowBits P) = 0).
  { rewrite Z.shiftr_div_pow2 by lia. apply Z.div_small. exact Hit. }
  assert (Hlo : Z.land (IT_ASID B) (MASK (asidLowBits P)) = IT_ASID B).
  { rewrite land_MASK by exact HL. apply Z.mod_small. exact Hit. }
  unfold write_it_asid_pool. cbv zeta. munfold.
  eexists. split; [reflexivity|].
  cbn [riscvKSASIDTable ks_mem ks_cte with_asid_table with_mem].
  rewrite Hsh.
  split; [unfold upd; rewrite Z.eqb_refl; reflexivity|].
  split.
  { intros k Hk. unfold upd. apply Z.eqb_neq in Hk. rewrite Hk. reflexivity. }
  split.
  { intros a Ha. unfold upd. apply Z.eqb_neq in Ha. rewrite Ha. reflexivity. }
  split; [reflexivity|].
  unfold findVSpaceForASID. munfold.
  cbn [riscvKSASIDTable ks_mem with_asid_table with_mem].
  rewrite Hsh, Hlo. unfold upd. rewrite !Z.eqb_refl. cbv beta iota.
  apply Z.eqb_neq in Hap, Hroot. rewrite Hap. cbv beta iota.
  cbn [ks_mem with_asid_table with_mem]. rewrite Z.eqb_refl, Hroot. reflexivity.
Qed.

(** Witness for X24: the pool [it_pool] and the root [it_root] on a blank
    system. *)
Lemma write_it_asid_pool_binds_witness :
  exists s',
    write_it_asid_pool sv39 sv39_boot (cap_asid_pool_cap 0 it_pool) it_root_cap blank_state
    = Done tt s'
    /\ findVSpaceForASID sv39 1 s'
       = Done {| fv_status := EXCEPTION_NONE; vspace_root := it_root |} s'.
Proof.
  destruct (write_it_asid_pool_binds sv39 sv39_boot (cap_asid_pool_cap 0 it_pool)
              it_root_cap blank_state)
    as (s' & E & _ & _ & _ & _ & F).
  - vm_compute. split; [discriminate | reflexivity].
  - vm_compute. split; [discriminate | reflexivity].
  - discriminate.
  - discriminate.
  - exists s'. split; [exact E | exact F].
Defined.

(** ** Kernel image switch: what it leaves alone *)

Lemma Arch_setKernelImage_first_run (P : platform) (st : ki_machine) (n fuel : nat) :
  let image := km_image st in
  let stack_p := kernelStackBase P in
  let image_p := word (kernelImageVPtr P (kiRoot image) (word (stack_p - 1)) + 1) in
  let root := addrFromPPtr P (kiRoot image) in
  0 <= km_sp st ->
  stack_p = km_sp st + 8 * Z.of_nat n ->
  stack_p < 2 ^ wordBits ->
  (n <= fuel)%nat ->
  kiStackInitted image = false ->
  Arch_setKernelImage P fuel st
  = Some {| km_mem := copied_stack n 0 stack_p image_p (km_mem st);
            km_sp := km_sp st;
            km_satp := Some (root, kiASID image);
            km_image := {| kiRoot := kiRoot image; kiASID := kiASID image;
                           kiStackInitted := true |};
            km_trace := ((km_trace st ++ copy_events n stack_p image_p) ++ [EvFence])
                          ++ [EvSetVSpaceRoot root (kiASID image)]
                          ++ [EvSetStackInitted] |}.
Proof.
  intros image stack_p image_p root Hsp Hn Hmax Hfuel Hflag.
  unfold Arch_setKernelImage. fold image. fold stack_p. fold image_p. fold root.
  rewrite Hflag.
  pose proof (copy_stack_run n 0 fuel stack_p image_p (km_sp st) (km_mem st) (km_trace st)
                Hfuel Hsp Hmax) as Hrun.
  assert (Ws : word (stack_p - 8 * Z.of_nat 0) = stack_p).
  { unfold word. rewrite Z.sub_0_r. apply Z.mod_small. lia. }
  assert (Wi : word (image_p - 8 * Z.of_nat 0) = image_p).
  { unfold image_p, word. rewrite Z.sub_0_r. apply Z.mod_mod. discriminate. }
  rewrite Ws, Wi in Hrun. rewrite Hrun by lia.
  cbn [km_trace km_satp km_image km_mem km_sp setVSpaceRoot].
  unfold copy_events. rewrite <- !app_assoc. reflexivity.
Qed.

(** X25: the first switch to an image writes the image's private stack
    words and nothing else.  With the shared and the private stack
    regions apart, every word of memory other than the [n] destination
    words is the same after the switch; in particular the live words of
    the shared stack are still there, and the stack pointer is not
    moved. *)
Theorem Arch_setKernelImage_frame (P : platform) :
  forall (st : ki_machine) (n fuel : nat),
    let image := km_image st in
    let stack_p := kernelStackBase P in
    let image_p := word (kernelImageVPtr P (kiRoot image) (word (stack_p - 1)) + 1) in
    0 <= km_sp st ->
    stack_p = km_sp st + 8 * Z.of_nat n ->
    stack_p < 2 ^ wordBits ->
    (n <= fuel)%nat ->
    kiStackInitted image = false ->
    8 * Z.of_nat n <= image_p ->
    (image_p <= km_sp st \/ stack_p <= image_p - 8 * Z.of_nat n) ->
    exists st',
      Arch_setKernelImage P fuel st = Some st'
      /\ (forall a, (forall k, 1 <= k <= Z.of_nat n -> a <> image_p - 8 * k) ->
                    km_mem st' a = km_mem st a)
      /\ (forall k, 1 <= k <= Z.of_nat n ->
                    km_mem st' (stack_p - 8 * k) = km_mem st (stack_p - 8 * k))
      /\ km_sp st' = km_sp st.
Proof.
  intros st n fuel image stack_p image_p Hsp Hn Hmax Hfuel Hflag Hi Hd.
  pose proof (Arch_setKernelImage_first_run P st n fuel Hsp Hn Hmax Hfuel Hflag) as E.
  cbv zeta in E. fold image in E. fold stack_p in E. fold image_p in E.
  eexists. split; [exact E|].
  cbn [km_mem km_sp].
  assert (Hib : image_p < 2 ^ wordBits)
    by (unfold image_p, word; apply Z.mod_pos_bound; reflexivity).
  assert (Hc := copied_stack_contents n 0 stack_p image_p (km_mem st)).
  rewrite Nat.add_0_l in Hc.
  clearbody image_p stack_p.
  destruct Hc as [_ Hc]; [lia | lia | lia |].
  assert (Hframe : forall a, (forall k, 1 <= k <= Z.of_nat n -> a <> image_p - 8 * k) ->
                             copied_stack n 0 stack_p image_p (km_mem st) a = km_mem st a).
  { intros a Ha. apply Hc. intros k Hk. apply Ha. lia. }
  split; [exact Hframe|]. split; [|reflexivity].
  intros k Hk. apply Hframe. intros k' Hk'. lia.
Qed.

(** Witness for X25: the first switch of [first_switch]. *)
Lemma Arch_setKernelImage_frame_witness :
  exists st',
    Arch_setKernelImage sv39 2 first_switch = Some st'
    /\ km_mem st' 0xFFFFFFFF801FFFF8 = km_mem first_switch 0xFFFFFFFF801FFFF8.
Proof.
  destruct (Arch_setKernelImage_frame sv39 first_switch 2 2)
    as (st' & E & _ & Hsrc & _).
  - vm_compute. discriminate.
  - reflexivity.
  - reflexivity.
  - lia.
  - reflexivity.
  - vm_compute. discriminate.
  - left. vm_compute. discriminate.
  - exists st'. split; [exact E|]. apply (Hsrc 1). lia.
Defined.

(** X26: switching twice.  After the first switch to an image has copied
    the stack and set the flag, any later switch to that image copies
    nothing: on every machine that holds the image record the first
    switch left, whatever its stack pointer, memory and earlier trace are
    by then and whatever the fuel, the switch only writes the root
    register again, with the same root and ASID. *)
Theorem Arch_setKernelImage_twice (P : platform) :
  forall (st : ki_machine) (n fuel : nat),
    let image := km_image st in
    let stack_p := kernelStackBase P in
    let root := addrFromPPtr P (kiRoot image) in
    0 <= km_sp st ->
    stack_p = km_sp st + 8 * Z.of_nat n ->
    stack_p < 2 ^ wordBits ->
    (n <= fuel)%nat ->
    kiStackInitted image = false ->
    exists st',
      Arch_setKernelImage P fuel st = Some st'
      /\ km_satp st' = Some (root, kiASID image)
      /\ kiStackInitted (km_image st') = true
      /\ forall (fuel2 : nat) (st2 : ki_machine),
           km_image st2 = km_image st' ->
           Arch_setKernelImage P fuel2 st2
           = Some {| km_mem := km_mem st2; km_sp := km_sp st2;
                     km_satp := Some (root, kiASID image);
                     km_image := km_image st2;
                     km_trace := km_trace st2 ++ [EvSetVSpaceRoot root (kiASID image)] |}.
Proof.
  intros st n fuel image stack_p root Hsp Hn Hmax Hfuel Hflag.
  pose proof (Arch_setKernelImage_first_run P st n fuel Hsp Hn Hmax Hfuel Hflag) as E.
  cbv zeta in E. fold image in E. fold stack_p in E. fold root in E.
  eexists. split; [exact E|].
  cbn [km_satp km_image kiStackInitted].
  split; [reflexivity|]. split; [reflexivity|].
  intros fuel2 st2 Him.
  unfold Arch_setKernelImage. rewrite Him.
  cbn [kiStackInitted kiRoot kiASID]. fold root.
  unfold setVSpaceRoot. rewrite Him. reflexivity.
Qed.

(** Witness for X26: [first_switch], switched to a second time with the
    stack pointer one word below the stack base and no fuel. *)
Lemma Arch_setKernelImage_twice_witness :
  exists st',
    Arch_setKernelImage sv39 2 first_switch = Some st'
    /\ exists st'',
         Arch_setKernelImage sv39 0
           {| km_mem := km_mem st'; km_sp := 0xFFFFFFFF80200000 - 8;
              km_satp := km_satp st'; km_image := km_image st';
              km_trace := km_trace st' |} = Some st''
         /\ km_trace st'' = km_trace st' ++ [EvSetVSpaceRoot 0x80300000 2]
         /\ km_mem st'' = km_mem st'.
Proof.
  destruct (Arch_setKernelImage_twice sv39 first_switch 2 2)
    as (st' & E1 & _ & _ & H2).
  - vm_compute. discriminate.
  - reflexivity.
  - reflexivity.
  - lia.
  - reflexivity.
  - exists st'. split; [exact E1|].
    eexists. split; [apply (H2 0%nat); reflexivity|].
    split; reflexivity.
Defined.

Lemma word_sub8_mod8 x sp :
  (word (x - 8) - sp) mod 8 = (x - sp) mod 8.
Proof.
  unfold word, wordBits.
  pose proof (Z.div_mod (x - 8) (2 ^ 64) ltac:(discriminate)) as Hd.
  replace ((x - 8) mod 2 ^ 64 - sp)
    with (x - sp + (- 1 - 2 ^ 61 * ((x - 8) / 2 ^ 64)) * 8)
    by (change (2 ^ 64) with (8 * 2 ^ 61) in *; lia).
  apply Z.mod_add. discriminate.
Qed.

(** X27: the copy loop has no exit but the stack pointer.  When the stack
    pointer is not a whole number of words away from the stack base, the
    source pointer steps past it and the loop never leaves, however long
    it runs; a first switch then never reaches the barrier, the root
    register or the flag. *)
Theorem copy_stack_misaligned_never_exits (P : platform) :
  forall (st : ki_machine),
    (kernelStackBase P - km_sp st) mod 8 <> 0 ->
    kiStackInitted (km_image st) = false ->
    (forall fuel image_p m tr,
        copy_stack fuel (kernelStackBase P) image_p (km_sp st) m tr = None)
    /\ (forall fuel, Arch_setKernelImage P fuel st = None).
Proof.
  intros st Hmis Hflag.
  assert (Hloop : forall fuel stack_p image_p m tr,
             (stack_p - km_sp st) mod 8 <> 0 ->
             copy_stack fuel stack_p image_p (km_sp st) m tr = None).
  { induction fuel as [|fuel IH]; intros stack_p image_p m tr Hm.
    - cbn [copy_stack].
      destruct (stack_p =? km_sp st) eqn:E; [|reflexivity].
      apply Z.eqb_eq in E. exfalso. apply Hm. rewrite E, Z.sub_diag. reflexivity.
    - rewrite copy_stack_S.
      destruct (stack_p =? km_sp st) eqn:E.
      + apply Z.eqb_eq in E. exfalso. apply Hm. rewrite E, Z.sub_diag. reflexivity.
      + apply IH. rewrite word_sub8_mod8. exact Hm. }
  split.
  - intros fuel image_p m tr. apply Hloop. exact Hmis.
  - intros fuel. unfold Arch_setKernelImage. rewrite Hflag.
    rewrite Hloop by exact Hmis. reflexivity.
Qed.

(** Witness for X27: [first_switch] with the stack pointer moved up by
    four bytes. *)
Lemma copy_stack_misaligned_never_exits_witness :
  Arch_setKernelImage sv39 1000 misaligned_switch = None.
Proof.
  apply (proj2 (copy_stack_misaligned_never_exits sv39 misaligned_switch
                  ltac:(vm_compute; discriminate) eq_refl)).
Defined.

(** ** Writing a run of entries; reporting a frame's address *)

Lemma updatePTE_loop_run n : forall i pte base s,
  0 <= i -> i + Z.of_nat n <= 2 ^ 60 ->
  exists s',
    updatePTE_loop n i pte base s = Done tt s'
    /\ (forall j, i <= j < i + Z.of_nat n -> ks_mem s' (ptr_index base j) = pte)
    /\ (forall a, (forall j, i <= j < i + Z.of_nat n -> a <> ptr_index base j) ->
                  ks_mem s' a = ks_mem s a)
    /\ ks_cte s' = ks_cte s
    /\ riscvKSASIDTable s' = riscvKSASIDTable s.
Proof.
  induction n as [|n IH]; intros i pte base s Hi Hn; cbn [updatePTE_loop].
  - exists s. split; [reflexivity|]. split; [intros j Hj; lia|].
    split; [intros; reflexivity|]. split; reflexivity.
  - munfold.
    set (s1 := with_mem (upd (ks_mem s) (ptr_index base i) pte) s).
    destruct (IH (i + 1) pte base s1) as (s' & E & Hfill & Hother & Hc & Ht); try lia.
    exists s'. split; [exact E|].
    split.
    + intros j Hj. destruct (Z.eq_dec j i) as [->|Hne].
      * rewrite Hother.
        -- subst s1. cbn [ks_mem with_mem]. unfold upd. rewrite Z.eqb_refl. reflexivity.
        -- intros k Hk E'. apply ptr_index_inj in E'; lia.
      * apply Hfill. lia.
    + split.
      * intros a Ha. rewrite Hother by (intros j Hj; apply Ha; lia).
        subst s1. cbn [ks_mem with_mem]. unfold upd.
        destruct (a =? ptr_index base i) eqn:Ea; [|reflexivity].
        apply Z.eqb_eq in Ea. exfalso. apply (Ha i); [lia | exact Ea].
      * split; [exact Hc | exact Ht].
Qed.

(** X28: [updatePTE] writes the entry to each of the [length] consecutive
    slots from [base] and to nothing else: every slot of the range holds
    the entry afterwards, every other word of memory, the capability
    slots and the ASID table are unchanged, and no error is reported. *)
Theorem updatePTE_fills_range :
  forall (pte base n : Z) (s : kstate),
    0 <= n <= 2 ^ 60 ->
    exists s',
      updatePTE pte {| pr_base := base; pr_length := n |} s = Done EXCEPTION_NONE s'
      /\ (forall i, 0 <= i < n -> ks_mem s' (ptr_index base i) = pte)
      /\ (forall a, (forall i, 0 <= i < n -> a <> ptr_index base i) ->
                    ks_mem s' a = ks_mem s a)
      /\ ks_cte s' = ks_cte s
      /\ riscvKSASIDTable s' = riscvKSASIDTable s.
Proof.
  intros pte base n s Hn. unfold updatePTE. cbn [pr_length pr_base].
  destruct (updatePTE_loop_run (Z.to_nat n) 0 pte base s) as (s' & E & H);
    [lia | rewrite Z2Nat.id by lia; lia |].
  rewrite Z2Nat.id in H by lia. rewrite Z.add_0_l in H.
  rewrite (bind_Done _ _ _ _ _ E). unfold sfence_vma. munfold.
  exists s'. split; [reflexivity | exact H].
Qed.

(** Witness for X28: four entries from [it_pt] in the populated system. *)
Lemma updatePTE_fills_range_witness :
  exists s',
    updatePTE 0x201008DF {| pr_base := it_pt; pr_length := 4 |} mapped_pt_state
    = Done EXCEPTION_NONE s'
    /\ ks_mem s' (ptr_index it_pt 3) = 0x201008DF.
Proof.
  destruct (updatePTE_fills_range 0x201008DF it_pt 4 mapped_pt_state)
    as (s' & E & Hfill & _).
  - split; [discriminate | discriminate].
  - exists s'. split; [exact E|]. apply Hfill. lia.
Defined.

(** X29: [RISCVPageGetAddress] reports the frame's physical address.  On
    any frame capability, mapped or not, the invocation completes without
    error, puts the physical address of the frame's base in the current
    thread's first message register and the one-register message info in
    its info register, and leaves memory, capability slots and the ASID
    table as they are. *)
Theorem pageGetAddress_reports_paddr (P : platform) :
  thread_state_only P ->
  forall (length cptr cte asid0 base sz : Z) (rights : vm_rights_t) (addr0 : Z)
         (extraCaps : list Z) (buffer : Z) (s : kstate),
    exists s1,
      decodeRISCVMMUInvocation P RISCVPageGetAddress length cptr cte
        (cap_frame_cap asid0 base sz rights addr0) extraCaps buffer s
      = Done EXCEPTION_NONE s1
      /\ ks_regs s1 (ksCurThread s) (msgRegister 0) = addrFromPPtr P base
      /\ ks_regs s1 (ksCurThread s) msgInfoRegister = msgInfo_one_register P
      /\ ksCurThread s1 = ksCurThread s
      /\ ks_mem s1 = ks_mem s
      /\ ks_cte s1 = ks_cte s
      /\ riscvKSASIDTable s1 = riscvKSASIDTable s.
Proof.
  intros Hts length cptr cte asid0 base sz rights addr0 extraCaps buffer s.
  destruct (Hts (ksCurThread s) ThreadState_Restart s) as (Tm & Tc & Tt & Tcur).
  unfold decodeRISCVMMUInvocation. cbn [cap_get_capType].
  unfold decodeRISCVFrameInvocation, restart_current_thread, performPageGetAddress.
  cbn [cap_frame_cap_get_capFBasePtr]. munfold.
  eexists. split; [reflexivity|].
  cbn [ks_regs ks_mem ks_cte riscvKSASIDTable ksCurThread with_regs].
  rewrite Tcur, Z.eqb_refl. cbn [register_eqb andb].
  rewrite Z.eqb_refl.
  repeat split; assumption || reflexivity.
Qed.

(** Witness for X29: the frame of slot 400 in the populated system. *)
Lemma pageGetAddress_reports_paddr_witness :
  exists s1,
    decodeRISCVMMUInvocation sv39 RISCVPageGetAddress 0 0 400 it_mapped_frame_cap [] 0
      mapped_pt_state = Done EXCEPTION_NONE s1
    /\ ks_regs s1 1 (msgRegister 0) = 0x80402000.
Proof.
  destruct (pageGetAddress_reports_paddr sv39 thread_state_only_sv39
              0 0 400 1 it_frame 0 VMReadWrite 0x40001000 [] 0 mapped_pt_state)
    as (s1 & E & Hr & _).
  exists s1. split; [exact E | exact Hr].
Defined.
